(** * Payments dashboard: routing, orchestration, ledger and reconciliation

    A shallow embedding of the backend services of the payment
    orchestration platform (packages/backend/src/modules), and the
    properties of the specification checked against it.

    Conventions of the embedding:
    - a [bigint] is a [Z]; a Prisma enum is an inductive type;
    - an optional field ([x?: T], [T | null]) is an [option];
    - the relational store is the record [Db]; every service method is a
      function in the monad [M], which threads the store and may throw;
    - collaborators reached over the network (provider adapters, the FX
      service, the metrics cache) are passed in as records of functions;
    - the store and the caches are taken to be reachable: a query or a
      write fails only on a constraint of the schema (a missing row, a
      taken unique key), and recording a metric does not fail. *)

From stdpp Require Import gmap strings list fin_maps infinite sorting pretty.
From Stdlib Require Import Ascii ZArith QArith Qround Lia Lqa.

#[local] Open Scope string_scope.
#[local] Open Scope list_scope.
#[local] Open Scope Z_scope.

(** ** Prisma enums *)

Inductive Currency := USD | EUR | GBP | SGD | JPY | AUD | CAD | CHF | CNY | HKD.

Inductive LedgerEntryType := DEBIT | CREDIT.

Inductive TransactionStatus :=
  PENDING | PROCESSING | COMPLETED | FAILED | REFUNDED | CANCELLED.

Inductive TransactionType := PAYMENT | REFUND | PAYOUT | TRANSFER.

Inductive PaymentMethodType := CARD | BANK_TRANSFER | DIGITAL_WALLET | CRYPTO.

Inductive ProviderStatus := ACTIVE | INACTIVE | DEGRADED | MAINTENANCE.

#[global] Instance Currency_eq_dec : EqDecision Currency.
Proof. solve_decision. Defined.

#[global] Instance LedgerEntryType_eq_dec : EqDecision LedgerEntryType.
Proof. solve_decision. Defined.

#[global] Instance TransactionStatus_eq_dec : EqDecision TransactionStatus.
Proof. solve_decision. Defined.

#[global] Instance TransactionType_eq_dec : EqDecision TransactionType.
Proof. solve_decision. Defined.

#[global] Instance PaymentMethodType_eq_dec : EqDecision PaymentMethodType.
Proof. solve_decision. Defined.

#[global] Instance ProviderStatus_eq_dec : EqDecision ProviderStatus.
Proof. solve_decision. Defined.

Definition Currency_code (c : Currency) : string :=
  match c with
  | USD => "USD" | EUR => "EUR" | GBP => "GBP" | SGD => "SGD" | JPY => "JPY"
  | AUD => "AUD" | CAD => "CAD" | CHF => "CHF" | CNY => "CNY" | HKD => "HKD"
  end.

Definition Currency_of_code (s : string) : option Currency :=
  if decide (s = "USD") then Some USD else if decide (s = "EUR") then Some EUR
  else if decide (s = "GBP") then Some GBP else if decide (s = "SGD") then Some SGD
  else if decide (s = "JPY") then Some JPY else if decide (s = "AUD") then Some AUD
  else if decide (s = "CAD") then Some CAD else if decide (s = "CHF") then Some CHF
  else if decide (s = "CNY") then Some CNY else if decide (s = "HKD") then Some HKD
  else None.

#[global] Instance Currency_countable : Countable Currency.
Proof.
  refine (inj_countable Currency_code Currency_of_code _).
  by intros [].
Defined.

Definition TransactionStatus_code (s : TransactionStatus) : string :=
  match s with
  | PENDING => "PENDING" | PROCESSING => "PROCESSING" | COMPLETED => "COMPLETED"
  | FAILED => "FAILED" | REFUNDED => "REFUNDED" | CANCELLED => "CANCELLED"
  end.

Definition PaymentMethodType_code (m : PaymentMethodType) : string :=
  match m with
  | CARD => "CARD" | BANK_TRANSFER => "BANK_TRANSFER"
  | DIGITAL_WALLET => "DIGITAL_WALLET" | CRYPTO => "CRYPTO"
  end.

Definition ProviderStatus_code (s : ProviderStatus) : string :=
  match s with
  | ACTIVE => "ACTIVE" | INACTIVE => "INACTIVE"
  | DEGRADED => "DEGRADED" | MAINTENANCE => "MAINTENANCE"
  end.

(** ** Thrown errors

    The error classes of the backend, each with the fields the services
    read back: [LedgerError] and [PaymentError] carry a code,
    [ProviderError] its [isRetryable] flag, [AppError] an HTTP status. The
    built-in JavaScript errors are the last four. *)

Inductive error :=
| LedgerError (message code : string)
| PaymentError (message code : string) (transactionId : option string)
| ProviderError (message code : string) (isRetryable : bool)
| AppError (message : string) (statusCode : Z)
| PrismaError (message code : string)
| Error (message : string)
| TypeError (message : string)
| RangeError (message : string)
| SyntaxError (message : string).

Definition error_message (e : error) : string :=
  match e with
  | LedgerError m _ | PaymentError m _ _ | ProviderError m _ _ | AppError m _
  | PrismaError m _ | Error m | TypeError m | RangeError m | SyntaxError m => m
  end.

Inductive result (A : Type) :=
| Ok (a : A)
| Throw (e : error).

Arguments Ok {A} a.
Arguments Throw {A} e.

Definition is_ok {A} (r : result A) : bool :=
  match r with Ok _ => true | Throw _ => false end.

(** ** JavaScript values

    Rule conditions, metadata and raw provider responses are JSON documents
    read as [unknown]. A [number] is an IEEE double idealised as an exact
    rational, with [NaN] and the two infinities apart. *)

Module Js.

Set Warnings "-register-all".

Inductive number :=
| NaN
| Finite (q : Q)
| PosInfinity
| NegInfinity.

Inductive value :=
| Undefined
| Null
| Bool (b : bool)
| Number (n : number)
| BigInt (z : Z)
| Str (s : string)
| Array (elements : list value)
| Object (fields : list (string * value)).

(** [Number(z)] for a bigint [z]. *)
Definition Number_of_bigint (z : Z) : number := Finite (inject_Z z).

(** [a === b] on numbers: [NaN] equals nothing. *)
Definition number_strict_eq (a b : number) : bool :=
  match a, b with
  | Finite p, Finite q => Qeq_bool p q
  | PosInfinity, PosInfinity => true
  | NegInfinity, NegInfinity => true
  | _, _ => false
  end.

(** The conversions between doubles and decimal text (ECMA-262
    [parseFloat], StringToNumber and Number::toString) are long algorithms
    of the runtime, not of this repository: the code that calls them is
    parametrised over them. *)
Record Runtime := {
  parseFloat : string -> number;
  StringToNumber : string -> number;
  Number_toString : number -> string
}.

Definition isNaN (n : number) : bool :=
  match n with NaN => true | _ => false end.

Definition number_lt (a b : number) : bool :=
  match a, b with
  | NaN, _ | _, NaN => false
  | Finite p, Finite q => negb (Qle_bool q p)
  | NegInfinity, NegInfinity => false
  | NegInfinity, _ => true
  | _, NegInfinity => false
  | PosInfinity, _ => false
  | Finite _, PosInfinity => true
  end.

Definition number_le (a b : number) : bool :=
  match a, b with
  | NaN, _ | _, NaN => false
  | Finite p, Finite q => Qle_bool p q
  | NegInfinity, _ => true
  | _, NegInfinity => false
  | _, PosInfinity => true
  | PosInfinity, Finite _ => false
  end.

(** Truthiness, as tested by [if (x)]. *)
Definition truthy (v : value) : bool :=
  match v with
  | Undefined | Null => false
  | Bool b => b
  | Number NaN => false
  | Number (Finite q) => negb (Qeq_bool q 0)
  | Number _ => true
  | BigInt z => negb (z =? 0)
  | Str s => negb (bool_decide (s = ""))
  | Array _ | Object _ => true
  end.

(** [a === b]. Two arrays or objects are equal only when they are the same
    reference; the values compared in this program come from different
    documents (a rule and a request), so they never are. *)
Definition strict_eq (a b : value) : bool :=
  match a, b with
  | Undefined, Undefined | Null, Null => true
  | Bool x, Bool y => bool_decide (x = y)
  | Number x, Number y => number_strict_eq x y
  | BigInt x, BigInt y => x =? y
  | Str x, Str y => bool_decide (x = y)
  | _, _ => false
  end.

(** SameValueZero, the comparison of [Array.prototype.includes]. *)
Definition same_value_zero (a b : value) : bool :=
  match a, b with
  | Number NaN, Number NaN => true
  | _, _ => strict_eq a b
  end.

Definition includes (elements : list value) (v : value) : bool :=
  existsb (fun e => same_value_zero e v) elements.

(** Strings: ASCII letters for [toLowerCase], ASCII white space for
    trimming. *)
Definition lower (c : ascii) : ascii :=
  let n := nat_of_ascii c in
  if ((65 <=? n) && (n <=? 90))%nat then ascii_of_nat (n + 32) else c.

Definition toLowerCase (s : string) : string :=
  String.string_of_list_ascii (List.map lower (String.list_ascii_of_string s)).

Fixpoint starts_with_list (p l : list ascii) : bool :=
  match p, l with
  | [], _ => true
  | _ :: _, [] => false
  | a :: p, b :: l => bool_decide (a = b) && starts_with_list p l
  end.

Fixpoint includes_list (p l : list ascii) : bool :=
  starts_with_list p l ||
  match l with
  | [] => false
  | _ :: l => includes_list p l
  end.

Definition string_startsWith (s p : string) : bool :=
  starts_with_list (String.list_ascii_of_string p) (String.list_ascii_of_string s).

Definition string_endsWith (s p : string) : bool :=
  starts_with_list (rev (String.list_ascii_of_string p)) (rev (String.list_ascii_of_string s)).

Definition string_includes (s p : string) : bool :=
  includes_list (String.list_ascii_of_string p) (String.list_ascii_of_string s).

Definition is_whitespace (c : ascii) : bool :=
  let n := nat_of_ascii c in
  ((9 <=? n) && (n <=? 13) || (n =? 32))%nat.

Fixpoint trim_start (l : list ascii) : list ascii :=
  match l with
  | c :: l' => if is_whitespace c then trim_start l' else l
  | [] => []
  end.

Definition trim (l : list ascii) : list ascii :=
  rev (trim_start (rev (trim_start l))).

Definition digit_value (c : ascii) : option Z :=
  let n := Z.of_nat (nat_of_ascii c) in
  if (48 <=? n) && (n <=? 57) then Some (n - 48)
  else if (97 <=? n) && (n <=? 102) then Some (n - 87)
  else if (65 <=? n) && (n <=? 70) then Some (n - 55)
  else None.

Fixpoint digits_from (base acc : Z) (l : list ascii) : option Z :=
  match l with
  | [] => Some acc
  | c :: l =>
      match digit_value c with
      | Some d => if d <? base then digits_from base (acc * base + d) l else None
      | None => None
      end
  end.

(** One digit at least. *)
Definition digits (base : Z) (l : list ascii) : option Z :=
  match l with
  | [] => None
  | _ => digits_from base 0 l
  end.

(** StringToBigInt: white space around an optional integer literal, which
    is a signed decimal or an unsigned [0x], [0o] or [0b] literal; the
    empty literal is zero. *)
Definition StringToBigInt (s : string) : option Z :=
  match trim (String.list_ascii_of_string s) with
  | [] => Some 0
  | "0"%char :: ("x"%char | "X"%char) :: l => digits 16 l
  | "0"%char :: ("o"%char | "O"%char) :: l => digits 8 l
  | "0"%char :: ("b"%char | "B"%char) :: l => digits 2 l
  | "+"%char :: l => digits 10 l
  | "-"%char :: l => Z.opp <$> digits 10 l
  | l => digits 10 l
  end.

Definition join (sep : string) (parts : list string) : string :=
  String.concat sep parts.

(** ToString, with [Array.prototype.toString] for arrays and
    [Object.prototype.toString] for plain objects. *)
Fixpoint ToString (rt : Runtime) (v : value) {struct v} : string :=
  match v with
  | Undefined => "undefined"
  | Null => "null"
  | Bool true => "true"
  | Bool false => "false"
  | Number n => Number_toString rt n
  | BigInt z => pretty z
  | Str s => s
  | Array elements =>
      join "," (List.map (fun e => match e with
                                   | Undefined | Null => ""
                                   | _ => ToString rt e
                                   end) elements)
  | Object _ => "[object Object]"
  end.

(** ToPrimitive: arrays and plain objects become their string. *)
Definition ToPrimitive (rt : Runtime) (v : value) : value :=
  match v with
  | Array _ | Object _ => Str (ToString rt v)
  | _ => v
  end.

Definition is_integral (q : Q) : bool := Qeq_bool q (inject_Z (Qfloor q)).

(** [BigInt(v)]. *)
Definition BigInt_of (rt : Runtime) (v : value) : result Z :=
  match ToPrimitive rt v with
  | Number (Finite q) =>
      if is_integral q then Ok (Qfloor q)
      else Throw (RangeError ("The number " +:+ Number_toString rt (Finite q) +:+
                              " cannot be converted to a BigInt because it is not an integer"))
  | Number n =>
      Throw (RangeError ("The number " +:+ Number_toString rt n +:+
                         " cannot be converted to a BigInt because it is not an integer"))
  | Undefined => Throw (TypeError "Cannot convert undefined to a BigInt")
  | Null => Throw (TypeError "Cannot convert null to a BigInt")
  | Bool b => Ok (if b then 1 else 0)
  | BigInt z => Ok z
  | Str s =>
      match StringToBigInt s with
      | Some z => Ok z
      | None => Throw (SyntaxError ("Cannot convert " +:+ s +:+ " to a BigInt"))
      end
  | Array _ | Object _ => Throw (TypeError "Cannot convert object to primitive value")
  end.

(** [Number(v)]. *)
Definition Number_of (rt : Runtime) (v : value) : number :=
  match ToPrimitive rt v with
  | Undefined => NaN
  | Null => Finite 0
  | Bool b => Finite (if b then 1 else 0)
  | Number n => n
  | BigInt z => Number_of_bigint z
  | Str s => StringToNumber rt s
  | Array _ | Object _ => NaN
  end.

(** Members every plain object inherits from [Object.prototype]. *)
Definition inherited : list string :=
  [ "constructor"; "toString"; "toLocaleString"; "valueOf"; "hasOwnProperty";
    "isPrototypeOf"; "propertyIsEnumerable"; "__proto__"; "__defineGetter__";
    "__defineSetter__"; "__lookupGetter__"; "__lookupSetter__" ].

(** [o[key]] on a plain object: an own property, else an inherited member
    (a function or the prototype, here an opaque object), else
    [undefined]. *)
Definition get_property (o : gmap string value) (key : string) : value :=
  match o !! key with
  | Some v => v
  | None => if bool_decide (key ∈ inherited) then Object [] else Undefined
  end.

End Js.

(** ** Rows of the relational store *)

Module Transaction.
Record t := {
  id : string;
  merchantId : string;
  customerId : option string;
  providerId : option string;
  paymentMethodId : option string;
  parentTransactionId : option string;
  providerTransactionId : option string;
  type : TransactionType;
  status : TransactionStatus;
  amount : Z;
  currency : Currency;
  convertedAmount : option Z;
  convertedCurrency : option Currency;
  fxRateId : option string;
  description : option string;
  failureReason : option string;
  metadata : gmap string Js.value;
  providerResponse : option Js.value;
  idempotencyKey : option string;
  capturedAt : option Z;
  cancelledAt : option Z;
  refundedAt : option Z;
  createdAt : Z;
  updatedAt : Z
}.
End Transaction.

Module TransactionStatusHistory.
Record t := {
  transactionId : string;
  fromStatus : option TransactionStatus;
  toStatus : TransactionStatus;
  reason : option string
}.
End TransactionStatusHistory.

Module LedgerEntry.
Record t := {
  id : string;
  transactionId : string;
  accountCode : string;
  entryType : LedgerEntryType;
  amount : Z;
  currency : Currency;
  balance : option Z;
  description : option string;
  metadata : Js.value;
  createdAt : Z
}.
End LedgerEntry.

Module PaymentProvider.
Record t := {
  id : string;
  code : string;
  name : string;
  status : ProviderStatus;
  supportedCurrencies : list Currency;
  supportedMethods : list PaymentMethodType;
  isActive : bool
}.
End PaymentProvider.

Module MerchantProviderConfig.
Record t := {
  merchantId : string;
  providerId : string;
  priority : Z;
  isActive : bool
}.
End MerchantProviderConfig.

(** Routing types (routing.types.ts). A directly named field of
    [RoutingRuleConditions] is declared [RuleCondition] but read as
    [RuleCondition | unknown]: [Full] is an object with a [field] key,
    [Legacy] any other value, [Legacy Js.Undefined] an absent key. *)

Module RuleCondition.
Inductive ConditionOperator :=
| equals | not_equals | op_in | not_in
| greater_than | less_than | greater_than_or_equals | less_than_or_equals
| between | contains | starts_with | ends_with
| other_operator (name : string).

Record t := {
  field : string;
  operator : ConditionOperator;
  value : Js.value
}.
End RuleCondition.

Inductive fieldCondition :=
| Legacy (v : Js.value)
| Full (c : RuleCondition.t).

Module RoutingRuleConditions.
Record t := {
  currency : fieldCondition;
  amount : fieldCondition;
  paymentMethodType : fieldCondition;
  cardBrand : fieldCondition;
  country : fieldCondition;
  region : fieldCondition;
  all : option (list RuleCondition.t);
  any : option (list RuleCondition.t);
  amountMin : Js.value;
  amountMax : Js.value
}.
End RoutingRuleConditions.

Module RoutingRule.
Record t := {
  id : string;
  merchantId : string;
  name : string;
  conditions : RoutingRuleConditions.t;
  providerId : string;
  priority : Z;
  isActive : bool
}.
End RoutingRule.

(** Reconciliation types (reconciliation.types.ts). The free-text
    [description] of a discrepancy, interpolated from the fields kept here,
    is left out. *)

Inductive DiscrepancyType :=
  MISSING_IN_DB | MISSING_IN_PROVIDER | AMOUNT_MISMATCH | STATUS_MISMATCH.

Inductive DiscrepancyResolution := force_match | refund | ignore.

Module ReconciliationStatus.
Inductive t := PENDING | IN_PROGRESS | COMPLETED | FAILED | REQUIRES_REVIEW.
End ReconciliationStatus.

#[global] Instance DiscrepancyType_eq_dec : EqDecision DiscrepancyType.
Proof. solve_decision. Defined.

#[global] Instance DiscrepancyResolution_eq_dec : EqDecision DiscrepancyResolution.
Proof. solve_decision. Defined.

#[global] Instance ReconciliationStatus_eq_dec : EqDecision ReconciliationStatus.t.
Proof. solve_decision. Defined.

Module SettlementRecord.
Record t := {
  transactionId : string;
  amount : Js.number;
  currency : string;
  status : string;
  providerRef : option string;
  settledAt : option string
}.
End SettlementRecord.

Module Discrepancy.
Record t := {
  id : string;
  transactionId : string;
  type : DiscrepancyType;
  providerAmount : option Js.number;
  localAmount : option Js.number;
  providerStatus : option string;
  localStatus : option string;
  resolution : option DiscrepancyResolution;
  resolvedAt : option Z;
  resolvedBy : option string
}.
End Discrepancy.

Module ReconciliationReport.
Record t := {
  id : string;
  merchantId : string;
  status : ReconciliationStatus.t;
  periodStart : Z;
  periodEnd : Z;
  totalTransactions : nat;
  matchedTransactions : nat;
  unmatchedTransactions : nat;
  discrepancies : list Discrepancy.t;
  byType : list (DiscrepancyType * nat);
  reconciliationRate : Q;
  generatedAt : Z;
  reviewedAt : option Z;
  reviewedBy : option string;
  createdAt : Z
}.
End ReconciliationReport.

(** ** The store and the service monad

    [prisma.<table>] is a field of [Db]. Tables addressed by primary key
    are finite maps from the key; tables only scanned or appended to are
    lists in insertion order. [now] is the clock read by [new Date()] and
    by the column defaults; [rulesCache] is the cache in front of the
    routing rules. *)

Record Db := {
  transaction : gmap string Transaction.t;
  transactionStatusHistory : list TransactionStatusHistory.t;
  ledgerEntry : list LedgerEntry.t;
  paymentProvider : gmap string PaymentProvider.t;
  merchantProviderConfig : list MerchantProviderConfig.t;
  routingRule : list RoutingRule.t;
  reconciliationReport : gmap string ReconciliationReport.t;
  rulesCache : gmap string (list RoutingRule.t);
  now : Z
}.

(** A computation over a state [S] that returns or throws; what it wrote
    before throwing stays written. [M] is the monad of the services that
    only touch the store. *)
Definition StateM (S A : Type) : Type := S -> result A * S.

Definition M (A : Type) : Type := StateM Db A.

Definition ret {S A} (a : A) : StateM S A := fun s => (Ok a, s).

Definition throw {S A} (e : error) : StateM S A := fun s => (Throw e, s).

Definition bind {S A B} (m : StateM S A) (k : A -> StateM S B) : StateM S B :=
  fun s =>
    match m s with
    | (Ok a, s') => k a s'
    | (Throw e, s') => (Throw e, s')
    end.

(** [try { m } catch (error) { handler }]. *)
Definition try_catch {S A} (m : StateM S A) (handler : error -> StateM S A) : StateM S A :=
  fun s =>
    match m s with
    | (Ok a, s') => (Ok a, s')
    | (Throw e, s') => handler e s'
    end.

Definition get {S} : StateM S S := fun s => (Ok s, s).

Definition modify {S} (f : S -> S) : StateM S unit := fun s => (Ok tt, f s).

Definition lift {S A} (r : result A) : StateM S A := fun s => (r, s).

Notation "'let*' x ':=' m 'in' k" := (bind m (fun x => k))
  (at level 10, x pattern, m at level 100, k at level 200).

Notation "m ';;' k" := (bind m (fun _ => k))
  (at level 100, k at level 200, right associativity).

(** [returns m s P]: run from the state [s], the call [m] returns a value
    (it does not throw), and the value and the state it leaves satisfy [P]. *)
Definition returns {S A} (m : StateM S A) (s : S) (P : A -> S -> Prop) : Prop :=
  match m s with
  | (Ok a, s') => P a s'
  | (Throw _, _) => False
  end.

Definition set_transaction
    (f : gmap string Transaction.t -> gmap string Transaction.t) (db : Db) : Db :=
  {| transaction := f (transaction db);
     transactionStatusHistory := transactionStatusHistory db;
     ledgerEntry := ledgerEntry db;
     paymentProvider := paymentProvider db;
     merchantProviderConfig := merchantProviderConfig db;
     routingRule := routingRule db;
     reconciliationReport := reconciliationReport db;
     rulesCache := rulesCache db;
     now := now db |}.

Definition set_transactionStatusHistory
    (f : list TransactionStatusHistory.t -> list TransactionStatusHistory.t) (db : Db) : Db :=
  {| transaction := transaction db;
     transactionStatusHistory := f (transactionStatusHistory db);
     ledgerEntry := ledgerEntry db;
     paymentProvider := paymentProvider db;
     merchantProviderConfig := merchantProviderConfig db;
     routingRule := routingRule db;
     reconciliationReport := reconciliationReport db;
     rulesCache := rulesCache db;
     now := now db |}.

Definition set_now (f : Z -> Z) (db : Db) : Db :=
  {| transaction := transaction db;
     transactionStatusHistory := transactionStatusHistory db;
     ledgerEntry := ledgerEntry db;
     paymentProvider := paymentProvider db;
     merchantProviderConfig := merchantProviderConfig db;
     routingRule := routingRule db;
     reconciliationReport := reconciliationReport db;
     rulesCache := rulesCache db;
     now := f (now db) |}.

Definition set_ledgerEntry (f : list LedgerEntry.t -> list LedgerEntry.t) (db : Db) : Db :=
  {| transaction := transaction db;
     transactionStatusHistory := transactionStatusHistory db;
     ledgerEntry := f (ledgerEntry db);
     paymentProvider := paymentProvider db;
     merchantProviderConfig := merchantProviderConfig db;
     routingRule := routingRule db;
     reconciliationReport := reconciliationReport db;
     rulesCache := rulesCache db;
     now := now db |}.

(** ** Ledger (modules/ledger) *)

Module Ledger.

Module CreateLedgerEntryRequest.
Record t := {
  transactionId : string;
  accountCode : string;
  entryType : LedgerEntryType;
  amount : Z;
  currency : Currency;
  description : option string;
  metadata : option Js.value
}.
End CreateLedgerEntryRequest.

Import CreateLedgerEntryRequest.

(** [AccountCode] enum members used by the posting builders. *)
Definition CASH : string := "1000".
Definition FX_RECEIVABLE : string := "1300".
Definition MERCHANT_PAYABLE : string := "2100".
Definition REFUND_PAYABLE : string := "2200".
Definition FX_REVENUE : string := "3100".

Definition unbalancedEntry (transactionId : string) : error :=
  LedgerError ("Ledger entries for transaction " +:+ transactionId +:+ " are not balanced")
              "UNBALANCED_ENTRY".

Definition transactionNotFound (transactionId : string) : error :=
  LedgerError ("Transaction " +:+ transactionId +:+ " not found") "TRANSACTION_NOT_FOUND".

Record Totals := { debits : Z; credits : Z }.

(** The first loop of [validateBalance]: one step per entry on the
    [Map<Currency, { debits, credits }>]. *)
Definition addEntry (currencyTotals : gmap Currency Totals) (entry : t)
  : gmap Currency Totals :=
  let currencyTotals :=
    match currencyTotals !! currency entry with
    | None => <[currency entry := {| debits := 0; credits := 0 |}]> currencyTotals
    | Some _ => currencyTotals
    end in
  match currencyTotals !! currency entry with
  | Some totals =>
      if decide (entryType entry = DEBIT)
      then <[currency entry := {| debits := debits totals + amount entry;
                                  credits := credits totals |}]> currencyTotals
      else <[currency entry := {| debits := debits totals;
                                  credits := credits totals + amount entry |}]> currencyTotals
  | None => currencyTotals
  end.

Definition validateBalance (transactionId : string) (entries : list t) : result unit :=
  let currencyTotals := foldl addEntry ∅ entries in
  if forallb (fun '(_, totals) => (debits totals =? credits totals)%Z)
             (map_to_list currencyTotals)
  then Ok tt
  else Throw (unbalancedEntry transactionId).

(** [prisma.ledgerEntry.create]: the row gets a generated id, unused so
    far, and the creation time. *)
Definition create (entry : t) (rows : list LedgerEntry.t) (createdAt : Z) : LedgerEntry.t :=
  {| LedgerEntry.id := fresh (LedgerEntry.id <$> rows);
     LedgerEntry.transactionId := transactionId entry;
     LedgerEntry.accountCode := accountCode entry;
     LedgerEntry.entryType := entryType entry;
     LedgerEntry.amount := amount entry;
     LedgerEntry.currency := currency entry;
     LedgerEntry.balance := None;
     LedgerEntry.description := description entry;
     LedgerEntry.metadata := default (Js.Object []) (metadata entry);
     LedgerEntry.createdAt := createdAt |}.

Fixpoint createAll (entries : list t) (rows : list LedgerEntry.t) (createdAt : Z)
  : list LedgerEntry.t :=
  match entries with
  | [] => []
  | entry :: entries =>
      let row := create entry rows createdAt in
      row :: createAll entries (rows ++ [row]) createdAt
  end.

(** [prisma.$transaction([...creates])]: all rows are written at once. *)
Definition createBatch (entries : list t) : M (list LedgerEntry.t) :=
  let* db := get in
  let created := createAll entries (ledgerEntry db) (now db) in
  modify (set_ledgerEntry (fun rows => rows ++ created)) ;;
  ret created.

Definition toLedgerEntryResponse (entry : LedgerEntry.t) : LedgerEntry.t :=
  {| LedgerEntry.id := LedgerEntry.id entry;
     LedgerEntry.transactionId := LedgerEntry.transactionId entry;
     LedgerEntry.accountCode := LedgerEntry.accountCode entry;
     LedgerEntry.entryType := LedgerEntry.entryType entry;
     LedgerEntry.amount := LedgerEntry.amount entry;
     LedgerEntry.currency := LedgerEntry.currency entry;
     LedgerEntry.balance := LedgerEntry.balance entry;
     LedgerEntry.description := LedgerEntry.description entry;
     LedgerEntry.metadata := LedgerEntry.metadata entry;
     LedgerEntry.createdAt := LedgerEntry.createdAt entry |}.

Definition recordEntries (transactionId : string) (entries : list t)
  : M (list LedgerEntry.t) :=
  let* db := get in
  match transaction db !! transactionId with
  | None => throw (transactionNotFound transactionId)
  | Some _ =>
      lift (validateBalance transactionId entries) ;;
      let* created := createBatch entries in
      ret (toLedgerEntryResponse <$> created)
  end.

Definition posting (transactionId accountCode : string) (entryType : LedgerEntryType)
    (amount : Z) (currency : Currency) (description : string) : t :=
  {| CreateLedgerEntryRequest.transactionId := transactionId;
     CreateLedgerEntryRequest.accountCode := accountCode;
     CreateLedgerEntryRequest.entryType := entryType;
     CreateLedgerEntryRequest.amount := amount;
     CreateLedgerEntryRequest.currency := currency;
     CreateLedgerEntryRequest.description := Some description;
     CreateLedgerEntryRequest.metadata := None |}.

Definition recordPayment (transactionId : string) (amount : Z) (currency : Currency)
    (_merchantId : string) : M (list LedgerEntry.t) :=
  recordEntries transactionId
    [ posting transactionId CASH DEBIT amount currency "Payment received from customer";
      posting transactionId MERCHANT_PAYABLE CREDIT amount currency "Payable to merchant" ].

Definition recordRefund (transactionId : string) (amount : Z) (currency : Currency)
    (_merchantId : string) : M (list LedgerEntry.t) :=
  recordEntries transactionId
    [ posting transactionId REFUND_PAYABLE DEBIT amount currency "Refund issued to customer";
      posting transactionId CASH CREDIT amount currency "Cash outflow for refund" ].

Definition recordFxSpread (transactionId : string) (spreadAmount : Z) (currency : Currency)
  : M (list LedgerEntry.t) :=
  recordEntries transactionId
    [ posting transactionId FX_RECEIVABLE DEBIT spreadAmount currency "FX spread receivable";
      posting transactionId FX_REVENUE CREDIT spreadAmount currency "FX spread revenue" ].

(** The request body of [POST /ledger/entries] after coercion, and what
    [createLedgerEntriesBodySchema] demands of it (ledger.schemas.ts). *)

Module CreateLedgerEntriesBody.
Record entry := {
  accountCode : string;
  entryType : LedgerEntryType;
  amount : Z;
  currency : Currency;
  description : option string;
  metadata : option Js.value
}.
Record t := {
  transactionId : string;
  entries : list entry
}.
End CreateLedgerEntriesBody.

Definition is_hex_digit (c : ascii) : bool :=
  let n := nat_of_ascii c in
  ((48 <=? n) && (n <=? 57) || (65 <=? n) && (n <=? 70) || (97 <=? n) && (n <=? 102))%nat.

(** [z.string().uuid()]: 8-4-4-4-12 hexadecimal digits. *)
Definition is_uuid (s : string) : bool :=
  let l := String.list_ascii_of_string s in
  (length l =? 36)%nat &&
  forallb (fun '(i, c) =>
             if ((i =? 8) || (i =? 13) || (i =? 18) || (i =? 23))%nat
             then bool_decide (c = "-"%char)
             else is_hex_digit c)
          (imap (fun i c => (i, c)) l).

Definition entrySchema (e : CreateLedgerEntriesBody.entry) : bool :=
  let len := String.length (CreateLedgerEntriesBody.accountCode e) in
  ((1 <=? len) && (len <=? 20))%nat &&
  (0 <? CreateLedgerEntriesBody.amount e)%Z &&
  match CreateLedgerEntriesBody.description e with
  | Some d => (String.length d <=? 500)%nat
  | None => true
  end.

Definition createLedgerEntriesBodySchema (body : CreateLedgerEntriesBody.t) : bool :=
  is_uuid (CreateLedgerEntriesBody.transactionId body) &&
  forallb entrySchema (CreateLedgerEntriesBody.entries body) &&
  (2 <=? length (CreateLedgerEntriesBody.entries body))%nat.

(** [LedgerController.createEntries]: every entry takes the transaction id
    of the body. *)
Definition createEntries (body : CreateLedgerEntriesBody.t) : M (list LedgerEntry.t) :=
  let transactionId := CreateLedgerEntriesBody.transactionId body in
  recordEntries transactionId
    ((fun e =>
        {| CreateLedgerEntryRequest.transactionId := transactionId;
           CreateLedgerEntryRequest.accountCode := CreateLedgerEntriesBody.accountCode e;
           CreateLedgerEntryRequest.entryType := CreateLedgerEntriesBody.entryType e;
           CreateLedgerEntryRequest.amount := CreateLedgerEntriesBody.amount e;
           CreateLedgerEntryRequest.currency := CreateLedgerEntriesBody.currency e;
           CreateLedgerEntryRequest.description := CreateLedgerEntriesBody.description e;
           CreateLedgerEntryRequest.metadata := CreateLedgerEntriesBody.metadata e |})
       <$> CreateLedgerEntriesBody.entries body).

(** [router.post('/entries', validateRequest({ body: schema }), createEntries)].
    What the validation middleware raises on a rejected body is the
    parameter [invalid]. *)
Definition postEntries (invalid : error) (body : CreateLedgerEntriesBody.t)
  : M (list LedgerEntry.t) :=
  if createLedgerEntriesBodySchema body then createEntries body else throw invalid.

(** Per-currency totals of an entry set, as the specification words them. *)
Definition sumOf (ty : LedgerEntryType) (c : Currency) (entries : list t) : Z :=
  foldr (fun e acc => if decide (currency e = c /\ entryType e = ty) then amount e + acc else acc)
        0 entries.

Definition balanced (entries : list t) : Prop :=
  forall c, c ∈ (currency <$> entries) -> sumOf DEBIT c entries = sumOf CREDIT c entries.

End Ledger.

Definition set_rulesCache
    (f : gmap string (list RoutingRule.t) -> gmap string (list RoutingRule.t)) (db : Db) : Db :=
  {| transaction := transaction db;
     transactionStatusHistory := transactionStatusHistory db;
     ledgerEntry := ledgerEntry db;
     paymentProvider := paymentProvider db;
     merchantProviderConfig := merchantProviderConfig db;
     routingRule := routingRule db;
     reconciliationReport := reconciliationReport db;
     rulesCache := f (rulesCache db);
     now := now db |}.

Definition set_reconciliationReport
    (f : gmap string ReconciliationReport.t -> gmap string ReconciliationReport.t)
    (db : Db) : Db :=
  {| transaction := transaction db;
     transactionStatusHistory := transactionStatusHistory db;
     ledgerEntry := ledgerEntry db;
     paymentProvider := paymentProvider db;
     merchantProviderConfig := merchantProviderConfig db;
     routingRule := routingRule db;
     reconciliationReport := f (reconciliationReport db);
     rulesCache := rulesCache db;
     now := now db |}.

(** ** Reconciliation (modules/reconciliation/reconciliation.service.ts) *)

Module Reconciliation.

Module ReconcileRequest.
Record t := {
  merchantId : string;
  providerId : string;
  fromDate : Z;
  toDate : Z;
  settlementData : list SettlementRecord.t
}.
End ReconcileRequest.

Module ReconciliationReportDetail.
Record t := {
  id : string;
  merchantId : string;
  status : ReconciliationStatus.t;
  periodStart : Z;
  periodEnd : Z;
  totalTransactions : nat;
  matchedTransactions : nat;
  unmatchedTransactions : nat;
  discrepancyCount : nat;
  discrepancies : list Discrepancy.t;
  byType : list (DiscrepancyType * nat);
  reconciliationRate : Q;
  createdAt : Z
}.
End ReconciliationReportDetail.

Definition notFound (message : string) : error := AppError message 404.

(** [prisma.transaction.findMany({ where: { merchantId, providerId,
    createdAt: { gte, lte } } })]. *)
Definition findLocalTransactions (request : ReconcileRequest.t) (db : Db)
  : list Transaction.t :=
  filter (fun t =>
            Transaction.merchantId t = ReconcileRequest.merchantId request /\
            Transaction.providerId t = Some (ReconcileRequest.providerId request) /\
            ReconcileRequest.fromDate request <= Transaction.createdAt t /\
            Transaction.createdAt t <= ReconcileRequest.toDate request)
         ((map_to_list (transaction db)).*2).

(** [new Map(rows.map((r) => [key(r), r]))]: a later row replaces an
    earlier one with the same key. *)
Definition newMap {A} (key : A -> string) (rows : list A) : gmap string A :=
  foldl (fun m r => <[key r := r]> m) ∅ rows.

(** The three variables the loops of [reconcile] update. *)
Record Loop := {
  discrepancies : list Discrepancy.t;
  matched : nat;
  discrepancyIdx : nat
}.

(** [discrepancies.push({ id: `disc_${discrepancyIdx++}`, ... })]. *)
Definition push (st : Loop) (mk : string -> Discrepancy.t) : Loop :=
  {| discrepancies := discrepancies st ++ [mk ("disc_" +:+ pretty (discrepancyIdx st))];
     matched := matched st;
     discrepancyIdx := S (discrepancyIdx st) |}.

Definition missingInDb (providerRecord : SettlementRecord.t) (id : string) : Discrepancy.t :=
  {| Discrepancy.id := id;
     Discrepancy.transactionId := SettlementRecord.transactionId providerRecord;
     Discrepancy.type := MISSING_IN_DB;
     Discrepancy.providerAmount := Some (SettlementRecord.amount providerRecord);
     Discrepancy.localAmount := None;
     Discrepancy.providerStatus := Some (SettlementRecord.status providerRecord);
     Discrepancy.localStatus := None;
     Discrepancy.resolution := None;
     Discrepancy.resolvedAt := None;
     Discrepancy.resolvedBy := None |}.

Definition amountMismatch (providerRecord : SettlementRecord.t) (localTxn : Transaction.t)
    (id : string) : Discrepancy.t :=
  {| Discrepancy.id := id;
     Discrepancy.transactionId := SettlementRecord.transactionId providerRecord;
     Discrepancy.type := AMOUNT_MISMATCH;
     Discrepancy.providerAmount := Some (SettlementRecord.amount providerRecord);
     Discrepancy.localAmount := Some (Js.Number_of_bigint (Transaction.amount localTxn));
     Discrepancy.providerStatus := None;
     Discrepancy.localStatus := None;
     Discrepancy.resolution := None;
     Discrepancy.resolvedAt := None;
     Discrepancy.resolvedBy := None |}.

Definition statusMismatch (providerRecord : SettlementRecord.t) (localTxn : Transaction.t)
    (id : string) : Discrepancy.t :=
  {| Discrepancy.id := id;
     Discrepancy.transactionId := SettlementRecord.transactionId providerRecord;
     Discrepancy.type := STATUS_MISMATCH;
     Discrepancy.providerAmount := None;
     Discrepancy.localAmount := None;
     Discrepancy.providerStatus := Some (SettlementRecord.status providerRecord);
     Discrepancy.localStatus := Some (TransactionStatus_code (Transaction.status localTxn));
     Discrepancy.resolution := None;
     Discrepancy.resolvedAt := None;
     Discrepancy.resolvedBy := None |}.

Definition missingInProvider (localTxn : Transaction.t) (id : string) : Discrepancy.t :=
  {| Discrepancy.id := id;
     Discrepancy.transactionId := Transaction.id localTxn;
     Discrepancy.type := MISSING_IN_PROVIDER;
     Discrepancy.providerAmount := None;
     Discrepancy.localAmount := Some (Js.Number_of_bigint (Transaction.amount localTxn));
     Discrepancy.providerStatus := None;
     Discrepancy.localStatus := Some (TransactionStatus_code (Transaction.status localTxn));
     Discrepancy.resolution := None;
     Discrepancy.resolvedAt := None;
     Discrepancy.resolvedBy := None |}.

Definition amountDiffers (localTxn : Transaction.t) (providerRecord : SettlementRecord.t) : bool :=
  negb (Js.number_strict_eq (Js.Number_of_bigint (Transaction.amount localTxn))
                            (SettlementRecord.amount providerRecord)).

Definition statusDiffers (localTxn : Transaction.t) (providerRecord : SettlementRecord.t) : bool :=
  negb (bool_decide (TransactionStatus_code (Transaction.status localTxn)
                     = SettlementRecord.status providerRecord)).

(** Body of the loop over [request.settlementData]. *)
Definition checkProviderRecord (localMap : gmap string Transaction.t) (st : Loop)
    (providerRecord : SettlementRecord.t) : Loop :=
  match localMap !! SettlementRecord.transactionId providerRecord with
  | None => push st (missingInDb providerRecord)
  | Some localTxn =>
      let hasDiscrepancy := false in
      let '(st, hasDiscrepancy) :=
        if amountDiffers localTxn providerRecord
        then (push st (amountMismatch providerRecord localTxn), true)
        else (st, hasDiscrepancy) in
      let '(st, hasDiscrepancy) :=
        if statusDiffers localTxn providerRecord
        then (push st (statusMismatch providerRecord localTxn), true)
        else (st, hasDiscrepancy) in
      if hasDiscrepancy then st
      else {| discrepancies := discrepancies st;
              matched := S (matched st);
              discrepancyIdx := discrepancyIdx st |}
  end.

(** Body of the loop over [localTransactions]. *)
Definition checkLocalTransaction (providerMap : gmap string SettlementRecord.t) (st : Loop)
    (localTxn : Transaction.t) : Loop :=
  match providerMap !! Transaction.id localTxn with
  | None => push st (missingInProvider localTxn)
  | Some _ => st
  end.

Definition countByType (discrepancies : list Discrepancy.t) : list (DiscrepancyType * nat) :=
  foldl (fun counts d =>
           match list_find (fun kv => kv.1 = Discrepancy.type d) counts with
           | Some (i, (ty, n)) => <[i := (ty, S n)]> counts
           | None => counts ++ [(Discrepancy.type d, 1%nat)]
           end)
        [] discrepancies.

(** [Math.round((matched / total) * 10000) / 100], or 100 for an empty run. *)
Definition reconciliationRate (matched totalTransactions : nat) : Q :=
  if (0 <? totalTransactions)%nat
  then inject_Z (Qfloor ((inject_Z (Z.of_nat matched) / inject_Z (Z.of_nat totalTransactions))
                         * 10000 + (1 # 2))) / 100
  else 100.

Definition runLoops (request : ReconcileRequest.t) (localTransactions : list Transaction.t)
  : Loop :=
  let localMap := newMap Transaction.id localTransactions in
  let providerMap := newMap SettlementRecord.transactionId
                            (ReconcileRequest.settlementData request) in
  let st := {| discrepancies := []; matched := 0; discrepancyIdx := 0 |} in
  let st := foldl (checkProviderRecord localMap) st (ReconcileRequest.settlementData request) in
  foldl (checkLocalTransaction providerMap) st localTransactions.

Definition unionSize (request : ReconcileRequest.t) (localTransactions : list Transaction.t)
  : nat :=
  size (list_to_set ((SettlementRecord.transactionId <$> ReconcileRequest.settlementData request)
                     ++ (Transaction.id <$> localTransactions)) : gset string).

Definition toDetail (report : ReconciliationReport.t) (discrepancies : list Discrepancy.t)
  : ReconciliationReportDetail.t :=
  {| ReconciliationReportDetail.id := ReconciliationReport.id report;
     ReconciliationReportDetail.merchantId := ReconciliationReport.merchantId report;
     ReconciliationReportDetail.status := ReconciliationReport.status report;
     ReconciliationReportDetail.periodStart := ReconciliationReport.periodStart report;
     ReconciliationReportDetail.periodEnd := ReconciliationReport.periodEnd report;
     ReconciliationReportDetail.totalTransactions :=
       ReconciliationReport.totalTransactions report;
     ReconciliationReportDetail.matchedTransactions :=
       ReconciliationReport.matchedTransactions report;
     ReconciliationReportDetail.unmatchedTransactions :=
       ReconciliationReport.unmatchedTransactions report;
     ReconciliationReportDetail.discrepancyCount := length discrepancies;
     ReconciliationReportDetail.discrepancies := discrepancies;
     ReconciliationReportDetail.byType := ReconciliationReport.byType report;
     ReconciliationReportDetail.reconciliationRate :=
       ReconciliationReport.reconciliationRate report;
     ReconciliationReportDetail.createdAt := ReconciliationReport.createdAt report |}.

(** The row [reconcile] hands to [prisma.reconciliationReport.create]; the
    store adds the generated [id] and [createdAt]. *)
Definition newReport (request : ReconcileRequest.t) (db : Db) : ReconciliationReport.t :=
  let localTransactions := findLocalTransactions request db in
  let st := runLoops request localTransactions in
  let totalTransactions := unionSize request localTransactions in
  {| ReconciliationReport.id := fresh (dom (reconciliationReport db));
     ReconciliationReport.merchantId := ReconcileRequest.merchantId request;
     ReconciliationReport.status :=
       if (0 <? length (discrepancies st))%nat
       then ReconciliationStatus.REQUIRES_REVIEW else ReconciliationStatus.COMPLETED;
     ReconciliationReport.periodStart := ReconcileRequest.fromDate request;
     ReconciliationReport.periodEnd := ReconcileRequest.toDate request;
     ReconciliationReport.totalTransactions := totalTransactions;
     ReconciliationReport.matchedTransactions := matched st;
     ReconciliationReport.unmatchedTransactions := length (discrepancies st);
     ReconciliationReport.discrepancies := discrepancies st;
     ReconciliationReport.byType := countByType (discrepancies st);
     ReconciliationReport.reconciliationRate :=
       reconciliationRate (matched st) totalTransactions;
     ReconciliationReport.generatedAt := now db;
     ReconciliationReport.reviewedAt := None;
     ReconciliationReport.reviewedBy := None;
     ReconciliationReport.createdAt := now db |}.

Definition reconcile (request : ReconcileRequest.t) : M ReconciliationReportDetail.t :=
  let* db := get in
  let report := newReport request db in
  modify (set_reconciliationReport (insert (ReconciliationReport.id report) report)) ;;
  ret (toDetail report (ReconciliationReport.discrepancies report)).

Definition getReport (reportId : string) : M ReconciliationReportDetail.t :=
  let* db := get in
  match reconciliationReport db !! reportId with
  | None => throw (notFound ("Reconciliation report " +:+ reportId +:+ " not found"))
  | Some report => ret (toDetail report (ReconciliationReport.discrepancies report))
  end.

Definition resolve (existing : Discrepancy.t) (resolution : DiscrepancyResolution)
    (resolvedAt : Z) (resolvedBy : option string) : Discrepancy.t :=
  {| Discrepancy.id := Discrepancy.id existing;
     Discrepancy.transactionId := Discrepancy.transactionId existing;
     Discrepancy.type := Discrepancy.type existing;
     Discrepancy.providerAmount := Discrepancy.providerAmount existing;
     Discrepancy.localAmount := Discrepancy.localAmount existing;
     Discrepancy.providerStatus := Discrepancy.providerStatus existing;
     Discrepancy.localStatus := Discrepancy.localStatus existing;
     Discrepancy.resolution := Some resolution;
     Discrepancy.resolvedAt := Some resolvedAt;
     Discrepancy.resolvedBy := resolvedBy |}.

(** [prisma.reconciliationReport.update]: a field given as [undefined] is
    left as it is. *)
Definition updateReport (report : ReconciliationReport.t) (discrepancies : list Discrepancy.t)
    (status : ReconciliationStatus.t) (reviewedAt : option Z) (reviewedBy : option string)
  : ReconciliationReport.t :=
  {| ReconciliationReport.id := ReconciliationReport.id report;
     ReconciliationReport.merchantId := ReconciliationReport.merchantId report;
     ReconciliationReport.status := status;
     ReconciliationReport.periodStart := ReconciliationReport.periodStart report;
     ReconciliationReport.periodEnd := ReconciliationReport.periodEnd report;
     ReconciliationReport.totalTransactions := ReconciliationReport.totalTransactions report;
     ReconciliationReport.matchedTransactions := ReconciliationReport.matchedTransactions report;
     ReconciliationReport.unmatchedTransactions :=
       ReconciliationReport.unmatchedTransactions report;
     ReconciliationReport.discrepancies := discrepancies;
     ReconciliationReport.byType := ReconciliationReport.byType report;
     ReconciliationReport.reconciliationRate := ReconciliationReport.reconciliationRate report;
     ReconciliationReport.generatedAt := ReconciliationReport.generatedAt report;
     ReconciliationReport.reviewedAt :=
       match reviewedAt with Some _ => reviewedAt | None => ReconciliationReport.reviewedAt report end;
     ReconciliationReport.reviewedBy :=
       match reviewedBy with Some _ => reviewedBy | None => ReconciliationReport.reviewedBy report end;
     ReconciliationReport.createdAt := ReconciliationReport.createdAt report |}.

Definition resolveDiscrepancy (reportId discrepancyId : string)
    (resolution : DiscrepancyResolution) (resolvedBy : option string)
  : M ReconciliationReportDetail.t :=
  let* db := get in
  match reconciliationReport db !! reportId with
  | None => throw (notFound ("Reconciliation report " +:+ reportId +:+ " not found"))
  | Some report =>
      let discrepancies := ReconciliationReport.discrepancies report in
      match list_find (fun d => Discrepancy.id d = discrepancyId) discrepancies with
      | None =>
          throw (notFound ("Discrepancy " +:+ discrepancyId +:+ " not found in report "
                           +:+ reportId))
      | Some (discIdx, existing) =>
          let discrepancies :=
            <[discIdx := resolve existing resolution (now db) resolvedBy]> discrepancies in
          let allResolved :=
            forallb (fun d => bool_decide (is_Some (Discrepancy.resolution d))) discrepancies in
          let newStatus :=
            if allResolved then ReconciliationStatus.COMPLETED else ReconciliationStatus.REQUIRES_REVIEW in
          let updated :=
            updateReport report discrepancies newStatus
              (if allResolved then Some (now db) else None)
              (if allResolved then resolvedBy else None) in
          modify (set_reconciliationReport (insert reportId updated)) ;;
          ret (toDetail updated discrepancies)
      end
  end.

(** What one settlement line contributes to the two counters: the
    discrepancy types it raises, and whether it is counted as matched. *)
Definition raisedFor (localMap : gmap string Transaction.t) (p : SettlementRecord.t)
  : list DiscrepancyType :=
  match localMap !! SettlementRecord.transactionId p with
  | None => [MISSING_IN_DB]
  | Some localTxn =>
      (if amountDiffers localTxn p then [AMOUNT_MISMATCH] else []) ++
      (if statusDiffers localTxn p then [STATUS_MISMATCH] else [])
  end.

Definition isMatched (localMap : gmap string Transaction.t) (p : SettlementRecord.t) : bool :=
  match localMap !! SettlementRecord.transactionId p with
  | None => false
  | Some localTxn => negb (amountDiffers localTxn p) && negb (statusDiffers localTxn p)
  end.

(** The sets of transaction ids the specification counts with: those of
    the settlement lines, those of the local transactions, and those named
    by at least one discrepancy. *)
Definition providerIds (request : ReconcileRequest.t) : gset string :=
  list_to_set (SettlementRecord.transactionId <$> ReconcileRequest.settlementData request).

Definition localIds (localTransactions : list Transaction.t) : gset string :=
  list_to_set (Transaction.id <$> localTransactions).

Definition named (discrepancies : list Discrepancy.t) : gset string :=
  list_to_set (Discrepancy.transactionId <$> discrepancies).

Definition resolved (d : Discrepancy.t) : Prop := is_Some (Discrepancy.resolution d).

End Reconciliation.

(** ** Routing (modules/routing) *)

Module Routing.

Module RoutingContext.
Record t := {
  merchantId : string;
  amount : Z;
  currency : Currency;
  paymentMethodType : PaymentMethodType;
  cardBrand : option string;
  country : option string;
  region : option string;
  customerId : option string;
  metadata : option (gmap string Js.value)
}.
End RoutingContext.

Module RoutingDecision.
Record t := {
  selectedProviderId : string;
  selectedProviderCode : string;
  fallbackProviderIds : list string;
  matchedRuleId : option string;
  score : Q;
  reason : string;
  evaluatedAt : Z
}.
End RoutingDecision.

Module RoutingProviderInfo.
Record t := {
  id : string;
  code : string;
  name : string;
  status : ProviderStatus;
  supportedCurrencies : list Currency;
  supportedMethods : list PaymentMethodType;
  priority : Z;
  successRate : option Q;
  averageLatency : option Q;
  costPerTransaction : option Q;
  isActive : bool
}.
End RoutingProviderInfo.

Module ProviderScore.
Record components := {
  successRate : Q;
  availability : Q;
  latency : Q;
  cost : Q;
  priority : Q
}.
Record t := {
  providerId : string;
  providerCode : string;
  totalScore : Q;
  components_ : components;
  eligible : bool;
  disqualificationReason : option string
}.
End ProviderScore.

Module ScoringWeights.
Record t := {
  successRate : Q;
  availability : Q;
  latency : Q;
  cost : Q;
  priority : Q
}.
End ScoringWeights.

(** The two fields of [ProviderMetrics] the evaluator reads. *)
Module ProviderMetrics.
Record t := {
  successRate : option Q;
  averageLatency : option Q
}.
End ProviderMetrics.

Definition DEFAULT_SCORING_WEIGHTS : ScoringWeights.t :=
  {| ScoringWeights.successRate := 40 # 100;
     ScoringWeights.availability := 25 # 100;
     ScoringWeights.latency := 15 # 100;
     ScoringWeights.cost := 10 # 100;
     ScoringWeights.priority := 10 # 100 |}.

Definition rbind {A B} (r : result A) (k : A -> result B) : result B :=
  match r with
  | Ok a => k a
  | Throw e => Throw e
  end.

Notation "'let?' x ':=' r 'in' k" := (rbind r (fun x => k))
  (at level 10, x pattern, r at level 100, k at level 200).

(** [Array.prototype.every] and [some] with a callback that may throw. *)
Fixpoint every {A} (f : A -> result bool) (l : list A) : result bool :=
  match l with
  | [] => Ok true
  | x :: l => let? b := f x in if b then every f l else Ok false
  end.

Fixpoint some {A} (f : A -> result bool) (l : list A) : result bool :=
  match l with
  | [] => Ok false
  | x :: l => let? b := f x in if b then Ok true else some f l
  end.

(** *** evaluators/condition.evaluator.ts *)

Section ConditionEvaluator.

Context (rt : Js.Runtime).

Import RuleCondition.

Definition optional (o : option string) : Js.value :=
  match o with
  | Some s => Js.Str s
  | None => Js.Undefined
  end.

Definition getFieldValue (field : string) (context : RoutingContext.t) : Js.value :=
  if decide (field = "currency") then Js.Str (Currency_code (RoutingContext.currency context))
  else if decide (field = "amount") then Js.BigInt (RoutingContext.amount context)
  else if decide (field = "paymentMethodType")
    then Js.Str (PaymentMethodType_code (RoutingContext.paymentMethodType context))
  else if decide (field = "cardBrand") then optional (RoutingContext.cardBrand context)
  else if decide (field = "country") then optional (RoutingContext.country context)
  else if decide (field = "region") then optional (RoutingContext.region context)
  else if decide (field = "merchantId") then Js.Str (RoutingContext.merchantId context)
  else if decide (field = "customerId") then optional (RoutingContext.customerId context)
  else
    match RoutingContext.metadata context with
    | Some metadata =>
        if Js.string_startsWith field "metadata."
        then Js.get_property metadata (String.substring 9 (String.length field - 9) field)
        else Js.Undefined
    | None => Js.Undefined
    end.

Definition is_bigint (v : Js.value) : bool :=
  match v with Js.BigInt _ => true | _ => false end.

Definition isEqual (a b : Js.value) : result bool :=
  if is_bigint a || is_bigint b then
    let? x := Js.BigInt_of rt a in
    let? y := Js.BigInt_of rt b in
    Ok (x =? y)
  else Ok (Js.strict_eq a b).

Definition toNumber (value : Js.value) : result Js.number :=
  match value with
  | Js.BigInt z => Ok (Js.Number_of_bigint z)
  | Js.Number n => Ok n
  | Js.Str s =>
      let parsed := Js.parseFloat rt s in
      if negb (Js.isNaN parsed) then Ok parsed
      else Throw (Error ("Cannot convert " +:+ Js.ToString rt value +:+ " to number"))
  | _ => Throw (Error ("Cannot convert " +:+ Js.ToString rt value +:+ " to number"))
  end.

Definition compareValues (fieldValue : Js.value) (operator : ConditionOperator)
    (conditionValue : Js.value) : result bool :=
  match operator with
  | equals => isEqual fieldValue conditionValue
  | not_equals => let? eq := isEqual fieldValue conditionValue in Ok (negb eq)
  | op_in =>
      match conditionValue with
      | Js.Array elements => Ok (Js.includes elements fieldValue)
      | _ => Ok false
      end
  | not_in =>
      match conditionValue with
      | Js.Array elements => Ok (negb (Js.includes elements fieldValue))
      | _ => Ok false
      end
  | greater_than =>
      let? x := toNumber fieldValue in
      let? y := toNumber conditionValue in
      Ok (Js.number_lt y x)
  | less_than =>
      let? x := toNumber fieldValue in
      let? y := toNumber conditionValue in
      Ok (Js.number_lt x y)
  | greater_than_or_equals =>
      let? x := toNumber fieldValue in
      let? y := toNumber conditionValue in
      Ok (Js.number_le y x)
  | less_than_or_equals =>
      let? x := toNumber fieldValue in
      let? y := toNumber conditionValue in
      Ok (Js.number_le x y)
  | between =>
      match conditionValue with
      | Js.Array [lo; hi] =>
          let? numValue := toNumber fieldValue in
          let? min := toNumber lo in
          let? max := toNumber hi in
          Ok (Js.number_le min numValue && Js.number_le numValue max)
      | _ => Ok false
      end
  | contains =>
      match fieldValue, conditionValue with
      | Js.Str f, Js.Str c => Ok (Js.string_includes (Js.toLowerCase f) (Js.toLowerCase c))
      | _, _ => Ok false
      end
  | starts_with =>
      match fieldValue, conditionValue with
      | Js.Str f, Js.Str c => Ok (Js.string_startsWith (Js.toLowerCase f) (Js.toLowerCase c))
      | _, _ => Ok false
      end
  | ends_with =>
      match fieldValue, conditionValue with
      | Js.Str f, Js.Str c => Ok (Js.string_endsWith (Js.toLowerCase f) (Js.toLowerCase c))
      | _, _ => Ok false
      end
  | other_operator _ => Ok false
  end.

(** The [try]/[catch] around [compareValues]. *)
Definition evaluateCondition (condition : RuleCondition.t) (context : RoutingContext.t)
  : result bool :=
  let fieldValue := getFieldValue (field condition) context in
  let conditionValue := value condition in
  match compareValues fieldValue (operator condition) conditionValue with
  | Ok b => Ok b
  | Throw _ => Ok false
  end.

Definition evaluateFieldCondition (fieldName : string) (condition : fieldCondition)
    (context : RoutingContext.t) : result bool :=
  match condition with
  | Legacy v =>
      let fieldValue := getFieldValue fieldName context in
      isEqual fieldValue v
  | Full c => evaluateCondition c context
  end.

Definition present (condition : fieldCondition) : bool :=
  match condition with
  | Legacy v => Js.truthy v
  | Full _ => true
  end.

(** [if (conditions.f) { if (!this.evaluateFieldCondition('f', ...)) return false; }],
    followed by the rest [k] of [evaluate]. *)
Definition checkField (fieldName : string) (condition : fieldCondition)
    (context : RoutingContext.t) (k : result bool) : result bool :=
  if present condition then
    let? ok := evaluateFieldCondition fieldName condition context in
    if ok then k else Ok false
  else k.

Definition defined (v : Js.value) : bool :=
  match v with Js.Undefined => false | _ => true end.

Definition evaluate (conditions : RoutingRuleConditions.t) (context : RoutingContext.t)
  : result bool :=
  let? allMatch :=
    match RoutingRuleConditions.all conditions with
    | Some (c :: l) => every (fun condition => evaluateCondition condition context) (c :: l)
    | _ => Ok true
    end in
  if negb allMatch then Ok false else
  let? anyMatch :=
    match RoutingRuleConditions.any conditions with
    | Some (c :: l) => some (fun condition => evaluateCondition condition context) (c :: l)
    | _ => Ok true
    end in
  if negb anyMatch then Ok false else
  checkField "currency" (RoutingRuleConditions.currency conditions) context (
  checkField "amount" (RoutingRuleConditions.amount conditions) context (
  checkField "paymentMethodType" (RoutingRuleConditions.paymentMethodType conditions) context (
  checkField "cardBrand" (RoutingRuleConditions.cardBrand conditions) context (
  checkField "country" (RoutingRuleConditions.country conditions) context (
  checkField "region" (RoutingRuleConditions.region conditions) context (
    let amountMin := RoutingRuleConditions.amountMin conditions in
    let amountMax := RoutingRuleConditions.amountMax conditions in
    if defined amountMin || defined amountMax then
      let amount := Js.Number_of_bigint (RoutingContext.amount context) in
      if defined amountMin && Js.number_lt amount (Js.Number_of rt amountMin) then Ok false
      else if defined amountMax && Js.number_lt (Js.Number_of rt amountMax) amount then Ok false
      else Ok true
    else Ok true)))))).

End ConditionEvaluator.

(** A rule read from JSON holds no bigint. *)
Definition noBigInt (condition : fieldCondition) : Prop :=
  match condition with
  | Legacy (Js.BigInt _) => False
  | _ => True
  end.

(** *** evaluators/provider-score.evaluator.ts

    Scores are doubles idealised as exact rationals. [getMetrics] is
    [providerService.getMetrics], read from the metrics cache. *)

Section ProviderScoreEvaluator.

#[local] Open Scope Q_scope.

Context (weights : ScoringWeights.t).
Context (getMetrics : string -> result (option ProviderMetrics.t)).

Definition Qlt_bool (a b : Q) : bool := negb (Qle_bool b a).

Definition Qmax (a b : Q) : Q := if Qle_bool a b then b else a.

Definition Qmin (a b : Q) : Q := if Qle_bool a b then a else b.

Definition checkEligibility (provider : RoutingProviderInfo.t) (context : RoutingContext.t)
  : bool * option string :=
  if negb (RoutingProviderInfo.isActive provider)
  then (false, Some "Provider is inactive")
  else if bool_decide (RoutingProviderInfo.status provider = INACTIVE)
          || bool_decide (RoutingProviderInfo.status provider = MAINTENANCE)
  then (false, Some ("Provider status is "
                     +:+ ProviderStatus_code (RoutingProviderInfo.status provider)))
  else if negb (bool_decide (RoutingContext.currency context
                             ∈ RoutingProviderInfo.supportedCurrencies provider))
  then (false, Some ("Currency " +:+ Currency_code (RoutingContext.currency context)
                     +:+ " not supported"))
  else if negb (bool_decide (RoutingContext.paymentMethodType context
                             ∈ RoutingProviderInfo.supportedMethods provider))
  then (false, Some ("Payment method "
                     +:+ PaymentMethodType_code (RoutingContext.paymentMethodType context)
                     +:+ " not supported"))
  else (true, None).

(** [try { ... } catch { return {} }] around [getMetrics]. *)
Definition getProviderMetrics (providerId : string) : ProviderMetrics.t :=
  match getMetrics providerId with
  | Ok (Some metrics) => metrics
  | Ok None | Throw _ =>
      {| ProviderMetrics.successRate := None; ProviderMetrics.averageLatency := None |}
  end.

Definition calculateSuccessRateScore (successRate : Q) : Q :=
  Qmin 100 (Qmax 0 (successRate * 100)).

Definition calculateAvailabilityScore (status : ProviderStatus) : Q :=
  match status with
  | ACTIVE => 100
  | DEGRADED => 50
  | _ => 0
  end.

Definition calculateLatencyScore (latencyMs : Q) : Q :=
  if Qlt_bool latencyMs 100 then 100
  else if Qlt_bool latencyMs 300 then 100 - ((latencyMs - 100) / 200) * 25
  else if Qlt_bool latencyMs 500 then 75 - ((latencyMs - 300) / 200) * 25
  else if Qlt_bool latencyMs 1000 then 50 - ((latencyMs - 500) / 500) * 50
  else 0.

Definition calculateCostScore (cost : Q) : Q :=
  if Qle_bool cost 0 then 100
  else if Qle_bool cost (1 # 100) then 100 - cost * 1000
  else if Qle_bool cost (3 # 100) then 90 - (cost - (1 # 100)) * 2000
  else if Qle_bool cost (5 # 100) then 50 - (cost - (3 # 100)) * 1000
  else Qmax 0 (30 - (cost - (5 # 100)) * 500).

Definition calculatePriorityScore (priority : Z) : Q :=
  Qmax 0 (100 - (inject_Z priority - 1) * 10).

(** [a ?? b ?? c]. *)
Definition coalesce (a b : option Q) (c : Q) : Q :=
  match a with
  | Some x => x
  | None => default c b
  end.

Definition evaluateProvider (provider : RoutingProviderInfo.t) (context : RoutingContext.t)
  : ProviderScore.t :=
  let eligibility := checkEligibility provider context in
  if negb eligibility.1 then
    {| ProviderScore.providerId := RoutingProviderInfo.id provider;
       ProviderScore.providerCode := RoutingProviderInfo.code provider;
       ProviderScore.totalScore := 0;
       ProviderScore.components_ :=
         {| ProviderScore.successRate := 0; ProviderScore.availability := 0;
            ProviderScore.latency := 0; ProviderScore.cost := 0;
            ProviderScore.priority := 0 |};
       ProviderScore.eligible := false;
       ProviderScore.disqualificationReason := eligibility.2 |}
  else
    let metrics := getProviderMetrics (RoutingProviderInfo.id provider) in
    let successRateScore :=
      calculateSuccessRateScore
        (coalesce (ProviderMetrics.successRate metrics)
                  (RoutingProviderInfo.successRate provider) (95 # 100)) in
    let availabilityScore := calculateAvailabilityScore (RoutingProviderInfo.status provider) in
    let latencyScore :=
      calculateLatencyScore
        (coalesce (ProviderMetrics.averageLatency metrics)
                  (RoutingProviderInfo.averageLatency provider) 200) in
    let costScore :=
      calculateCostScore (default 0 (RoutingProviderInfo.costPerTransaction provider)) in
    let priorityScore := calculatePriorityScore (RoutingProviderInfo.priority provider) in
    let totalScore :=
      successRateScore * ScoringWeights.successRate weights +
      availabilityScore * ScoringWeights.availability weights +
      latencyScore * ScoringWeights.latency weights +
      costScore * ScoringWeights.cost weights +
      priorityScore * ScoringWeights.priority weights in
    {| ProviderScore.providerId := RoutingProviderInfo.id provider;
       ProviderScore.providerCode := RoutingProviderInfo.code provider;
       ProviderScore.totalScore := totalScore;
       ProviderScore.components_ :=
         {| ProviderScore.successRate := successRateScore;
            ProviderScore.availability := availabilityScore;
            ProviderScore.latency := latencyScore;
            ProviderScore.cost := costScore;
            ProviderScore.priority := priorityScore |};
       ProviderScore.eligible := true;
       ProviderScore.disqualificationReason := None |}.

(** [scores.sort((a, b) => b.totalScore - a.totalScore)]: a stable sort,
    highest total first. *)
Fixpoint insertByScore (s : ProviderScore.t) (sorted : list ProviderScore.t)
  : list ProviderScore.t :=
  match sorted with
  | [] => [s]
  | t :: rest =>
      if Qle_bool (ProviderScore.totalScore s) (ProviderScore.totalScore t)
      then t :: insertByScore s rest
      else s :: t :: rest
  end.

Definition sortByScore (scores : list ProviderScore.t) : list ProviderScore.t :=
  foldl (fun sorted s => insertByScore s sorted) [] scores.

Definition evaluateProviders (providers : list RoutingProviderInfo.t)
    (context : RoutingContext.t) : list ProviderScore.t :=
  sortByScore ((fun provider => evaluateProvider provider context) <$> providers).

End ProviderScoreEvaluator.

(** *** routing.service.ts *)

Section RoutingService.

Context (rt : Js.Runtime).
Context (weights : ScoringWeights.t).
Context (getMetrics : string -> result (option ProviderMetrics.t)).

Definition RULES_CACHE_PREFIX : string := "routing:rules:".

(** [orderBy: { priority: 'asc' }], rows of equal priority in table order. *)
Fixpoint insertByPriority {A} (priority : A -> Z) (x : A) (sorted : list A) : list A :=
  match sorted with
  | [] => [x]
  | y :: rest =>
      if priority y <=? priority x then y :: insertByPriority priority x rest
      else x :: y :: rest
  end.

Definition orderByPriority {A} (priority : A -> Z) (rows : list A) : list A :=
  foldl (fun sorted x => insertByPriority priority x sorted) [] rows.

Definition getRulesForMerchant (merchantId : string) : M (list RoutingRule.t) :=
  let cacheKey := RULES_CACHE_PREFIX +:+ merchantId in
  let* db := get in
  match rulesCache db !! cacheKey with
  | Some cached => ret cached
  | None =>
      let rules :=
        orderByPriority RoutingRule.priority
          (filter (fun r => RoutingRule.merchantId r = merchantId /\
                            RoutingRule.isActive r = true)
                  (routingRule db)) in
      modify (set_rulesCache (insert cacheKey rules)) ;;
      ret rules
  end.

(** The merchant's active provider configurations, each joined with its
    provider row (a foreign key). *)
Definition availableProviders (merchantId : string) (db : Db) : list RoutingProviderInfo.t :=
  let configs :=
    orderByPriority MerchantProviderConfig.priority
      (filter (fun c => MerchantProviderConfig.merchantId c = merchantId /\
                        MerchantProviderConfig.isActive c = true)
              (merchantProviderConfig db)) in
  omap (fun config =>
          provider ← paymentProvider db !! MerchantProviderConfig.providerId config;
          Some {| RoutingProviderInfo.id := PaymentProvider.id provider;
                  RoutingProviderInfo.code := PaymentProvider.code provider;
                  RoutingProviderInfo.name := PaymentProvider.name provider;
                  RoutingProviderInfo.status := PaymentProvider.status provider;
                  RoutingProviderInfo.supportedCurrencies :=
                    PaymentProvider.supportedCurrencies provider;
                  RoutingProviderInfo.supportedMethods :=
                    PaymentProvider.supportedMethods provider;
                  RoutingProviderInfo.priority := MerchantProviderConfig.priority config;
                  RoutingProviderInfo.successRate := None;
                  RoutingProviderInfo.averageLatency := None;
                  RoutingProviderInfo.costPerTransaction := None;
                  RoutingProviderInfo.isActive := PaymentProvider.isActive provider |})
       configs.

Definition getAvailableProviders (merchantId : string) : M (list RoutingProviderInfo.t) :=
  let* db := get in
  ret (availableProviders merchantId db).

(** The loop over the rules: the first rule whose conditions evaluate to
    [true]; an exception of [evaluate] leaves the loop and the call. *)
Fixpoint firstMatch (rules : list RoutingRule.t) (context : RoutingContext.t)
  : result (option RoutingRule.t) :=
  match rules with
  | [] => Ok None
  | rule :: rules =>
      let? matches := evaluate rt (RoutingRule.conditions rule) context in
      if matches then Ok (Some rule) else firstMatch rules context
  end.

Definition scoreBased (providers : list RoutingProviderInfo.t) (context : RoutingContext.t)
  : M RoutingDecision.t :=
  let scores := evaluateProviders weights getMetrics providers context in
  let eligibleProviders := filter (fun s => ProviderScore.eligible s = true) scores in
  match eligibleProviders with
  | [] => throw (Error "No eligible providers for this transaction")
  | selected :: _ =>
      let fallbacks := take 2 (drop 1 eligibleProviders) in
      let* db := get in
      ret {| RoutingDecision.selectedProviderId := ProviderScore.providerId selected;
             RoutingDecision.selectedProviderCode := ProviderScore.providerCode selected;
             RoutingDecision.fallbackProviderIds := ProviderScore.providerId <$> fallbacks;
             RoutingDecision.matchedRuleId := None;
             RoutingDecision.score := ProviderScore.totalScore selected;
             RoutingDecision.reason := "Selected by scoring algorithm";
             RoutingDecision.evaluatedAt := now db |}
  end.

Definition selectProvider (context : RoutingContext.t) : M RoutingDecision.t :=
  let* rules := getRulesForMerchant (RoutingContext.merchantId context) in
  let* matchedRule := lift (firstMatch rules context) in
  let* providers := getAvailableProviders (RoutingContext.merchantId context) in
  if bool_decide (length providers = 0%nat)
  then throw (Error "No providers available for this merchant")
  else
    match matchedRule with
    | Some matchedRule =>
        match list_find (fun p => RoutingProviderInfo.id p = RoutingRule.providerId matchedRule)
                        providers with
        | Some (_, ruleProvider) =>
            let scores := evaluateProviders weights getMetrics providers context in
            let eligibleProviders :=
              filter (fun s => ProviderScore.eligible s = true /\
                               ProviderScore.providerId s <> RoutingRule.providerId matchedRule)
                     scores in
            let* db := get in
            ret {| RoutingDecision.selectedProviderId := RoutingProviderInfo.id ruleProvider;
                   RoutingDecision.selectedProviderCode := RoutingProviderInfo.code ruleProvider;
                   RoutingDecision.fallbackProviderIds :=
                     ProviderScore.providerId <$> take 2 eligibleProviders;
                   RoutingDecision.matchedRuleId := Some (RoutingRule.id matchedRule);
                   RoutingDecision.score := 100%Q;
                   RoutingDecision.reason :=
                     "Matched routing rule: " +:+ RoutingRule.name matchedRule;
                   RoutingDecision.evaluatedAt := now db |}
        | None => scoreBased providers context
        end
    | None => scoreBased providers context
    end.

Definition getNextFallback (context : RoutingContext.t) (failedProviderIds : list string)
  : M (option RoutingDecision.t) :=
  let* providers := getAvailableProviders (RoutingContext.merchantId context) in
  let remainingProviders :=
    filter (fun p => RoutingProviderInfo.id p ∉ failedProviderIds) providers in
  if bool_decide (length remainingProviders = 0%nat) then ret None
  else
    let scores := evaluateProviders weights getMetrics remainingProviders context in
    let eligibleProviders := filter (fun s => ProviderScore.eligible s = true) scores in
    match eligibleProviders with
    | [] => ret None
    | selected :: _ =>
        let fallbacks := take 2 (drop 1 eligibleProviders) in
        let* db := get in
        ret (Some {| RoutingDecision.selectedProviderId := ProviderScore.providerId selected;
                     RoutingDecision.selectedProviderCode := ProviderScore.providerCode selected;
                     RoutingDecision.fallbackProviderIds := ProviderScore.providerId <$> fallbacks;
                     RoutingDecision.matchedRuleId := None;
                     RoutingDecision.score := ProviderScore.totalScore selected;
                     RoutingDecision.reason :=
                       "Fallback after " +:+ pretty (length failedProviderIds) +:+ " failures";
                     RoutingDecision.evaluatedAt := now db |})
    end.

End RoutingService.

End Routing.

(** ** Payment orchestration (modules/payment/payment.service.ts)

    The provider adapters, the FX service and the routing service are the
    collaborators of [PaymentService]; every call to one of them is
    recorded, in order, in the [calls] of the [World]. An adapter or the FX
    service may answer differently from one call to the next: they are
    given the calls made so far. Logging is not modelled, and the store and
    the metrics cache do not fail. *)

Module Payment.

Module PaymentMethod.
Record t := {
  type : PaymentMethodType;
  token : option string;
  cardNumber : option string;
  expiryMonth : option Z;
  expiryYear : option Z;
  cvv : option string;
  holderName : option string
}.
End PaymentMethod.

Module CreatePaymentRequest.
Record t := {
  merchantId : string;
  customerId : option string;
  amount : Z;
  currency : Currency;
  targetCurrency : option Currency;
  paymentMethod : PaymentMethod.t;
  capture : option bool;
  description : option string;
  metadata : option (gmap string Js.value);
  idempotencyKey : option string
}.
End CreatePaymentRequest.

Module PaymentResponse.
Record t := {
  id : string;
  merchantId : string;
  customerId : option string;
  providerId : option string;
  providerTransactionId : option string;
  type : TransactionType;
  status : TransactionStatus;
  amount : Z;
  currency : Currency;
  convertedAmount : option Z;
  convertedCurrency : option Currency;
  description : option string;
  failureReason : option string;
  metadata : gmap string Js.value;
  createdAt : Z;
  updatedAt : Z
}.
End PaymentResponse.

Module CapturePaymentRequest.
Record t := { amount : option Z }.
End CapturePaymentRequest.

Module RefundPaymentRequest.
Record t := { amount : option Z; reason : option string }.
End RefundPaymentRequest.

(** Provider types (provider.types.ts), with the fields the service reads. *)

Module AuthorizeRequest.
Record t := {
  merchantId : string;
  amount : Z;
  currency : Currency;
  paymentMethod : PaymentMethod.t;
  description : option string;
  metadata : option (gmap string Js.value);
  idempotencyKey : option string;
  capture : option bool;
  customerId : option string
}.
End AuthorizeRequest.

Inductive AuthorizeStatus := authorized | captured | declined | pending.

Module AuthorizeResponse.
Record t := {
  success : bool;
  providerTransactionId : string;
  status : AuthorizeStatus;
  amount : Z;
  currency : Currency;
  declineReason : option string;
  rawResponse : option Js.value
}.
End AuthorizeResponse.

Module CaptureRequest.
Record t := {
  providerTransactionId : string;
  amount : option Z;
  currency : option Currency
}.
End CaptureRequest.

Module CaptureResponse.
Record t := {
  success : bool;
  providerTransactionId : string;
  capturedAmount : Z;
  currency : Currency;
  rawResponse : option Js.value
}.
End CaptureResponse.

Module CancelRequest.
Record t := {
  providerTransactionId : string;
  reason : option string
}.
End CancelRequest.

Module CancelResponse.
Record t := {
  success : bool;
  providerTransactionId : string;
  rawResponse : option Js.value
}.
End CancelResponse.

Module RefundRequest.
Record t := {
  providerTransactionId : string;
  amount : option Z;
  currency : option Currency;
  reason : option string
}.
End RefundRequest.

Inductive RefundStatus := refund_pending | refund_completed | refund_failed.

Module RefundResponse.
Record t := {
  success : bool;
  providerRefundId : string;
  refundedAmount : Z;
  currency : Currency;
  status : RefundStatus;
  rawResponse : option Js.value
}.
End RefundResponse.

Module FxConversion.
Record t := {
  targetAmount : Z;
  fxRateId : string
}.
End FxConversion.

Inductive Call :=
| FxConvert (amount : Z) (source target : Currency)
| SelectProvider (context : Routing.RoutingContext.t)
| GetAdapter (providerCode merchantId : string)
| Authorize (providerId providerCode : string) (request : AuthorizeRequest.t)
| Capture (providerId providerCode : string) (request : CaptureRequest.t)
| Cancel (providerId providerCode : string) (request : CancelRequest.t)
| Refund (providerId providerCode : string) (request : RefundRequest.t)
| UpdateMetrics (providerId : string) (success : bool) (latencyMs : Z).

Record World := {
  db : Db;
  calls : list Call
}.

(** The collaborators. [authorize] also says how long the provider took,
    which is the latency the service measures. A recorded adapter call
    names the provider row the adapter was obtained for. *)
Record Collaborators := {
  fxService_convert : list Call -> Z -> Currency -> Currency -> result FxConversion.t;
  routingService_selectProvider : Routing.RoutingContext.t -> M Routing.RoutingDecision.t;
  providerService_getAdapter : list Call -> string -> string -> result unit;
  adapter_authorize : list Call -> string -> AuthorizeRequest.t -> Z * result AuthorizeResponse.t;
  adapter_capture : list Call -> string -> CaptureRequest.t -> result CaptureResponse.t;
  adapter_cancel : list Call -> string -> CancelRequest.t -> result CancelResponse.t;
  adapter_refund : list Call -> string -> RefundRequest.t -> result RefundResponse.t
}.

Definition P (A : Type) : Type := StateM World A.

Definition liftDb {A} (m : M A) : P A :=
  fun w =>
    let '(r, db') := m (db w) in
    (r, {| db := db'; calls := calls w |}).

Definition record (call : Call) : P unit :=
  modify (fun w => {| db := db w; calls := calls w ++ [call] |}).

(** The clock moves while a provider is being called. *)
Definition elapse (ms : Z) : P unit :=
  liftDb (modify (set_now (fun t => t + ms))).

Definition MAX_PROVIDER_RETRIES : nat := 3.

Definition notFound (transactionId : string) : error :=
  PaymentError ("Transaction " +:+ transactionId +:+ " not found") "NOT_FOUND"
               (Some transactionId).

Definition invalidRequest (message : string) : error :=
  PaymentError message "INVALID_REQUEST" None.

Definition invalidStatus (transactionId : string) (currentStatus : TransactionStatus)
    (requiredStatus : string) : error :=
  PaymentError ("Transaction " +:+ transactionId +:+ " is "
                +:+ TransactionStatus_code currentStatus +:+ ", expected " +:+ requiredStatus)
               "INVALID_STATUS" (Some transactionId).

Definition providerError (message : string) (transactionId : string) : error :=
  PaymentError message "PROVIDER_ERROR" (Some transactionId).

Definition allProvidersFailed (transactionId : string) : error :=
  PaymentError "All payment providers failed" "ALL_PROVIDERS_FAILED" (Some transactionId).

(** What [prisma.transaction.create] fails with when the idempotency key
    is taken. *)
Definition uniqueConstraintFailed : error :=
  PrismaError "Unique constraint failed on the fields: (`idempotencyKey`)" "P2002".

(** *** The [transaction] table

    [data] of [prisma.transaction.update]: for each column the service
    writes, [None] leaves it as it is ([undefined]), [Some v] sets it
    ([Some None] to [null]). *)

Module Data.
Record t := {
  providerId : option (option string);
  providerTransactionId : option (option string);
  status : option TransactionStatus;
  failureReason : option (option string);
  providerResponse : option (option Js.value);
  capturedAt : option (option Z);
  cancelledAt : option (option Z);
  refundedAt : option (option Z)
}.

Definition nothing : t :=
  {| providerId := None; providerTransactionId := None; status := None;
     failureReason := None; providerResponse := None; capturedAt := None;
     cancelledAt := None; refundedAt := None |}.

(** An optional value given as a column: [undefined] leaves the column. *)
Definition given {A} (o : option A) : option (option A) :=
  match o with
  | Some a => Some (Some a)
  | None => None
  end.

Definition apply (data : t) (updatedAt : Z) (row : Transaction.t) : Transaction.t :=
  {| Transaction.id := Transaction.id row;
     Transaction.merchantId := Transaction.merchantId row;
     Transaction.customerId := Transaction.customerId row;
     Transaction.providerId := default (Transaction.providerId row) (providerId data);
     Transaction.paymentMethodId := Transaction.paymentMethodId row;
     Transaction.parentTransactionId := Transaction.parentTransactionId row;
     Transaction.providerTransactionId :=
       default (Transaction.providerTransactionId row) (providerTransactionId data);
     Transaction.type := Transaction.type row;
     Transaction.status := default (Transaction.status row) (status data);
     Transaction.amount := Transaction.amount row;
     Transaction.currency := Transaction.currency row;
     Transaction.convertedAmount := Transaction.convertedAmount row;
     Transaction.convertedCurrency := Transaction.convertedCurrency row;
     Transaction.fxRateId := Transaction.fxRateId row;
     Transaction.description := Transaction.description row;
     Transaction.failureReason := default (Transaction.failureReason row) (failureReason data);
     Transaction.metadata := Transaction.metadata row;
     Transaction.providerResponse :=
       default (Transaction.providerResponse row) (providerResponse data);
     Transaction.idempotencyKey := Transaction.idempotencyKey row;
     Transaction.capturedAt := default (Transaction.capturedAt row) (capturedAt data);
     Transaction.cancelledAt := default (Transaction.cancelledAt row) (cancelledAt data);
     Transaction.refundedAt := default (Transaction.refundedAt row) (refundedAt data);
     Transaction.createdAt := Transaction.createdAt row;
     Transaction.updatedAt := updatedAt |}.
End Data.

(** [prisma.transaction.findUnique({ where: { idempotencyKey } })]. *)
Definition findByIdempotencyKey (key : string) (db : Db) : option Transaction.t :=
  head (filter (fun t => Transaction.idempotencyKey t = Some key)
               ((map_to_list (transaction db)).*2)).

(** [prisma.transaction.create]: the row gets an unused id and the current
    time; the unique constraint on [idempotencyKey] is checked. *)
Definition createTransaction (row : string -> Z -> Transaction.t) : P Transaction.t :=
  let* w := get in
  let created := row (fresh (dom (transaction (db w)))) (now (db w)) in
  match Transaction.idempotencyKey created with
  | Some key =>
      match findByIdempotencyKey key (db w) with
      | Some _ =>
          throw uniqueConstraintFailed
      | None =>
          liftDb (modify (set_transaction (insert (Transaction.id created) created))) ;;
          ret created
      end
  | None =>
      liftDb (modify (set_transaction (insert (Transaction.id created) created))) ;;
      ret created
  end.

(** [prisma.transaction.update({ where: { id }, data })]. *)
Definition updateTransaction (id : string) (data : Data.t) : P Transaction.t :=
  let* w := get in
  match transaction (db w) !! id with
  | None => throw (PrismaError "Record to update not found." "P2025")
  | Some row =>
      let updated := Data.apply data (now (db w)) row in
      liftDb (modify (set_transaction (insert id updated))) ;;
      ret updated
  end.

Definition recordStatusChange (transactionId : string) (fromStatus : option TransactionStatus)
    (toStatus : TransactionStatus) (reason : option string) : P unit :=
  liftDb (modify (set_transactionStatusHistory (fun rows =>
    rows ++ [ {| TransactionStatusHistory.transactionId := transactionId;
                 TransactionStatusHistory.fromStatus := fromStatus;
                 TransactionStatusHistory.toStatus := toStatus;
                 TransactionStatusHistory.reason := reason |} ]))).

Definition updateTransactionStatus (id : string) (status : TransactionStatus)
    (failureReason : option string) : P unit :=
  let* w := get in
  let current := transaction (db w) !! id in
  updateTransaction id
    {| Data.providerId := None; Data.providerTransactionId := None;
       Data.status := Some status;
       Data.failureReason := Data.given failureReason;
       Data.providerResponse := None; Data.capturedAt := None;
       Data.cancelledAt := None; Data.refundedAt := None |} ;;
  recordStatusChange id (Transaction.status <$> current) status failureReason.

Definition toPaymentResponse (transaction : Transaction.t) : PaymentResponse.t :=
  {| PaymentResponse.id := Transaction.id transaction;
     PaymentResponse.merchantId := Transaction.merchantId transaction;
     PaymentResponse.customerId := Transaction.customerId transaction;
     PaymentResponse.providerId := Transaction.providerId transaction;
     PaymentResponse.providerTransactionId := Transaction.providerTransactionId transaction;
     PaymentResponse.type := Transaction.type transaction;
     PaymentResponse.status := Transaction.status transaction;
     PaymentResponse.amount := Transaction.amount transaction;
     PaymentResponse.currency := Transaction.currency transaction;
     PaymentResponse.convertedAmount := Transaction.convertedAmount transaction;
     PaymentResponse.convertedCurrency := Transaction.convertedCurrency transaction;
     PaymentResponse.description := Transaction.description transaction;
     PaymentResponse.failureReason := Transaction.failureReason transaction;
     PaymentResponse.metadata := Transaction.metadata transaction;
     PaymentResponse.createdAt := Transaction.createdAt transaction;
     PaymentResponse.updatedAt := Transaction.updatedAt transaction |}.

(** [!s] is false for a string that is present and not empty. *)
Definition nonEmpty (o : option string) : option string :=
  match o with
  | Some s => if bool_decide (s = "") then None else Some s
  | None => None
  end.

Section PaymentService.

Context (env : Collaborators).

Definition convert (amount : Z) (source target : Currency) : P FxConversion.t :=
  let* w := get in
  record (FxConvert amount source target) ;;
  lift (fxService_convert env (calls w) amount source target).

Definition selectProvider (context : Routing.RoutingContext.t) : P Routing.RoutingDecision.t :=
  record (SelectProvider context) ;;
  liftDb (routingService_selectProvider env context).

Definition getAdapter (providerCode merchantId : string) : P unit :=
  let* w := get in
  record (GetAdapter providerCode merchantId) ;;
  lift (providerService_getAdapter env (calls w) providerCode merchantId).

Definition authorize (providerId providerCode : string) (request : AuthorizeRequest.t)
  : P AuthorizeResponse.t :=
  let* w := get in
  record (Authorize providerId providerCode request) ;;
  let '(ms, answer) :=
    adapter_authorize env (calls w) providerCode request in
  elapse ms ;;
  lift answer.

Definition capture (providerId providerCode : string) (request : CaptureRequest.t)
  : P CaptureResponse.t :=
  let* w := get in
  record (Capture providerId providerCode request) ;;
  lift (adapter_capture env (calls w) providerCode request).

Definition cancel (providerId providerCode : string) (request : CancelRequest.t)
  : P CancelResponse.t :=
  let* w := get in
  record (Cancel providerId providerCode request) ;;
  lift (adapter_cancel env (calls w) providerCode request).

Definition refund (providerId providerCode : string) (request : RefundRequest.t)
  : P RefundResponse.t :=
  let* w := get in
  record (Refund providerId providerCode request) ;;
  lift (adapter_refund env (calls w) providerCode request).

Definition updateMetrics (providerId : string) (success : bool) (latencyMs : Z) : P unit :=
  record (UpdateMetrics providerId success latencyMs).

Definition executePaymentWithProvider (transactionId providerId : string)
    (request : CreatePaymentRequest.t) (amount : Z) (currency : Currency)
  : P PaymentResponse.t :=
  let* w := get in
  match paymentProvider (db w) !! providerId with
  | None => throw (Error ("Provider " +:+ providerId +:+ " not found"))
  | Some provider =>
      updateTransaction transactionId
        {| Data.providerId := Some (Some providerId);
           Data.providerTransactionId := None;
           Data.status := Some PROCESSING;
           Data.failureReason := None; Data.providerResponse := None;
           Data.capturedAt := None; Data.cancelledAt := None; Data.refundedAt := None |} ;;
      recordStatusChange transactionId (Some PENDING) PROCESSING None ;;
      getAdapter (PaymentProvider.code provider) (CreatePaymentRequest.merchantId request) ;;
      let* w := get in
      let startTime := now (db w) in
      let authorizeRequest :=
        {| AuthorizeRequest.merchantId := CreatePaymentRequest.merchantId request;
           AuthorizeRequest.amount := amount;
           AuthorizeRequest.currency := currency;
           AuthorizeRequest.paymentMethod := CreatePaymentRequest.paymentMethod request;
           AuthorizeRequest.description := CreatePaymentRequest.description request;
           AuthorizeRequest.metadata := CreatePaymentRequest.metadata request;
           AuthorizeRequest.idempotencyKey := CreatePaymentRequest.idempotencyKey request;
           AuthorizeRequest.capture := Some (default true (CreatePaymentRequest.capture request));
           AuthorizeRequest.customerId := CreatePaymentRequest.customerId request |} in
      try_catch
        (let* result := authorize providerId (PaymentProvider.code provider) authorizeRequest in
         let* w := get in
         let latency := now (db w) - startTime in
         let newStatus :=
           match AuthorizeResponse.status result with
           | captured => COMPLETED
           | authorized => PENDING
           | _ => FAILED
           end in
         let* updated :=
           updateTransaction transactionId
             {| Data.providerId := None;
                Data.providerTransactionId :=
                  Some (Some (AuthorizeResponse.providerTransactionId result));
                Data.status := Some newStatus;
                Data.failureReason := Data.given (AuthorizeResponse.declineReason result);
                Data.providerResponse := Data.given (AuthorizeResponse.rawResponse result);
                Data.capturedAt :=
                  Some (match AuthorizeResponse.status result with
                        | captured => Some (now (db w))
                        | _ => None
                        end);
                Data.cancelledAt := None; Data.refundedAt := None |} in
         recordStatusChange transactionId (Some PROCESSING) newStatus None ;;
         updateMetrics providerId (AuthorizeResponse.success result) latency ;;
         ret (toPaymentResponse updated))
        (fun error =>
           let* w := get in
           let latency := now (db w) - startTime in
           updateMetrics providerId false latency ;;
           throw error)
  end.

(** What the loop over the candidate providers ends with: the response of
    the attempt that returned, or the providers that failed and the last
    error. *)
Inductive Attempts :=
| Returned (response : PaymentResponse.t)
| Failed (failedProviderIds : list string) (lastError : option error).

Definition isRetryable (e : error) : bool :=
  match e with
  | ProviderError _ _ retryable => retryable
  | _ => false
  end.

(** The [for] loop of [createPayment], over
    [allProviderIds[0 .. min(length, MAX_PROVIDER_RETRIES) - 1]]. *)
Fixpoint attemptProviders (transactionId : string) (request : CreatePaymentRequest.t)
    (amount : Z) (currency : Currency) (candidates : list string)
    (failedProviderIds : list string) (lastError : option error) : P Attempts :=
  match candidates with
  | [] => ret (Failed failedProviderIds lastError)
  | providerId :: candidates =>
      try_catch
        (let* result :=
           executePaymentWithProvider transactionId providerId request amount currency in
         ret (Returned result))
        (fun error =>
           let lastError := Some error in
           let failedProviderIds := failedProviderIds ++ [providerId] in
           if negb (isRetryable error) then ret (Failed failedProviderIds lastError)
           else attemptProviders transactionId request amount currency candidates
                                 failedProviderIds lastError)
  end.

(** "Attempt payment with fallback", to the end of [createPayment]. *)
Definition attemptWithFallback (transactionId : string) (request : CreatePaymentRequest.t)
    (amount : Z) (currency : Currency) (routingDecision : Routing.RoutingDecision.t)
  : P PaymentResponse.t :=
  let allProviderIds :=
    Routing.RoutingDecision.selectedProviderId routingDecision
    :: Routing.RoutingDecision.fallbackProviderIds routingDecision in
  let* attempts :=
    attemptProviders transactionId request amount currency
      (take (min (length allProviderIds) MAX_PROVIDER_RETRIES) allProviderIds) [] None in
  match attempts with
  | Returned result => ret result
  | Failed _ lastError =>
      updateTransactionStatus transactionId FAILED
        (Some (match lastError with
               | Some e => error_message e
               | None => "All payment providers failed"
               end)) ;;
      throw (allProvidersFailed transactionId)
  end.

Definition createPayment (request : CreatePaymentRequest.t) : P PaymentResponse.t :=
  let* existing :=
    match nonEmpty (CreatePaymentRequest.idempotencyKey request) with
    | Some key => let* w := get in ret (findByIdempotencyKey key (db w))
    | None => ret None
    end in
  match existing with
  | Some existing => ret (toPaymentResponse existing)
  | None =>
      let* conversion :=
        match CreatePaymentRequest.targetCurrency request with
        | Some targetCurrency =>
            if bool_decide (targetCurrency <> CreatePaymentRequest.currency request)
            then
              let* conversion :=
                convert (CreatePaymentRequest.amount request)
                        (CreatePaymentRequest.currency request) targetCurrency in
              ret (Some (conversion, targetCurrency))
            else ret None
        | None => ret None
        end in
      let convertedAmount := (fun c => FxConversion.targetAmount c.1) <$> conversion in
      let convertedCurrency := snd <$> conversion in
      let fxRateId := (fun c => FxConversion.fxRateId c.1) <$> conversion in
      let routingContext :=
        {| Routing.RoutingContext.merchantId := CreatePaymentRequest.merchantId request;
           Routing.RoutingContext.amount :=
             default (CreatePaymentRequest.amount request) convertedAmount;
           Routing.RoutingContext.currency :=
             default (CreatePaymentRequest.currency request) convertedCurrency;
           Routing.RoutingContext.paymentMethodType :=
             PaymentMethod.type (CreatePaymentRequest.paymentMethod request);
           Routing.RoutingContext.cardBrand := None;
           Routing.RoutingContext.country := None;
           Routing.RoutingContext.region := None;
           Routing.RoutingContext.customerId := CreatePaymentRequest.customerId request;
           Routing.RoutingContext.metadata := CreatePaymentRequest.metadata request |} in
      let* routingDecision := selectProvider routingContext in
      let* transaction :=
        createTransaction (fun id now =>
          {| Transaction.id := id;
             Transaction.merchantId := CreatePaymentRequest.merchantId request;
             Transaction.customerId := CreatePaymentRequest.customerId request;
             Transaction.providerId := None;
             Transaction.paymentMethodId := None;
             Transaction.parentTransactionId := None;
             Transaction.providerTransactionId := None;
             Transaction.type := PAYMENT;
             Transaction.status := PENDING;
             Transaction.amount := CreatePaymentRequest.amount request;
             Transaction.currency := CreatePaymentRequest.currency request;
             Transaction.convertedAmount := convertedAmount;
             Transaction.convertedCurrency := convertedCurrency;
             Transaction.fxRateId := fxRateId;
             Transaction.description := CreatePaymentRequest.description request;
             Transaction.failureReason := None;
             Transaction.metadata := default ∅ (CreatePaymentRequest.metadata request);
             Transaction.providerResponse := None;
             Transaction.idempotencyKey := CreatePaymentRequest.idempotencyKey request;
             Transaction.capturedAt := None;
             Transaction.cancelledAt := None;
             Transaction.refundedAt := None;
             Transaction.createdAt := now;
             Transaction.updatedAt := now |}) in
      recordStatusChange (Transaction.id transaction) None PENDING None ;;
      attemptWithFallback (Transaction.id transaction) request
        (default (CreatePaymentRequest.amount request) convertedAmount)
        (default (CreatePaymentRequest.currency request) convertedCurrency)
        routingDecision
  end.

(** [catch (error) { if (error instanceof ProviderError) throw
    PaymentError.providerError(error.message, id); throw error; }]. *)
Definition wrapProviderError {A} (id : string) (error : error) : P A :=
  match error with
  | ProviderError message _ _ => throw (providerError message id)
  | _ => throw error
  end.

Definition capturePayment (id : string) (request : CapturePaymentRequest.t)
  : P PaymentResponse.t :=
  let* w := get in
  match transaction (db w) !! id with
  | None => throw (notFound id)
  | Some transaction =>
      if negb (bool_decide (Transaction.status transaction = PENDING))
      then throw (invalidStatus id (Transaction.status transaction) "PENDING")
      else
        match nonEmpty (Transaction.providerId transaction),
              nonEmpty (Transaction.providerTransactionId transaction) with
        | Some providerId, Some providerTransactionId =>
            match paymentProvider (db w) !! providerId with
            | None => throw (providerError "Provider not found" id)
            | Some provider =>
                getAdapter (PaymentProvider.code provider) (Transaction.merchantId transaction) ;;
                try_catch
                  (let* captureResult :=
                     capture providerId (PaymentProvider.code provider)
                       {| CaptureRequest.providerTransactionId := providerTransactionId;
                          CaptureRequest.amount := CapturePaymentRequest.amount request;
                          CaptureRequest.currency := Some (Transaction.currency transaction) |} in
                   let* w := get in
                   let* updated :=
                     updateTransaction id
                       {| Data.providerId := None; Data.providerTransactionId := None;
                          Data.status := Some COMPLETED;
                          Data.failureReason := None;
                          Data.providerResponse :=
                            Data.given (CaptureResponse.rawResponse captureResult);
                          Data.capturedAt := Some (Some (now (db w)));
                          Data.cancelledAt := None; Data.refundedAt := None |} in
                   recordStatusChange id (Some PENDING) COMPLETED None ;;
                   updateMetrics providerId true 0 ;;
                   ret (toPaymentResponse updated))
                  (wrapProviderError id)
            end
        | _, _ => throw (invalidRequest "Transaction has no provider")
        end
  end.

Definition cancelPayment (id : string) (reason : option string) : P PaymentResponse.t :=
  let* w := get in
  match transaction (db w) !! id with
  | None => throw (notFound id)
  | Some transaction =>
      if negb (bool_decide (Transaction.status transaction = PENDING))
      then throw (invalidStatus id (Transaction.status transaction) "PENDING")
      else
        let cancelled (now : Z) :=
          {| Data.providerId := None; Data.providerTransactionId := None;
             Data.status := Some CANCELLED;
             Data.failureReason := Data.given reason;
             Data.providerResponse := None; Data.capturedAt := None;
             Data.cancelledAt := Some (Some now); Data.refundedAt := None |} in
        match nonEmpty (Transaction.providerId transaction),
              nonEmpty (Transaction.providerTransactionId transaction) with
        | Some providerId, Some providerTransactionId =>
            match paymentProvider (db w) !! providerId with
            | None => throw (providerError "Provider not found" id)
            | Some provider =>
                getAdapter (PaymentProvider.code provider) (Transaction.merchantId transaction) ;;
                try_catch
                  (cancel providerId (PaymentProvider.code provider)
                     {| CancelRequest.providerTransactionId := providerTransactionId;
                        CancelRequest.reason := reason |} ;;
                   let* w := get in
                   let* updated := updateTransaction id (cancelled (now (db w))) in
                   recordStatusChange id (Some PENDING) CANCELLED reason ;;
                   ret (toPaymentResponse updated))
                  (wrapProviderError id)
            end
        | _, _ =>
            let* updated := updateTransaction id (cancelled (now (db w))) in
            recordStatusChange id (Some PENDING) CANCELLED reason ;;
            ret (toPaymentResponse updated)
        end
  end.

Definition refundPayment (id : string) (request : RefundPaymentRequest.t)
  : P PaymentResponse.t :=
  let* w := get in
  match transaction (db w) !! id with
  | None => throw (notFound id)
  | Some transaction =>
      if negb (bool_decide (Transaction.status transaction = COMPLETED))
      then throw (invalidStatus id (Transaction.status transaction) "COMPLETED")
      else
        match nonEmpty (Transaction.providerId transaction),
              nonEmpty (Transaction.providerTransactionId transaction) with
        | Some providerId, Some providerTransactionId =>
            match paymentProvider (db w) !! providerId with
            | None => throw (providerError "Provider not found" id)
            | Some provider =>
                getAdapter (PaymentProvider.code provider) (Transaction.merchantId transaction) ;;
                try_catch
                  (let* refundResult :=
                     refund providerId (PaymentProvider.code provider)
                       {| RefundRequest.providerTransactionId := providerTransactionId;
                          RefundRequest.amount := RefundPaymentRequest.amount request;
                          RefundRequest.currency := Some (Transaction.currency transaction);
                          RefundRequest.reason := RefundPaymentRequest.reason request |} in
                   let completed :=
                     match RefundResponse.status refundResult with
                     | refund_completed => true
                     | _ => false
                     end in
                   let* refundTransaction :=
                     createTransaction (fun refundId now =>
                       {| Transaction.id := refundId;
                          Transaction.merchantId := Transaction.merchantId transaction;
                          Transaction.customerId := Transaction.customerId transaction;
                          Transaction.providerId := Transaction.providerId transaction;
                          Transaction.paymentMethodId := Transaction.paymentMethodId transaction;
                          Transaction.parentTransactionId := Some (Transaction.id transaction);
                          Transaction.providerTransactionId :=
                            Some (RefundResponse.providerRefundId refundResult);
                          Transaction.type := REFUND;
                          Transaction.status := if completed then COMPLETED else PENDING;
                          Transaction.amount := RefundResponse.refundedAmount refundResult;
                          Transaction.currency := RefundResponse.currency refundResult;
                          Transaction.convertedAmount := None;
                          Transaction.convertedCurrency := None;
                          Transaction.fxRateId := None;
                          Transaction.description :=
                            Some (default "Refund" (RefundPaymentRequest.reason request));
                          Transaction.failureReason := None;
                          Transaction.metadata := ∅;
                          Transaction.providerResponse := RefundResponse.rawResponse refundResult;
                          Transaction.idempotencyKey := None;
                          Transaction.capturedAt := None;
                          Transaction.cancelledAt := None;
                          Transaction.refundedAt := if completed then Some now else None;
                          Transaction.createdAt := now;
                          Transaction.updatedAt := now |}) in
                   let refundAmount :=
                     default (Transaction.amount transaction)
                             (RefundPaymentRequest.amount request) in
                   (if Transaction.amount transaction <=? refundAmount
                    then
                      let* w := get in
                      updateTransaction id
                        {| Data.providerId := None; Data.providerTransactionId := None;
                           Data.status := Some REFUNDED;
                           Data.failureReason := None; Data.providerResponse := None;
                           Data.capturedAt := None; Data.cancelledAt := None;
                           Data.refundedAt := Some (Some (now (db w))) |} ;;
                      recordStatusChange id (Some COMPLETED) REFUNDED
                                         (RefundPaymentRequest.reason request)
                    else ret tt) ;;
                   ret (toPaymentResponse refundTransaction))
                  (wrapProviderError id)
            end
        | _, _ => throw (invalidRequest "Transaction has no provider")
        end
  end.

End PaymentService.

(** The provider ids of the adapters asked to authorize, in call order. *)
Definition authorizedProviders (calls : list Call) : list string :=
  omap (fun call => match call with
                    | Authorize providerId _ _ => Some providerId
                    | _ => None
                    end) calls.

(** The fallback policy, as the specification words it: the candidates are
    tried one after the other; the first attempt that returns ends the run
    with its response; an attempt that fails with a retryable error passes
    to the next candidate; one that fails with another error ends the run.
    [failures] are the failed attempts, in order. *)
Inductive fallback (attempt : string -> P PaymentResponse.t)
  : list string -> World -> list (string * error) -> option PaymentResponse.t -> World -> Prop :=
| fallback_exhausted w :
    fallback attempt [] w [] None w
| fallback_returned providerId candidates w response w' :
    attempt providerId w = (Ok response, w') ->
    fallback attempt (providerId :: candidates) w [] (Some response) w'
| fallback_stopped providerId candidates w e w' :
    attempt providerId w = (Throw e, w') ->
    isRetryable e = false ->
    fallback attempt (providerId :: candidates) w [(providerId, e)] None w'
| fallback_continued providerId candidates w e w' failures outcome w'' :
    attempt providerId w = (Throw e, w') ->
    isRetryable e = true ->
    fallback attempt candidates w' failures outcome w'' ->
    fallback attempt (providerId :: candidates) w ((providerId, e) :: failures) outcome w''.



(** *** Observations on a run, for the statements below *)

Definition status_of (id : string) (w : World) : option TransactionStatus :=
  Transaction.status <$> transaction (db w) !! id.

Definition failureReason_of (id : string) (w : World) : option (option string) :=
  Transaction.failureReason <$> transaction (db w) !! id.

Definition history (w : World) : list TransactionStatusHistory.t :=
  transactionStatusHistory (db w).

Definition change (id : string) (fromStatus : option TransactionStatus)
    (toStatus : TransactionStatus) (reason : option string) : TransactionStatusHistory.t :=
  {| TransactionStatusHistory.transactionId := id;
     TransactionStatusHistory.fromStatus := fromStatus;
     TransactionStatusHistory.toStatus := toStatus;
     TransactionStatusHistory.reason := reason |}.



(** The providers the loop of [createPayment] goes through. *)
Definition candidatesOf (decision : Routing.RoutingDecision.t) : list string :=
  take MAX_PROVIDER_RETRIES
       (Routing.RoutingDecision.selectedProviderId decision
        :: Routing.RoutingDecision.fallbackProviderIds decision).

(** What the loop ends with, from the failures and the response of a
    [fallback] run. *)
Definition outcome_of (failed0 : list string) (last0 : option error)
    (failures : list (string * error)) (outcome : option PaymentResponse.t) : Attempts :=
  match outcome with
  | Some response => Returned response
  | None =>
      Failed (failed0 ++ (fst <$> failures))
             (match last failures with Some f => Some f.2 | None => last0 end)
  end.

(** The candidates an attempt was made with. *)
Definition attempted (failures : list (string * error)) (outcome : option PaymentResponse.t)
    (candidates : list string) : list string :=
  take (length failures + match outcome with Some _ => 1 | None => 0 end) candidates.

(** How a run over [candidates] that made the calls [evs] ended, with [r]
    in [w']: the adapters asked to authorize are among the candidates
    attempted, in their order; the failures are those of the first
    candidates, all retryable but possibly the last; when an attempt
    returned, its response is the result and every failure before it was
    retryable; and when none did, the last failure is not retryable or
    every candidate was tried, the transaction is FAILED with the message
    of the last error, and the call fails with ALL_PROVIDERS_FAILED. *)
Definition fallback_result (tid : string) (evs : list Call) (candidates : list string)
    (failures : list (string * error)) (outcome : option PaymentResponse.t)
    (r : result PaymentResponse.t) (w' : World) : Prop :=
  sublist (authorizedProviders evs) (attempted failures outcome candidates) /\
  fst <$> failures = take (length failures) candidates /\
  (forall i f, failures !! i = Some f -> (S i < length failures)%nat -> isRetryable f.2 = true) /\
  match outcome with
  | Some response =>
      r = Ok response /\ Forall (fun f => isRetryable f.2 = true) failures
  | None =>
      exists f, last failures = Some f /\
        (isRetryable f.2 = false \/ length failures = length candidates) /\
        r = Throw (allProvidersFailed tid) /\
        status_of tid w' = Some FAILED /\
        failureReason_of tid w' = Some (Some (error_message f.2))
  end.

(** [createPayment] ended before the loop over the providers: it returned
    the transaction stored under the idempotency key, or the conversion,
    the routing or the creation of the row failed. *)
Definition endedBeforeAttempts (env : Collaborators) (request : CreatePaymentRequest.t)
    (w : World) (r : result PaymentResponse.t) (w' : World) : Prop :=
  (exists key existing,
     CreatePaymentRequest.idempotencyKey request = Some key /\
     findByIdempotencyKey key (db w) = Some existing /\
     r = Ok (toPaymentResponse existing) /\ w' = w) \/
  (exists e,
     r = Throw e /\
     ((exists target,
         fxService_convert env (calls w) (CreatePaymentRequest.amount request)
           (CreatePaymentRequest.currency request) target = Throw e) \/
      (exists context db1,
         routingService_selectProvider env context (db w) = (Throw e, db1)) \/
      e = uniqueConstraintFailed)).

(** The operations of the service that write a status. *)
Inductive Operation :=
| CreatePayment (request : CreatePaymentRequest.t)
| CapturePayment (id : string) (request : CapturePaymentRequest.t)
| CancelPayment (id : string) (reason : option string)
| RefundPayment (id : string) (request : RefundPaymentRequest.t).

Definition perform (env : Collaborators) (operation : Operation) : P PaymentResponse.t :=
  match operation with
  | CreatePayment request => createPayment env request
  | CapturePayment id request => capturePayment env id request
  | CancelPayment id reason => cancelPayment env id reason
  | RefundPayment id request => refundPayment env id request
  end.

(** The status an operation requires of the transaction it is given. *)
Definition requiredStatus (operation : Operation) : option (string * TransactionStatus) :=
  match operation with
  | CreatePayment _ => None
  | CapturePayment id _ | CancelPayment id _ => Some (id, PENDING)
  | RefundPayment id _ => Some (id, COMPLETED)
  end.

End Payment.

(** ** Ledger, the read side (modules/ledger/ledger.service.ts)

    A [Map] is iterated in the order its keys were first set, and that
    order is the order of the answers: the maps of the balance queries are
    association lists. *)

(** Orders on rows by a key, as [orderBy] gives them. *)
Definition ascending {A} (key : A -> Z) : relation A := fun a b => key a <= key b.

Module LedgerQueries.

(** [orderBy: { k: 'asc' }], rows of equal key in table order. *)
Definition orderByAsc {A} (key : A -> Z) (rows : list A) : list A :=
  Routing.orderByPriority key rows.

Definition getEntriesByTransaction (transactionId : string) : M (list LedgerEntry.t) :=
  let* db := get in
  let entries :=
    orderByAsc LedgerEntry.createdAt
      (filter (fun e => LedgerEntry.transactionId e = transactionId) (ledgerEntry db)) in
  ret (Ledger.toLedgerEntryResponse <$> entries).

Section InsertionOrder.

Context {K V : Type} `{EqDecision K}.

(** [map.has(k)]. *)
Definition mapHas (k : K) (m : list (K * V)) : bool := bool_decide (k ∈ m.*1).

(** [map.get(k)]. *)
Definition mapGet (k : K) (m : list (K * V)) : option V :=
  snd <$> (snd <$> list_find (fun kv => kv.1 = k) m).

(** [if (!map.has(k)) map.set(k, init)]. *)
Definition mapEnsure (k : K) (init : V) (m : list (K * V)) : list (K * V) :=
  if mapHas k m then m else m ++ [(k, init)].

(** An update of the value held under [k]. *)
Fixpoint mapAlter (f : V -> V) (k : K) (m : list (K * V)) : list (K * V) :=
  match m with
  | [] => []
  | (k', v) :: m => if decide (k' = k) then (k', f v) :: m else (k', v) :: mapAlter f k m
  end.

(** One step of a loop that fills a [Map]: the entry of the item's key is
    made if it is not there, then updated with the item. *)
Definition pass {A} (key : A -> K) (init : V) (f : A -> V -> V) (m : list (K * V)) (x : A)
  : list (K * V) :=
  mapAlter (f x) (key x) (mapEnsure (key x) init m).

End InsertionOrder.

Definition sumZ (l : list Z) : Z := foldr Z.add 0 l.

(** The sum of the values held under the keys that satisfy [p]. *)
Definition summed {K} (p : K -> Prop) `{!forall k, Decision (p k)} (m : list (K * Z)) : Z :=
  sumZ (snd <$> filter (fun g => p g.1) m).

(** [prisma.ledgerEntry.groupBy({ by, where, _sum: { amount: true } })]: one
    row for each combination of the [by] columns found among the rows
    selected, with the sum of their amounts. The order of the groups is
    the database's; here it is that of their first rows. *)
Definition groupBy {K} `{EqDecision K} (by_ : LedgerEntry.t -> K) (rows : list LedgerEntry.t)
  : list (K * option Z) :=
  (fun group => (group.1, Some group.2))
    <$> foldl (pass by_ 0 (fun row sum => sum + LedgerEntry.amount row)) [] rows.

Record Balance := { debitTotal : Z; creditTotal : Z }.

Definition debit (sum : Z) (bal : Balance) : Balance :=
  {| debitTotal := debitTotal bal + sum; creditTotal := creditTotal bal |}.

Definition credit (sum : Z) (bal : Balance) : Balance :=
  {| debitTotal := debitTotal bal; creditTotal := creditTotal bal + sum |}.

Module AccountBalance.
Record t := {
  accountCode : string;
  currency : Currency;
  debitTotal : Z;
  creditTotal : Z;
  balance : Z
}.
End AccountBalance.

Definition toAccountBalance (accountCode : string) (entry : Currency * Balance)
  : AccountBalance.t :=
  {| AccountBalance.accountCode := accountCode;
     AccountBalance.currency := entry.1;
     AccountBalance.debitTotal := debitTotal entry.2;
     AccountBalance.creditTotal := creditTotal entry.2;
     AccountBalance.balance := debitTotal entry.2 - creditTotal entry.2 |}.

(** The [where] of the two balance queries: a column is constrained when
    its argument is given. *)
Definition after (fromDate : option Z) (row : LedgerEntry.t) : Prop :=
  match fromDate with
  | Some d => d <= LedgerEntry.createdAt row
  | None => True
  end.

Definition before (toDate : option Z) (row : LedgerEntry.t) : Prop :=
  match toDate with
  | Some d => LedgerEntry.createdAt row <= d
  | None => True
  end.

Definition inCurrency (currency : option Currency) (row : LedgerEntry.t) : Prop :=
  match currency with
  | Some c => LedgerEntry.currency row = c
  | None => True
  end.

#[global] Instance after_dec fromDate row : Decision (after fromDate row).
Proof. destruct fromDate; simpl; apply _. Defined.

#[global] Instance before_dec toDate row : Decision (before toDate row).
Proof. destruct toDate; simpl; apply _. Defined.

#[global] Instance inCurrency_dec currency row : Decision (inCurrency currency row).
Proof. destruct currency; simpl; apply _. Defined.

(** The loop of [getAccountBalance] over the groups. *)
Definition addToBalance (balanceMap : list (Currency * Balance))
    (entry : (Currency * LedgerEntryType) * option Z) : list (Currency * Balance) :=
  let cur := entry.1.1 in
  let balanceMap := mapEnsure cur {| debitTotal := 0; creditTotal := 0 |} balanceMap in
  let sum := default 0 entry.2 in
  if decide (entry.1.2 = DEBIT) then mapAlter (debit sum) cur balanceMap
  else mapAlter (credit sum) cur balanceMap.

Definition accountEntries (accountCode : string) (currency : option Currency)
    (asOf : option Z) (db : Db) : list LedgerEntry.t :=
  filter (fun row => LedgerEntry.accountCode row = accountCode /\
                     inCurrency currency row /\ before asOf row)
         (ledgerEntry db).

Definition getAccountBalance (accountCode : string) (currency : option Currency)
    (asOf : option Z) : M (list AccountBalance.t) :=
  let* db := get in
  let entries :=
    groupBy (fun row => (LedgerEntry.currency row, LedgerEntry.entryType row))
            (accountEntries accountCode currency asOf db) in
  let balanceMap := foldl addToBalance [] entries in
  ret (toAccountBalance accountCode <$> balanceMap).

Module LedgerSummary.
Record t := {
  totalDebits : Z;
  totalCredits : Z;
  isBalanced : bool;
  accounts : list AccountBalance.t
}.
End LedgerSummary.

(** The three variables the loop of [getLedgerSummary] updates. *)
Record Summing := {
  accountMap : list (string * list (Currency * Balance));
  totalDebits : Z;
  totalCredits : Z
}.

Definition addToSummary (st : Summing)
    (entry : (string * Currency * LedgerEntryType) * option Z) : Summing :=
  let key := entry.1.1.1 in
  let cur := entry.1.1.2 in
  let accountMap := mapEnsure key [] (accountMap st) in
  let sum := default 0 entry.2 in
  let zero := {| debitTotal := 0; creditTotal := 0 |} in
  if decide (entry.1.2 = DEBIT)
  then {| accountMap :=
            mapAlter (fun currencyMap => mapAlter (debit sum) cur (mapEnsure cur zero currencyMap))
                  key accountMap;
          totalDebits := totalDebits st + sum;
          totalCredits := totalCredits st |}
  else {| accountMap :=
            mapAlter (fun currencyMap => mapAlter (credit sum) cur (mapEnsure cur zero currencyMap))
                  key accountMap;
          totalDebits := totalDebits st;
          totalCredits := totalCredits st + sum |}.

Definition summaryEntries (currency : option Currency) (fromDate toDate : option Z) (db : Db)
  : list LedgerEntry.t :=
  filter (fun row => inCurrency currency row /\ after fromDate row /\ before toDate row)
         (ledgerEntry db).

Definition getLedgerSummary (currency : option Currency) (fromDate toDate : option Z)
  : M LedgerSummary.t :=
  let* db := get in
  let entries :=
    groupBy (fun row => (LedgerEntry.accountCode row, LedgerEntry.currency row,
                         LedgerEntry.entryType row))
            (summaryEntries currency fromDate toDate db) in
  let st := foldl addToSummary
                  {| accountMap := []; totalDebits := 0; totalCredits := 0 |} entries in
  let accounts :=
    accountMap st ≫= fun account => toAccountBalance account.1 <$> account.2 in
  ret {| LedgerSummary.totalDebits := totalDebits st;
         LedgerSummary.totalCredits := totalCredits st;
         LedgerSummary.isBalanced := totalDebits st =? totalCredits st;
         LedgerSummary.accounts := accounts |}.

(** What the loops add to the totals held under a key. *)
Definition sumInto (entryType : LedgerEntryType) (sum : option Z) (bal : Balance) : Balance :=
  if decide (entryType = DEBIT) then debit (default 0 sum) bal else credit (default 0 sum) bal.

(** The sum of the amounts of the rows of one entry type, and of those of
    them in one currency. *)
Definition total (ty : LedgerEntryType) (rows : list LedgerEntry.t) : Z :=
  sumZ (LedgerEntry.amount <$> filter (fun row => LedgerEntry.entryType row = ty) rows).

Definition totalIn (ty : LedgerEntryType) (c : Currency) (rows : list LedgerEntry.t) : Z :=
  total ty (filter (fun row => LedgerEntry.currency row = c) rows).

(** [LedgerController.getEntriesByTransaction], up to the formatting of the
    entries for the response. *)
Definition controller_getEntriesByTransaction (transactionId : string)
  : M (list LedgerEntry.t) :=
  let* entries := getEntriesByTransaction transactionId in
  if bool_decide (length entries = 0%nat)
  then throw (AppError ("No ledger entries found for transaction " +:+ transactionId) 404)
  else ret entries.

Definition ofAccount (accountCode : string) (rows : list LedgerEntry.t) : list LedgerEntry.t :=
  filter (fun row => LedgerEntry.accountCode row = accountCode) rows.

End LedgerQueries.

(** ** Ledger, what a write leaves behind *)

Module LedgerWrites.

Import Ledger.

(** A created row and the entry it was made from. *)
Definition madeFrom (createdAt : Z) (entry : CreateLedgerEntryRequest.t) (row : LedgerEntry.t)
  : Prop :=
  LedgerEntry.transactionId row = CreateLedgerEntryRequest.transactionId entry /\
  LedgerEntry.accountCode row = CreateLedgerEntryRequest.accountCode entry /\
  LedgerEntry.entryType row = CreateLedgerEntryRequest.entryType entry /\
  LedgerEntry.amount row = CreateLedgerEntryRequest.amount entry /\
  LedgerEntry.currency row = CreateLedgerEntryRequest.currency entry /\
  LedgerEntry.description row = CreateLedgerEntryRequest.description entry /\
  LedgerEntry.metadata row = default (Js.Object []) (CreateLedgerEntryRequest.metadata entry) /\
  LedgerEntry.balance row = None /\
  LedgerEntry.createdAt row = createdAt.

(** The row a posting builder writes. *)
Definition posted (db : Db) (id tid accountCode : string) (entryType : LedgerEntryType)
    (amount : Z) (currency : Currency) (description : string) : LedgerEntry.t :=
  {| LedgerEntry.id := id;
     LedgerEntry.transactionId := tid;
     LedgerEntry.accountCode := accountCode;
     LedgerEntry.entryType := entryType;
     LedgerEntry.amount := amount;
     LedgerEntry.currency := currency;
     LedgerEntry.balance := None;
     LedgerEntry.description := Some description;
     LedgerEntry.metadata := Js.Object [];
     LedgerEntry.createdAt := now db |}.

(** What the entries post to one side of an account in a currency. *)
Definition postedTo (ty : LedgerEntryType) (accountCode : string) (c : Currency)
    (entries : list CreateLedgerEntryRequest.t) : Z :=
  LedgerQueries.sumZ
    (CreateLedgerEntryRequest.amount
       <$> filter (fun e => CreateLedgerEntryRequest.accountCode e = accountCode /\
                            CreateLedgerEntryRequest.currency e = c /\
                            CreateLedgerEntryRequest.entryType e = ty)
                  entries).

(** The line [getAccountBalance] answers for an account in a currency,
    all zero when the account has no entry in the currency. *)
Definition balanceIn (accountCode : string) (c : Currency) (db : Db)
  : LedgerQueries.AccountBalance.t :=
  match (LedgerQueries.getAccountBalance accountCode (Some c) None db).1 with
  | Ok (line :: _) => line
  | _ => {| LedgerQueries.AccountBalance.accountCode := accountCode;
            LedgerQueries.AccountBalance.currency := c;
            LedgerQueries.AccountBalance.debitTotal := 0;
            LedgerQueries.AccountBalance.creditTotal := 0;
            LedgerQueries.AccountBalance.balance := 0 |}
  end.

End LedgerWrites.

Definition descending {A} (key : A -> Q) : relation A := fun a b => (key b <= key a)%Q.

Definition set_routingRule (f : list RoutingRule.t -> list RoutingRule.t) (db : Db) : Db :=
  {| transaction := transaction db;
     transactionStatusHistory := transactionStatusHistory db;
     ledgerEntry := ledgerEntry db;
     paymentProvider := paymentProvider db;
     merchantProviderConfig := merchantProviderConfig db;
     routingRule := f (routingRule db);
     reconciliationReport := reconciliationReport db;
     rulesCache := rulesCache db;
     now := now db |}.

(** Rule management of routing.service.ts. *)
Module RoutingRules.

Import Routing.

Definition invalidateRulesCache (merchantId : string) : M unit :=
  modify (set_rulesCache (delete (RULES_CACHE_PREFIX +:+ merchantId))).

Definition deleteRule (id : string) : M bool :=
  let* db := get in
  match list_find (fun rule => RoutingRule.id rule = id) (routingRule db) with
  | None => ret false
  | Some (_, existing) =>
      modify (set_routingRule (filter (fun rule => RoutingRule.id rule <> id))) ;;
      invalidateRulesCache (RoutingRule.merchantId existing) ;;
      ret true
  end.

(** The rules of a merchant that [findMany] selects on a cache miss. *)
Definition activeRules (merchantId : string) (db : Db) : list RoutingRule.t :=
  filter (fun r => RoutingRule.merchantId r = merchantId /\ RoutingRule.isActive r = true)
         (routingRule db).

(** The score of each provider, before sorting. *)
Definition scoresOf (weights : ScoringWeights.t)
    (getMetrics : string -> result (option ProviderMetrics.t))
    (providers : list RoutingProviderInfo.t) (context : RoutingContext.t)
  : list ProviderScore.t :=
  (fun provider => evaluateProvider weights getMetrics provider context) <$> providers.

(** The eligible scores, best first. *)
Definition ranked (weights : ScoringWeights.t)
    (getMetrics : string -> result (option ProviderMetrics.t))
    (providers : list RoutingProviderInfo.t) (context : RoutingContext.t)
  : list ProviderScore.t :=
  filter (fun s => ProviderScore.eligible s = true)
         (evaluateProviders weights getMetrics providers context).

Definition eligibleFor (context : RoutingContext.t) (provider : RoutingProviderInfo.t) : Prop :=
  (checkEligibility provider context).1 = true.



End RoutingRules.

(** Reading a reconciliation report. *)
Module Reports.

Import Reconciliation.

(** [`disc_${i}`]. *)
Definition label (i : nat) : string := "disc_" +:+ pretty i.

(** How many of the discrepancies have the type [ty]. *)
Definition tally (ty : DiscrepancyType) (discrepancies : list Discrepancy.t) : nat :=
  length (filter (fun d => Discrepancy.type d = ty) discrepancies).

(** The discrepancies found so far carry the numbers below the counter. *)
Definition numbered (st : Loop) : Prop :=
  Discrepancy.id <$> discrepancies st = label <$> seq 0 (discrepancyIdx st).

End Reports.

(** Mock settlement files (reconciliation.service.ts, generateMockSettlement). *)
Module MockSettlement.

Import Reconciliation.

Inductive Format := json | csv.

Module MockSettlementRequest.
Record t := {
  merchantId : string;
  providerId : string;
  fromDate : Z;
  toDate : Z;
  format : option Format;
  introduceDiscrepancies : option bool
}.
End MockSettlementRequest.

Section Service.

Context (rt : Js.Runtime).
(** [Date.prototype.toISOString]. *)
Context (toISOString : Z -> string).
(** [addDiscrepancies] draws on [Math.random] and [crypto.randomUUID]. *)
Context (addDiscrepancies : list SettlementRecord.t -> list SettlementRecord.t).

Definition toRecord (t : Transaction.t) : SettlementRecord.t :=
  {| SettlementRecord.transactionId := Transaction.id t;
     SettlementRecord.amount := Js.Number_of_bigint (Transaction.amount t);
     SettlementRecord.currency := Currency_code (Transaction.currency t);
     SettlementRecord.status := TransactionStatus_code (Transaction.status t);
     SettlementRecord.providerRef := Transaction.providerTransactionId t;
     SettlementRecord.settledAt := Some (toISOString (Transaction.updatedAt t)) |}.

Definition newline : string := String "010"%char EmptyString.

Definition toCsv (records : list SettlementRecord.t) : string :=
  Js.join newline
    ("transactionId,amount,currency,status,providerRef,settledAt"
     :: ((fun r =>
            SettlementRecord.transactionId r +:+ "," +:+
            Js.Number_toString rt (SettlementRecord.amount r) +:+ "," +:+
            SettlementRecord.currency r +:+ "," +:+
            SettlementRecord.status r +:+ "," +:+
            default EmptyString (SettlementRecord.providerRef r) +:+ "," +:+
            default EmptyString (SettlementRecord.settledAt r))
           <$> records)).

Definition selected (request : MockSettlementRequest.t) (db : Db) : list Transaction.t :=
  filter (fun t =>
            Transaction.merchantId t = MockSettlementRequest.merchantId request /\
            Transaction.providerId t = Some (MockSettlementRequest.providerId request) /\
            MockSettlementRequest.fromDate request <= Transaction.createdAt t /\
            Transaction.createdAt t <= MockSettlementRequest.toDate request)
         ((map_to_list (transaction db)).*2).

Definition generateMockSettlement (request : MockSettlementRequest.t)
  : M (list SettlementRecord.t * option string) :=
  let* db := get in
  let transactions := LedgerQueries.orderByAsc Transaction.createdAt (selected request db) in
  let records := toRecord <$> transactions in
  let records :=
    if default false (MockSettlementRequest.introduceDiscrepancies request)
       && (0 <? length records)%nat
    then addDiscrepancies records else records in
  match MockSettlementRequest.format request with
  | Some csv => ret (records, Some (toCsv records))
  | _ => ret (records, None)
  end.

End Service.

(** The reconciliation request that submits [records] for the merchant,
    provider and period of a mock settlement request. *)
Definition submitted (request : MockSettlementRequest.t) (records : list SettlementRecord.t)
  : ReconcileRequest.t :=
  {| ReconcileRequest.merchantId := MockSettlementRequest.merchantId request;
     ReconcileRequest.providerId := MockSettlementRequest.providerId request;
     ReconcileRequest.fromDate := MockSettlementRequest.fromDate request;
     ReconcileRequest.toDate := MockSettlementRequest.toDate request;
     ReconcileRequest.settlementData := records |}.

(** The primary key of the transaction table: a row is stored under its
    own id. *)
Definition keyedById (db : Db) : Prop :=
  forall id t, transaction db !! id = Some t -> Transaction.id t = id.

End MockSettlement.

(** Reading a payment back (payment.service.ts, getPayment). *)
Module PaymentQueries.

Import Payment.

Definition getPayment (id : string) : P (option PaymentResponse.t) :=
  let* w := get in
  ret (toPaymentResponse <$> transaction (db w) !! id).

(** The status the original payment has after [refundPayment] went through. *)
Definition afterRefund (original : Transaction.t) (request : RefundPaymentRequest.t)
  : TransactionStatus :=
  if Transaction.amount original
       <=? default (Transaction.amount original) (RefundPaymentRequest.amount request)
  then REFUNDED else COMPLETED.

(** The row of a payment across a step: rewritten under the same key,
    with its id and its idempotency key kept. *)
Definition rewritten (tid : string) (row : Transaction.t) (w w' : World) (row' : Transaction.t)
  : Prop :=
  transaction (db w') = <[tid := row']> (transaction (db w)) /\
  Transaction.id row' = Transaction.id row /\
  Transaction.idempotencyKey row' = Transaction.idempotencyKey row.

End PaymentQueries.

(** ** Sample data, for running the services on concrete inputs *)

Module Sample.

Definition txn (id : string) (status : TransactionStatus) (amount : Z) : Transaction.t :=
  {| Transaction.id := id;
     Transaction.merchantId := "merchant-1";
     Transaction.customerId := None;
     Transaction.providerId := Some "prov-stripe";
     Transaction.paymentMethodId := None;
     Transaction.parentTransactionId := None;
     Transaction.providerTransactionId := Some ("stripe_" +:+ id);
     Transaction.type := PAYMENT;
     Transaction.status := status;
     Transaction.amount := amount;
     Transaction.currency := USD;
     Transaction.convertedAmount := None;
     Transaction.convertedCurrency := None;
     Transaction.fxRateId := None;
     Transaction.description := None;
     Transaction.failureReason := None;
     Transaction.metadata := ∅;
     Transaction.providerResponse := None;
     Transaction.idempotencyKey := None;
     Transaction.capturedAt := None;
     Transaction.cancelledAt := None;
     Transaction.refundedAt := None;
     Transaction.createdAt := 1000;
     Transaction.updatedAt := 1000 |}.

Definition stripe : PaymentProvider.t :=
  {| PaymentProvider.id := "prov-stripe";
     PaymentProvider.code := "stripe";
     PaymentProvider.name := "Stripe";
     PaymentProvider.status := ACTIVE;
     PaymentProvider.supportedCurrencies := [USD; EUR; GBP];
     PaymentProvider.supportedMethods := [CARD; DIGITAL_WALLET];
     PaymentProvider.isActive := true |}.

Definition db : Db :=
  {| transaction := {[ "txn-123" := txn "txn-123" COMPLETED 1000 ]};
     transactionStatusHistory := [];
     ledgerEntry := [];
     paymentProvider := {[ "prov-stripe" := stripe ]};
     merchantProviderConfig := [];
     routingRule := [];
     reconciliationReport := ∅;
     rulesCache := ∅;
     now := 2000 |}.

Definition debit (amount : Z) (currency : Currency) : Ledger.CreateLedgerEntryRequest.t :=
  Ledger.posting "txn-123" Ledger.CASH DEBIT amount currency "debit".

Definition credit (amount : Z) (currency : Currency) : Ledger.CreateLedgerEntryRequest.t :=
  Ledger.posting "txn-123" Ledger.MERCHANT_PAYABLE CREDIT amount currency "credit".

Definition line (id : string) (amount : Z) (status : string) : SettlementRecord.t :=
  {| SettlementRecord.transactionId := id;
     SettlementRecord.amount := Js.Finite (inject_Z amount);
     SettlementRecord.currency := "USD";
     SettlementRecord.status := status;
     SettlementRecord.providerRef := None;
     SettlementRecord.settledAt := None |}.

Definition settlement (lines : list SettlementRecord.t) : Reconciliation.ReconcileRequest.t :=
  {| Reconciliation.ReconcileRequest.merchantId := "merchant-1";
     Reconciliation.ReconcileRequest.providerId := "prov-stripe";
     Reconciliation.ReconcileRequest.fromDate := 0;
     Reconciliation.ReconcileRequest.toDate := 5000;
     Reconciliation.ReconcileRequest.settlementData := lines |}.

(** One line disagreeing with the local row on amount and status, one line
    unknown locally. *)
Definition mismatches : Reconciliation.ReconcileRequest.t :=
  settlement [line "txn-123" 900 "FAILED"; line "txn-9" 5 "COMPLETED"].


Definition reconciled : Db := snd (Reconciliation.reconcile mismatches db).

Definition adyen : PaymentProvider.t :=
  {| PaymentProvider.id := "prov-adyen";
     PaymentProvider.code := "adyen";
     PaymentProvider.name := "Adyen";
     PaymentProvider.status := ACTIVE;
     PaymentProvider.supportedCurrencies := [EUR; GBP];
     PaymentProvider.supportedMethods := [CARD];
     PaymentProvider.isActive := true |}.

Definition config (providerId : string) (priority : Z) : MerchantProviderConfig.t :=
  {| MerchantProviderConfig.merchantId := "merchant-1";
     MerchantProviderConfig.providerId := providerId;
     MerchantProviderConfig.priority := priority;
     MerchantProviderConfig.isActive := true |}.

Definition noConditions : RoutingRuleConditions.t :=
  {| RoutingRuleConditions.currency := Legacy Js.Undefined;
     RoutingRuleConditions.amount := Legacy Js.Undefined;
     RoutingRuleConditions.paymentMethodType := Legacy Js.Undefined;
     RoutingRuleConditions.cardBrand := Legacy Js.Undefined;
     RoutingRuleConditions.country := Legacy Js.Undefined;
     RoutingRuleConditions.region := Legacy Js.Undefined;
     RoutingRuleConditions.all := None;
     RoutingRuleConditions.any := None;
     RoutingRuleConditions.amountMin := Js.Undefined;
     RoutingRuleConditions.amountMax := Js.Undefined |}.

(** [{ currency: 'USD' }], the shape of the seeded rules. *)
Definition currencyIs (code : string) : RoutingRuleConditions.t :=
  {| RoutingRuleConditions.currency := Legacy (Js.Str code);
     RoutingRuleConditions.amount := Legacy Js.Undefined;
     RoutingRuleConditions.paymentMethodType := Legacy Js.Undefined;
     RoutingRuleConditions.cardBrand := Legacy Js.Undefined;
     RoutingRuleConditions.country := Legacy Js.Undefined;
     RoutingRuleConditions.region := Legacy Js.Undefined;
     RoutingRuleConditions.all := None;
     RoutingRuleConditions.any := None;
     RoutingRuleConditions.amountMin := Js.Undefined;
     RoutingRuleConditions.amountMax := Js.Undefined |}.

(** [{ amount: '1000.50' }]: a simple value where a whole number of minor
    units was meant. *)
Definition amountIs (v : Js.value) : RoutingRuleConditions.t :=
  {| RoutingRuleConditions.currency := Legacy Js.Undefined;
     RoutingRuleConditions.amount := Legacy v;
     RoutingRuleConditions.paymentMethodType := Legacy Js.Undefined;
     RoutingRuleConditions.cardBrand := Legacy Js.Undefined;
     RoutingRuleConditions.country := Legacy Js.Undefined;
     RoutingRuleConditions.region := Legacy Js.Undefined;
     RoutingRuleConditions.all := None;
     RoutingRuleConditions.any := None;
     RoutingRuleConditions.amountMin := Js.Undefined;
     RoutingRuleConditions.amountMax := Js.Undefined |}.

Definition rule (id name : string) (conditions : RoutingRuleConditions.t)
    (providerId : string) : RoutingRule.t :=
  {| RoutingRule.id := id;
     RoutingRule.merchantId := "merchant-1";
     RoutingRule.name := name;
     RoutingRule.conditions := conditions;
     RoutingRule.providerId := providerId;
     RoutingRule.priority := 1;
     RoutingRule.isActive := true |}.

(** The merchant is configured for Stripe and Adyen; Adyen does not
    support USD. *)
Definition routed (rules : list RoutingRule.t) : Db :=
  {| transaction := ∅;
     transactionStatusHistory := [];
     ledgerEntry := [];
     paymentProvider := {[ "prov-stripe" := stripe; "prov-adyen" := adyen ]};
     merchantProviderConfig := [config "prov-stripe" 1; config "prov-adyen" 2];
     routingRule := rules;
     reconciliationReport := ∅;
     rulesCache := ∅;
     now := 2000 |}.

Definition usdCard : Routing.RoutingContext.t :=
  {| Routing.RoutingContext.merchantId := "merchant-1";
     Routing.RoutingContext.amount := 5000;
     Routing.RoutingContext.currency := USD;
     Routing.RoutingContext.paymentMethodType := CARD;
     Routing.RoutingContext.cardBrand := None;
     Routing.RoutingContext.country := None;
     Routing.RoutingContext.region := None;
     Routing.RoutingContext.customerId := None;
     Routing.RoutingContext.metadata := None |}.

Definition noMetrics (providerId : string) : result (option Routing.ProviderMetrics.t) :=
  Ok None.

Definition adyenInfo : Routing.RoutingProviderInfo.t :=
  {| Routing.RoutingProviderInfo.id := "prov-adyen";
     Routing.RoutingProviderInfo.code := "adyen";
     Routing.RoutingProviderInfo.name := "Adyen";
     Routing.RoutingProviderInfo.status := ACTIVE;
     Routing.RoutingProviderInfo.supportedCurrencies := [EUR; GBP];
     Routing.RoutingProviderInfo.supportedMethods := [CARD];
     Routing.RoutingProviderInfo.priority := 2;
     Routing.RoutingProviderInfo.successRate := None;
     Routing.RoutingProviderInfo.averageLatency := None;
     Routing.RoutingProviderInfo.costPerTransaction := None;
     Routing.RoutingProviderInfo.isActive := true |}.

(** Routing that always answers Stripe first, then three fallbacks. *)
Definition decision : Routing.RoutingDecision.t :=
  {| Routing.RoutingDecision.selectedProviderId := "prov-stripe";
     Routing.RoutingDecision.selectedProviderCode := "stripe";
     Routing.RoutingDecision.fallbackProviderIds :=
       ["prov-adyen"; "prov-paypal"; "prov-square"];
     Routing.RoutingDecision.matchedRuleId := None;
     Routing.RoutingDecision.score := 0%Q;
     Routing.RoutingDecision.reason := "Best score";
     Routing.RoutingDecision.evaluatedAt := 2000 |}.

Definition timeout : error := ProviderError "Gateway timeout" "TIMEOUT" true.

Definition declined : error := ProviderError "Card declined" "CARD_DECLINED" false.

(** Stripe times out on authorizing, every other provider declines the
    card; captures go through. *)
Definition env : Payment.Collaborators :=
  {| Payment.fxService_convert := fun _ amount _ _ =>
       Ok {| Payment.FxConversion.targetAmount := amount;
             Payment.FxConversion.fxRateId := "rate-1" |};
     Payment.routingService_selectProvider := fun _ db => (Ok decision, db);
     Payment.providerService_getAdapter := fun _ _ _ => Ok tt;
     Payment.adapter_authorize := fun _ providerCode _ =>
       if bool_decide (providerCode = "stripe") then (120, Throw timeout)
       else (80, Throw declined);
     Payment.adapter_capture := fun _ _ request =>
       Ok {| Payment.CaptureResponse.success := true;
             Payment.CaptureResponse.providerTransactionId :=
               Payment.CaptureRequest.providerTransactionId request;
             Payment.CaptureResponse.capturedAmount :=
               default 1000 (Payment.CaptureRequest.amount request);
             Payment.CaptureResponse.currency := USD;
             Payment.CaptureResponse.rawResponse := None |};
     Payment.adapter_cancel := fun _ _ _ => Throw declined;
     Payment.adapter_refund := fun _ _ _ => Throw declined |}.

Definition card : Payment.PaymentMethod.t :=
  {| Payment.PaymentMethod.type := CARD;
     Payment.PaymentMethod.token := Some "tok_visa";
     Payment.PaymentMethod.cardNumber := None;
     Payment.PaymentMethod.expiryMonth := None;
     Payment.PaymentMethod.expiryYear := None;
     Payment.PaymentMethod.cvv := None;
     Payment.PaymentMethod.holderName := None |}.

Definition payment (idempotencyKey : option string) : Payment.CreatePaymentRequest.t :=
  {| Payment.CreatePaymentRequest.merchantId := "merchant-1";
     Payment.CreatePaymentRequest.customerId := None;
     Payment.CreatePaymentRequest.amount := 5000;
     Payment.CreatePaymentRequest.currency := USD;
     Payment.CreatePaymentRequest.targetCurrency := None;
     Payment.CreatePaymentRequest.paymentMethod := card;
     Payment.CreatePaymentRequest.capture := None;
     Payment.CreatePaymentRequest.description := None;
     Payment.CreatePaymentRequest.metadata := None;
     Payment.CreatePaymentRequest.idempotencyKey := idempotencyKey |}.

Definition world (db : Db) : Payment.World :=
  {| Payment.db := db; Payment.calls := [] |}.

(** A pending payment stored under an idempotency key. *)
Definition keyed (key : string) : Transaction.t :=
  {| Transaction.id := "txn-456";
     Transaction.merchantId := "merchant-1";
     Transaction.customerId := None;
     Transaction.providerId := Some "prov-stripe";
     Transaction.paymentMethodId := None;
     Transaction.parentTransactionId := None;
     Transaction.providerTransactionId := Some "stripe_txn-456";
     Transaction.type := PAYMENT;
     Transaction.status := PENDING;
     Transaction.amount := 5000;
     Transaction.currency := USD;
     Transaction.convertedAmount := None;
     Transaction.convertedCurrency := None;
     Transaction.fxRateId := None;
     Transaction.description := None;
     Transaction.failureReason := None;
     Transaction.metadata := ∅;
     Transaction.providerResponse := None;
     Transaction.idempotencyKey := Some key;
     Transaction.capturedAt := None;
     Transaction.cancelledAt := None;
     Transaction.refundedAt := None;
     Transaction.createdAt := 1000;
     Transaction.updatedAt := 1000 |}.

Definition stored (row : Transaction.t) : Db :=
  {| transaction := {[ Transaction.id row := row ]};
     transactionStatusHistory := [];
     ledgerEntry := [];
     paymentProvider := {[ "prov-stripe" := stripe; "prov-adyen" := adyen ]};
     merchantProviderConfig := [];
     routingRule := [];
     reconciliationReport := ∅;
     rulesCache := ∅;
     now := 2000 |}.

Definition captureAll : Payment.CapturePaymentRequest.t :=
  {| Payment.CapturePaymentRequest.amount := None |}.

(** Samples for the queries, the rule management and the settlement files. *)

Definition order : string := "123e4567-e89b-12d3-a456-426614174000".

Definition row (id : string) (entryType : LedgerEntryType) (amount : Z) (createdAt : Z)
  : LedgerEntry.t :=
  {| LedgerEntry.id := id;
     LedgerEntry.transactionId := order;
     LedgerEntry.accountCode := Ledger.CASH;
     LedgerEntry.entryType := entryType;
     LedgerEntry.amount := amount;
     LedgerEntry.currency := USD;
     LedgerEntry.balance := None;
     LedgerEntry.description := None;
     LedgerEntry.metadata := Js.Object [];
     LedgerEntry.createdAt := createdAt |}.

(** A store with one transaction under a UUID and an unbalanced ledger. *)
Definition books : Db :=
  set_ledgerEntry (fun _ => [row "entry-1" DEBIT 700 1500; row "entry-2" CREDIT 200 1200])
    {| transaction := {[ order := txn order COMPLETED 1000 ]};
       transactionStatusHistory := [];
       ledgerEntry := [];
       paymentProvider := {[ "prov-stripe" := stripe ]};
       merchantProviderConfig := [];
       routingRule := [];
       reconciliationReport := ∅;
       rulesCache := ∅;
       now := 2000 |}.

Definition bodyEntry (accountCode : string) (entryType : LedgerEntryType) (amount : Z)
  : Ledger.CreateLedgerEntriesBody.entry :=
  {| Ledger.CreateLedgerEntriesBody.accountCode := accountCode;
     Ledger.CreateLedgerEntriesBody.entryType := entryType;
     Ledger.CreateLedgerEntriesBody.amount := amount;
     Ledger.CreateLedgerEntriesBody.currency := EUR;
     Ledger.CreateLedgerEntriesBody.description := None;
     Ledger.CreateLedgerEntriesBody.metadata := None |}.

Definition body : Ledger.CreateLedgerEntriesBody.t :=
  {| Ledger.CreateLedgerEntriesBody.transactionId := order;
     Ledger.CreateLedgerEntriesBody.entries :=
       [bodyEntry Ledger.CASH DEBIT 300; bodyEntry Ledger.MERCHANT_PAYABLE CREDIT 300] |}.

(** A runtime for running the samples, none of which reaches a
    conversion between numbers and text. *)
Definition runtime : Js.Runtime :=
  {| Js.parseFloat := fun _ => Js.NaN;
     Js.StringToNumber := fun _ => Js.NaN;
     Js.Number_toString := fun _ => "NaN" |}.

Definition eurCard : Routing.RoutingContext.t :=
  {| Routing.RoutingContext.merchantId := "merchant-1";
     Routing.RoutingContext.amount := 5000;
     Routing.RoutingContext.currency := EUR;
     Routing.RoutingContext.paymentMethodType := CARD;
     Routing.RoutingContext.cardBrand := None;
     Routing.RoutingContext.country := None;
     Routing.RoutingContext.region := None;
     Routing.RoutingContext.customerId := None;
     Routing.RoutingContext.metadata := None |}.


(** A month of Stripe transactions of the merchant, as JSON. *)
Definition mock : MockSettlement.MockSettlementRequest.t :=
  {| MockSettlement.MockSettlementRequest.merchantId := "merchant-1";
     MockSettlement.MockSettlementRequest.providerId := "prov-stripe";
     MockSettlement.MockSettlementRequest.fromDate := 0;
     MockSettlement.MockSettlementRequest.toDate := 5000;
     MockSettlement.MockSettlementRequest.format := None;
     MockSettlement.MockSettlementRequest.introduceDiscrepancies := None |}.

(** Stand-ins for the date format and for the random changes, which the
    request above does not ask for. *)
Definition timestamp (t : Z) : string := pretty t.

Definition unchanged (records : list SettlementRecord.t) : list SettlementRecord.t :=
  records.

(** The collaborators of [env], with a provider that refunds in full. *)
Definition refunding : Payment.Collaborators :=
  {| Payment.fxService_convert := Payment.fxService_convert env;
     Payment.routingService_selectProvider := Payment.routingService_selectProvider env;
     Payment.providerService_getAdapter := Payment.providerService_getAdapter env;
     Payment.adapter_authorize := Payment.adapter_authorize env;
     Payment.adapter_capture := Payment.adapter_capture env;
     Payment.adapter_cancel := Payment.adapter_cancel env;
     Payment.adapter_refund := fun _ _ request =>
       Ok {| Payment.RefundResponse.success := true;
             Payment.RefundResponse.providerRefundId := "re_1";
             Payment.RefundResponse.refundedAmount :=
               default 1000 (Payment.RefundRequest.amount request);
             Payment.RefundResponse.currency := USD;
             Payment.RefundResponse.status := Payment.refund_pending;
             Payment.RefundResponse.rawResponse := None |} |}.

Definition refundOf (amount : option Z) : Payment.RefundPaymentRequest.t :=
  {| Payment.RefundPaymentRequest.amount := amount;
     Payment.RefundPaymentRequest.reason := None |}.

End Sample.

(** * Properties *)

Section LedgerProperties.

Import Ledger Ledger.CreateLedgerEntryRequest.

Lemma addEntry_lookup m e c :
  addEntry m e !! c =
  if decide (c = currency e)
  then
    let totals := default {| debits := 0; credits := 0 |} (m !! c) in
    Some (if decide (entryType e = DEBIT)
          then {| debits := debits totals + amount e; credits := credits totals |}
          else {| debits := debits totals; credits := credits totals + amount e |})
  else m !! c.
Proof.
  unfold addEntry.
  destruct (decide (c = currency e)) as [->|Hne].
  - destruct (m !! currency e) as [t0|] eqn:Hm.
    + rewrite Hm. simpl. destruct (decide (entryType e = DEBIT)); by rewrite lookup_insert_eq.
    + rewrite lookup_insert_eq. simpl.
      destruct (decide (entryType e = DEBIT)); by rewrite lookup_insert_eq.
  - destruct (m !! currency e) as [t0|] eqn:Hm.
    + rewrite Hm. destruct (decide (entryType e = DEBIT)); by rewrite lookup_insert_ne.
    + rewrite lookup_insert_eq.
      destruct (decide (entryType e = DEBIT)); by rewrite !lookup_insert_ne.
Qed.

Lemma sumOf_app ty c l1 l2 : sumOf ty c (l1 ++ l2) = sumOf ty c l1 + sumOf ty c l2.
Proof.
  induction l1 as [|e l1 IH]; simpl; [lia|].
  fold (sumOf ty c (l1 ++ l2)). fold (sumOf ty c l1).
  case_decide; lia.
Qed.

Lemma sumOf_absent ty c l : c ∉ (currency <$> l) -> sumOf ty c l = 0.
Proof.
  induction l as [|e l IH]; simpl; [done|].
  rewrite not_elem_of_cons. intros [Hne Hl]. fold (sumOf ty c l).
  case_decide as H; [destruct H; congruence | auto].
Qed.

Lemma sumOf_singleton ty c e :
  sumOf ty c [e] = if decide (currency e = c /\ entryType e = ty) then amount e else 0.
Proof. simpl. case_decide; lia. Qed.

Lemma currencyTotals_lookup l c :
  foldl addEntry ∅ l !! c =
  if decide (c ∈ currency <$> l)
  then Some {| debits := sumOf DEBIT c l; credits := sumOf CREDIT c l |}
  else None.
Proof.
  induction l as [|e l IH] using rev_ind.
  - simpl. by rewrite lookup_empty.
  - rewrite foldl_app. simpl. rewrite addEntry_lookup, IH, fmap_app, !sumOf_app, !sumOf_singleton.
    simpl.
    destruct (decide (c = currency e)) as [->|Hne].
    + rewrite (decide_True (P := _ ∈ _ ++ _)) by (rewrite elem_of_app; right; by apply list_elem_of_singleton).
      f_equal.
      destruct (decide (currency e ∈ currency <$> l)) as [Hin|Hnin]; simpl.
      * destruct (entryType e) eqn:Hty; simpl; repeat case_decide; try (exfalso; intuition congruence); f_equal; lia.
      * rewrite !(sumOf_absent _ _ l) by done.
        destruct (entryType e) eqn:Hty; simpl; repeat case_decide; try (exfalso; intuition congruence); f_equal; lia.
    + destruct (decide (c ∈ currency <$> l)) as [Hin|Hnin].
      * rewrite (decide_True (P := _ ∈ _ ++ _)) by (rewrite elem_of_app; by left).
        f_equal. repeat case_decide; try (exfalso; intuition congruence). f_equal; lia.
      * rewrite (decide_False (P := _ ∈ _ ++ _)); [done|].
        rewrite elem_of_app, list_elem_of_singleton. intros [?|?]; done.
Qed.

Lemma validateBalance_ok tid l :
  validateBalance tid l = Ok tt <-> balanced l.
Proof.
  unfold validateBalance, balanced.
  destruct (forallb _ _) eqn:Hall.
  - split; [intros _|done]. intros c Hc.
    rewrite forallb_forall in Hall.
    specialize (Hall (c, {| debits := sumOf DEBIT c l; credits := sumOf CREDIT c l |})).
    simpl in Hall. apply Z.eqb_eq, Hall.
    apply list_elem_of_In, elem_of_map_to_list.
    rewrite currencyTotals_lookup. by rewrite decide_True.
  - split; [done|]. intros Hbal. exfalso.
    apply not_true_iff_false in Hall. apply Hall.
    apply forallb_forall. intros [c t0] Hin.
    apply list_elem_of_In, elem_of_map_to_list in Hin.
    rewrite currencyTotals_lookup in Hin. case_decide as Hc; [|done].
    injection Hin as <-. simpl. apply Z.eqb_eq. by apply Hbal.
Qed.

Lemma validateBalance_cases tid l :
  validateBalance tid l = Ok tt \/ validateBalance tid l = Throw (unbalancedEntry tid).
Proof. unfold validateBalance. destruct (forallb _ _); auto. Qed.

Lemma recordEntries_known tid entries db :
  is_Some (transaction db !! tid) ->
  recordEntries tid entries db =
  match validateBalance tid entries with
  | Ok _ =>
      let created := createAll entries (ledgerEntry db) (now db) in
      (Ok (toLedgerEntryResponse <$> created),
       set_ledgerEntry (fun rows => rows ++ created) db)
  | Throw e => (Throw e, db)
  end.
Proof.
  intros [txn Htxn]. unfold recordEntries, bind, get, lift, createBatch. simpl.
  rewrite Htxn. by destruct (validateBalance tid entries).
Qed.

(** C1. For a known transaction id, [recordEntries] throws
    [UnbalancedEntry] exactly when some currency present in the submitted
    entries has a debit total different from its credit total; whenever it
    throws, the store (and so the ledger) is left as it was; and every
    entry set it accepts is balanced per currency. *)
Theorem recordEntries_unbalanced_iff tid entries db :
  is_Some (transaction db !! tid) ->
  (fst (recordEntries tid entries db) = Throw (unbalancedEntry tid) <->
     exists c, c ∈ (currency <$> entries) /\
               sumOf DEBIT c entries <> sumOf CREDIT c entries)
  /\ (forall e, fst (recordEntries tid entries db) = Throw e ->
                snd (recordEntries tid entries db) = db)
  /\ (forall created, fst (recordEntries tid entries db) = Ok created ->
                      balanced entries).
Proof.
  intros Hknown. rewrite (recordEntries_known _ _ _ Hknown).
  pose proof (validateBalance_ok tid entries) as Hok.
  destruct (validateBalance_cases tid entries) as [Hv|Hv]; rewrite Hv in *; simpl.
  - split; [|split].
    + split; [done|]. intros (c & Hc & Hne). destruct Hok as [Hok _].
      exfalso. apply Hne. by apply Hok.
    + done.
    + intros _ _. by apply Hok.
  - split; [|split].
    + split; [intros _|done].
      destruct (decide (Forall (fun c => sumOf DEBIT c entries = sumOf CREDIT c entries)
                               (currency <$> entries))) as [Hall|Hex].
      * rewrite Forall_forall in Hall. by apply Hok in Hall.
      * apply not_Forall_Exists in Hex; [|apply _].
        apply Exists_exists in Hex as (c & Hc & Hne). eauto.
    + done.
    + done.
Qed.

Lemma recordEntries_unbalanced_iff_witness :
  is_Some (transaction Sample.db !! "txn-123") /\
  fst (recordEntries "txn-123" [Sample.debit 1000 USD; Sample.credit 500 USD] Sample.db)
    = Throw (unbalancedEntry "txn-123").
Proof.
  assert (is_Some (transaction Sample.db !! "txn-123")) as Hknown by (by eexists).
  split; [exact Hknown|].
  apply (recordEntries_unbalanced_iff "txn-123"
           [Sample.debit 1000 USD; Sample.credit 500 USD] Sample.db Hknown).
  exists USD. split; [vm_compute; left | vm_compute; discriminate].
Defined.

Lemma createLedgerEntriesBodySchema_min body :
  createLedgerEntriesBodySchema body = true ->
  (2 <= length (CreateLedgerEntriesBody.entries body))%nat.
Proof.
  unfold createLedgerEntriesBodySchema. rewrite !andb_true_iff.
  intros [_ Hlen]. by apply Nat.leb_le.
Qed.

(** C9, as the specification states it, fails: [recordEntries] itself
    accepts the empty entry list for a known transaction (nothing is
    unbalanced), and accepts a single entry of amount zero. *)
Lemma recordEntries_accepts_fewer_than_two :
  (length ([] : list t) < 2)%nat /\
  fst (recordEntries "txn-123" [] Sample.db) = Ok [] /\
  (length [Sample.debit 0 USD] < 2)%nat /\
  is_ok (fst (recordEntries "txn-123" [Sample.debit 0 USD] Sample.db)) = true.
Proof. repeat split; simpl; try lia; by vm_compute. Qed.

(** C9, amended. The two-entry minimum is the request schema's: a body
    with fewer than two entries sent to [POST /ledger/entries] is rejected
    before [recordEntries] runs and nothing is written. [recordEntries]
    itself rejects a lone entry, as unbalanced, whenever its amount is not
    zero. *)
Theorem fewer_than_two_entries_rejected invalid body tid entry db :
  (length (CreateLedgerEntriesBody.entries body) < 2)%nat ->
  is_Some (transaction db !! tid) ->
  amount entry <> 0 ->
  postEntries invalid body db = (Throw invalid, db) /\
  recordEntries tid [entry] db = (Throw (unbalancedEntry tid), db).
Proof.
  intros Hlen Hknown Hamount. split.
  - unfold postEntries.
    destruct (createLedgerEntriesBodySchema body) eqn:Hschema; [|done].
    apply createLedgerEntriesBodySchema_min in Hschema. lia.
  - rewrite (recordEntries_known _ _ _ Hknown).
    destruct (validateBalance_cases tid [entry]) as [Hv|Hv]; rewrite Hv; [|done].
    apply validateBalance_ok in Hv. exfalso.
    specialize (Hv (currency entry)). rewrite !sumOf_singleton in Hv.
    assert (currency entry ∈ currency <$> [entry]) as Hin by (simpl; left).
    specialize (Hv Hin).
    destruct (entryType entry) eqn:Hty; repeat case_decide;
      try (exfalso; intuition congruence); lia.
Qed.

Lemma fewer_than_two_entries_rejected_witness :
  postEntries (AppError "Validation failed" 400)
    {| CreateLedgerEntriesBody.transactionId := "txn-123";
       CreateLedgerEntriesBody.entries := [] |} Sample.db
    = (Throw (AppError "Validation failed" 400), Sample.db) /\
  recordEntries "txn-123" [Sample.debit 1000 USD] Sample.db
    = (Throw (unbalancedEntry "txn-123"), Sample.db).
Proof.
  apply (fewer_than_two_entries_rejected (AppError "Validation failed" 400)
           {| CreateLedgerEntriesBody.transactionId := "txn-123";
              CreateLedgerEntriesBody.entries := [] |}
           "txn-123" (Sample.debit 1000 USD) Sample.db).
  - simpl. lia.
  - by eexists.
  - simpl. lia.
Defined.

End LedgerProperties.

Section ReconciliationProperties.

Import Reconciliation.

#[local] Set Warnings "-clear-no-such-hyp".

Lemma newMap_snoc {A} (key : A -> string) l r :
  newMap key (l ++ [r]) = <[key r := r]> (newMap key l).
Proof. unfold newMap. by rewrite foldl_app. Qed.

Lemma newMap_lookup_None {A} (key : A -> string) l k :
  newMap key l !! k = None <-> k ∉ key <$> l.
Proof.
  induction l as [|r l IH] using rev_ind.
  - split; [intros _; apply not_elem_of_nil | done].
  - rewrite newMap_snoc, fmap_app, not_elem_of_app. simpl.
    rewrite lookup_insert_None, IH, not_elem_of_cons. split.
    + intros [? ?]. split; [done|]. split; [done | apply not_elem_of_nil].
    + intros [? [? _]]. done.
Qed.

Lemma newMap_lookup_Some {A} (key : A -> string) l k r :
  newMap key l !! k = Some r -> r ∈ l /\ key r = k.
Proof.
  induction l as [|r' l IH] using rev_ind.
  - done.
  - rewrite newMap_snoc. intros [[<- <-]|[Hne Hl]]%lookup_insert_Some.
    + split; [|done]. rewrite elem_of_app. right. by left.
    + destruct (IH Hl) as [? ?]. split; [|done]. rewrite elem_of_app. by left.
Qed.

Lemma newMap_lookup_NoDup {A} (key : A -> string) l r :
  NoDup (key <$> l) -> r ∈ l -> newMap key l !! key r = Some r.
Proof.
  induction l as [|r' l IH] using rev_ind.
  - by intros _ ?%elem_of_nil.
  - rewrite fmap_app, newMap_snoc. simpl. intros Hnd Hin.
    apply NoDup_app in Hnd as (Hnd & Hdisj & _).
    apply elem_of_app in Hin as [Hin|Hin].
    + rewrite lookup_insert_ne; [by apply IH|].
      intros Heq. apply (Hdisj (key r)).
      * by apply list_elem_of_fmap_2.
      * rewrite Heq. by left.
    + apply list_elem_of_singleton in Hin as ->. by rewrite lookup_insert_eq.
Qed.

Lemma checkProviderRecord_spec lm st p :
  let st' := checkProviderRecord lm st p in
  (Discrepancy.transactionId <$> discrepancies st') =
    (Discrepancy.transactionId <$> discrepancies st) ++ ((fun _ => SettlementRecord.transactionId p) <$> raisedFor lm p)
  /\ (Discrepancy.type <$> discrepancies st') =
       (Discrepancy.type <$> discrepancies st) ++ raisedFor lm p
  /\ matched st' = (matched st + if isMatched lm p then 1 else 0)%nat
  /\ (Forall (fun d => Discrepancy.resolution d = None) (discrepancies st) ->
      Forall (fun d => Discrepancy.resolution d = None) (discrepancies st')).
Proof.
  unfold checkProviderRecord, raisedFor, isMatched.
  destruct (lm !! SettlementRecord.transactionId p) as [l|]; simpl.
  - destruct (amountDiffers l p), (statusDiffers l p); simpl;
      rewrite ?fmap_app, <-?app_assoc, ?app_nil_r; simpl;
      repeat split; try lia; try done;
      rewrite ?Forall_app; intros; repeat split; try done; by repeat constructor.
  - rewrite ?fmap_app. simpl. repeat split; try lia.
    rewrite Forall_app. intros; split; [done | by repeat constructor].
Qed.

Lemma checkLocalTransaction_spec pm st l :
  let st' := checkLocalTransaction pm st l in
  (Discrepancy.transactionId <$> discrepancies st') =
    (Discrepancy.transactionId <$> discrepancies st) ++ (match pm !! Transaction.id l with Some _ => [] | None => [Transaction.id l] end)
  /\ (Discrepancy.type <$> discrepancies st') =
       (Discrepancy.type <$> discrepancies st) ++ (match pm !! Transaction.id l with Some _ => [] | None => [MISSING_IN_PROVIDER] end)
  /\ matched st' = matched st
  /\ (Forall (fun d => Discrepancy.resolution d = None) (discrepancies st) ->
      Forall (fun d => Discrepancy.resolution d = None) (discrepancies st')).
Proof.
  unfold checkLocalTransaction.
  destruct (pm !! Transaction.id l); simpl.
  - rewrite !app_nil_r. done.
  - rewrite !fmap_app. simpl. repeat split.
    rewrite Forall_app. intros; split; [done | by repeat constructor].
Qed.

Lemma providerLoop_spec lm P st :
  let st' := foldl (checkProviderRecord lm) st P in
  (Discrepancy.transactionId <$> discrepancies st') =
    (Discrepancy.transactionId <$> discrepancies st) ++
    (P ≫= fun p => (fun _ => SettlementRecord.transactionId p) <$> raisedFor lm p)
  /\ (Discrepancy.type <$> discrepancies st') =
       (Discrepancy.type <$> discrepancies st) ++ (P ≫= raisedFor lm)
  /\ matched st' = (matched st + length (filter (fun p => isMatched lm p = true) P))%nat
  /\ (Forall (fun d => Discrepancy.resolution d = None) (discrepancies st) ->
      Forall (fun d => Discrepancy.resolution d = None) (discrepancies st')).
Proof.
  revert st. induction P as [|p P IH]; intros st; simpl.
  - rewrite !app_nil_r. repeat split; [lia | done].
  - destruct (IH (checkProviderRecord lm st p)) as (H1 & H2 & H3 & H4).
    destruct (checkProviderRecord_spec lm st p) as (G1 & G2 & G3 & G4).
    rewrite H1, H2, H3, G1, G2, G3, <-!app_assoc. repeat split; [|by auto].
    destruct (isMatched lm p) eqn:E.
    + rewrite filter_cons_True by done. simpl. lia.
    + rewrite filter_cons_False by (by rewrite E). lia.
Qed.

Lemma localLoop_spec pm L st :
  let st' := foldl (checkLocalTransaction pm) st L in
  (Discrepancy.transactionId <$> discrepancies st') =
    (Discrepancy.transactionId <$> discrepancies st) ++
    (Transaction.id <$> filter (fun l => pm !! Transaction.id l = None) L)
  /\ (Discrepancy.type <$> discrepancies st') =
       (Discrepancy.type <$> discrepancies st) ++
       ((fun _ => MISSING_IN_PROVIDER) <$> filter (fun l => pm !! Transaction.id l = None) L)
  /\ matched st' = matched st
  /\ (Forall (fun d => Discrepancy.resolution d = None) (discrepancies st) ->
      Forall (fun d => Discrepancy.resolution d = None) (discrepancies st')).
Proof.
  revert st. induction L as [|l L IH]; intros st; simpl.
  - rewrite !app_nil_r. done.
  - destruct (IH (checkLocalTransaction pm st l)) as (H1 & H2 & H3 & H4).
    destruct (checkLocalTransaction_spec pm st l) as (G1 & G2 & G3 & G4).
    rewrite H1, H2, H3, G1, G2, G3, <-!app_assoc. repeat split; [| |by auto].
    + f_equal. destruct (pm !! Transaction.id l) eqn:E.
      * by rewrite filter_cons_False by (by rewrite E).
      * by rewrite filter_cons_True by done.
    + f_equal. destruct (pm !! Transaction.id l) eqn:E.
      * by rewrite filter_cons_False by (by rewrite E).
      * by rewrite filter_cons_True by done.
Qed.

Lemma isMatched_raisedFor lm p : isMatched lm p = true <-> raisedFor lm p = [].
Proof.
  unfold isMatched, raisedFor. destruct (lm !! _) as [l|]; [|done].
  destruct (amountDiffers l p), (statusDiffers l p); simpl; done.
Qed.


Lemma runLoops_spec request L :
  let P := ReconcileRequest.settlementData request in
  let lm := newMap Transaction.id L in
  let pm := newMap SettlementRecord.transactionId P in
  let st := runLoops request L in
  (Discrepancy.transactionId <$> discrepancies st) =
    (P ≫= fun p => (fun _ => SettlementRecord.transactionId p) <$> raisedFor lm p) ++
    (Transaction.id <$> filter (fun l => pm !! Transaction.id l = None) L)
  /\ matched st = length (filter (fun p => isMatched lm p = true) P)
  /\ Forall (fun d => Discrepancy.resolution d = None) (discrepancies st).
Proof.
  intros P lm pm st. unfold st, runLoops. fold P lm pm.
  set (st0 := {| discrepancies := []; matched := 0; discrepancyIdx := 0 |}).
  destruct (providerLoop_spec lm P st0) as (H1 & _ & H3 & H4).
  destruct (localLoop_spec pm L (foldl (checkProviderRecord lm) st0 P)) as (G1 & _ & G3 & G4).
  rewrite G1, G3, H1, H3. simpl. repeat split. apply G4, H4. constructor.
Qed.

Lemma elem_of_named_runLoops request L x :
  let P := ReconcileRequest.settlementData request in
  let lm := newMap Transaction.id L in
  x ∈ named (discrepancies (runLoops request L)) <->
  (exists p, p ∈ P /\ SettlementRecord.transactionId p = x /\ raisedFor lm p <> []) \/
  (x ∈ localIds L /\ x ∉ providerIds request).
Proof.
  intros P lm. unfold named, localIds, providerIds.
  rewrite !elem_of_list_to_set.
  destruct (runLoops_spec request L) as (H1 & _). rewrite H1.
  fold P lm. rewrite elem_of_app, list_elem_of_bind. 
  setoid_rewrite list_elem_of_fmap. setoid_rewrite list_elem_of_filter.
  setoid_rewrite newMap_lookup_None. split.
  - intros [(p & (ty & -> & Hty) & Hp)|(l & -> & Hnin & Hl)].
    + left. exists p. repeat split; [done|]. intros E. rewrite E in Hty. by apply elem_of_nil in Hty.
    + right. split; [eauto|]. intros (p & Heq & Hp). apply Hnin, list_elem_of_fmap. eauto.
  - intros [(p & Hp & <- & Hne)|[(l & -> & Hl) Hnin]].
    + left. exists p. split; [|done]. destruct (raisedFor lm p) as [|ty ?]; [done|].
      exists ty. split; [done | by left].
    + right. exists l. repeat split; [|done]. intros Hin. apply Hnin.
      by apply list_elem_of_fmap in Hin.
Qed.

Lemma NoDup_fmap_eq {A B} (f : A -> B) (l : list A) x y :
  NoDup (f <$> l) -> x ∈ l -> y ∈ l -> f x = f y -> x = y.
Proof.
  induction l as [|a l IH]; simpl; [by intros _ ?%elem_of_nil|].
  intros [Hnin Hnd]%NoDup_cons [->|Hx]%elem_of_cons [->|Hy]%elem_of_cons Heq; auto.
  - exfalso. apply Hnin. rewrite Heq. by apply list_elem_of_fmap_2.
  - exfalso. apply Hnin. rewrite <-Heq. by apply list_elem_of_fmap_2.
Qed.



Lemma reconcile_eq request db :
  reconcile request db =
  (Ok (toDetail (newReport request db) (ReconciliationReport.discrepancies (newReport request db))),
   set_reconciliationReport
     (insert (ReconciliationReport.id (newReport request db)) (newReport request db)) db).
Proof. reflexivity. Qed.

Lemma unionSize_eq request L : unionSize request L = size (providerIds request ∪ localIds L).
Proof. unfold unionSize, providerIds, localIds. by rewrite list_to_set_app_L. Qed.

Lemma matched_set request L :
  let P := ReconcileRequest.settlementData request in
  let lm := newMap Transaction.id L in
  NoDup (SettlementRecord.transactionId <$> P) ->
  (providerIds request ∪ localIds L) ∖ named (discrepancies (runLoops request L))
  = list_to_set (SettlementRecord.transactionId <$> filter (fun p => isMatched lm p = true) P).
Proof.
  intros P lm Hnd. apply set_eq. intros x.
  rewrite elem_of_difference, elem_of_union, elem_of_named_runLoops, elem_of_list_to_set.
  fold P lm. rewrite list_elem_of_fmap. setoid_rewrite list_elem_of_filter.
  unfold providerIds at 1. rewrite elem_of_list_to_set. fold P.
  split.
  - intros [Hunion Hnot].
    destruct (decide (x ∈ SettlementRecord.transactionId <$> P)) as [HP|HP].
    + apply list_elem_of_fmap in HP as (p & -> & Hp). exists p. split; [done|]. split; [|done].
      apply isMatched_raisedFor. destruct (raisedFor lm p) eqn:E; [done|].
      exfalso. apply Hnot. left. exists p. rewrite E. done.
    + exfalso. apply Hnot. right. destruct Hunion as [?|HL]; [done|]. split; [done|].
      unfold providerIds. by rewrite elem_of_list_to_set.
  - intros (p & -> & Hmatched & Hp).
    assert (SettlementRecord.transactionId p ∈ SettlementRecord.transactionId <$> P) as Hin
      by (by apply list_elem_of_fmap_2).
    split; [by left|].
    intros [(p' & Hp' & Heq & Hraised)|[_ Hnin]].
    + apply (NoDup_fmap_eq _ _ _ _ Hnd Hp' Hp) in Heq as ->.
      by apply isMatched_raisedFor in Hmatched.
    + apply Hnin. unfold providerIds. by rewrite elem_of_list_to_set.
Qed.















End ReconciliationProperties.

Section RoutingProperties.

Import Routing.

Lemma evaluateCondition_total rt condition context :
  exists b, evaluateCondition rt condition context = Ok b.
Proof. unfold evaluateCondition. destruct (compareValues _ _ _ _); eauto. Qed.

Lemma every_total {A} (f : A -> result bool) l :
  (forall x, exists b, f x = Ok b) -> exists b, every f l = Ok b.
Proof.
  intros Hf. induction l as [|x l [b IH]]; simpl; [eauto|].
  destruct (Hf x) as [[] ->]; simpl; eauto.
Qed.

Lemma some_total {A} (f : A -> result bool) l :
  (forall x, exists b, f x = Ok b) -> exists b, some f l = Ok b.
Proof.
  intros Hf. induction l as [|x l [b IH]]; simpl; [eauto|].
  destruct (Hf x) as [[] ->]; simpl; eauto.
Qed.

Lemma evaluateFieldCondition_total rt fieldName condition context :
  is_bigint (getFieldValue fieldName context) = false ->
  noBigInt condition ->
  exists b, evaluateFieldCondition rt fieldName condition context = Ok b.
Proof.
  intros Hfield Hcond. destruct condition as [v|c]; simpl.
  - unfold isEqual. rewrite Hfield. destruct v; simpl in *; try done; eauto.
  - apply evaluateCondition_total.
Qed.

Lemma checkField_total rt fieldName condition context k :
  is_bigint (getFieldValue fieldName context) = false ->
  noBigInt condition ->
  (exists b, k = Ok b) ->
  exists b, checkField rt fieldName condition context k = Ok b.
Proof.
  intros Hfield Hcond [b ->]. unfold checkField. destruct (present condition); [|eauto].
  destruct (evaluateFieldCondition_total rt fieldName condition context Hfield Hcond) as [[] ->];
    simpl; eauto.
Qed.

Lemma named_field_not_bigint fieldName context :
  fieldName ∈ ["currency"; "paymentMethodType"; "cardBrand"; "country"; "region"] ->
  is_bigint (getFieldValue fieldName context) = false.
Proof.
  rewrite !elem_of_cons, elem_of_nil.
  intros [->|[->|[->|[->|[->|[]]]]]]; cbv [getFieldValue optional]; simpl; by repeat case_match.
Qed.

(** Outside the legacy simple value of [amount], [evaluate] is total. *)
Lemma evaluate_total rt conditions context :
  (match RoutingRuleConditions.amount conditions with
   | Legacy v => Js.truthy v = false
   | Full _ => True
   end) ->
  noBigInt (RoutingRuleConditions.currency conditions) ->
  noBigInt (RoutingRuleConditions.paymentMethodType conditions) ->
  noBigInt (RoutingRuleConditions.cardBrand conditions) ->
  noBigInt (RoutingRuleConditions.country conditions) ->
  noBigInt (RoutingRuleConditions.region conditions) ->
  exists b, evaluate rt conditions context = Ok b.
Proof.
  intros Hamount Hcur Hpm Hcb Hco Hre. unfold evaluate.
  assert (exists b, match RoutingRuleConditions.all conditions with
                    | Some (c :: l) =>
                        every (fun condition => evaluateCondition rt condition context) (c :: l)
                    | _ => Ok true
                    end = Ok b) as [allMatch ->].
  { destruct (RoutingRuleConditions.all conditions) as [[|c l]|]; eauto.
    apply every_total. intros x. apply evaluateCondition_total. }
  cbn [rbind]. destruct allMatch; cbn [negb]; [|eauto].
  assert (exists b, match RoutingRuleConditions.any conditions with
                    | Some (c :: l) =>
                        some (fun condition => evaluateCondition rt condition context) (c :: l)
                    | _ => Ok true
                    end = Ok b) as [anyMatch ->].
  { destruct (RoutingRuleConditions.any conditions) as [[|c l]|]; eauto.
    apply some_total. intros x. apply evaluateCondition_total. }
  cbn [rbind]. destruct anyMatch; cbn [negb]; [|eauto].
  apply checkField_total; [apply named_field_not_bigint; repeat first [apply list_elem_of_here | apply list_elem_of_further] | done |].
  assert (forall k, (exists b, k = Ok b) ->
            exists b, checkField rt "amount" (RoutingRuleConditions.amount conditions) context k
                      = Ok b) as Hk.
  { intros k [b ->]. unfold checkField.
    destruct (RoutingRuleConditions.amount conditions) as [v|c]; simpl.
    - rewrite Hamount. eauto.
    - destruct (evaluateCondition_total rt c context) as [[] ->]; simpl; eauto. }
  apply Hk.
  apply checkField_total; [apply named_field_not_bigint; repeat first [apply list_elem_of_here | apply list_elem_of_further] | done |].
  apply checkField_total; [apply named_field_not_bigint; repeat first [apply list_elem_of_here | apply list_elem_of_further] | done |].
  apply checkField_total; [apply named_field_not_bigint; repeat first [apply list_elem_of_here | apply list_elem_of_further] | done |].
  apply checkField_total; [apply named_field_not_bigint; repeat first [apply list_elem_of_here | apply list_elem_of_further] | done |].
  repeat case_match; eauto.
Qed.

(** C8 fails on the legacy simple-value path. A rule [{ amount: '1000.50' }]
    makes [evaluateFieldCondition] call [isEqual] on the context's bigint
    amount outside the [try]/[catch] of [evaluateCondition]:
    [BigInt('1000.50')] throws, and the exception leaves [evaluate] and
    then [selectProvider]. *)
Theorem evaluate_legacy_amount_throws rt :
  evaluate rt (Sample.amountIs (Js.Str "1000.50")) Sample.usdCard
    = Throw (SyntaxError "Cannot convert 1000.50 to a BigInt") /\
  fst (selectProvider rt DEFAULT_SCORING_WEIGHTS Sample.noMetrics Sample.usdCard
         (Sample.routed [Sample.rule "rule-amount" "Exact amount"
                           (Sample.amountIs (Js.Str "1000.50")) "prov-stripe"]))
    = Throw (SyntaxError "Cannot convert 1000.50 to a BigInt").
Proof. split; vm_compute; reflexivity. Qed.

Lemma insertByScore_elem s sorted x :
  x ∈ insertByScore s sorted <-> x = s \/ x ∈ sorted.
Proof.
  induction sorted as [|t rest IH]; simpl.
  - rewrite list_elem_of_singleton, elem_of_nil. tauto.
  - destruct (Qle_bool _ _).
    + rewrite !elem_of_cons, IH. tauto.
    + rewrite !elem_of_cons. tauto.
Qed.

Lemma sortByScore_elem scores x : x ∈ sortByScore scores <-> x ∈ scores.
Proof.
  unfold sortByScore.
  assert (forall acc, x ∈ foldl (fun sorted s => insertByScore s sorted) acc scores
                      <-> x ∈ acc \/ x ∈ scores) as H.
  { induction scores as [|s scores IH]; intros acc; simpl.
    - rewrite elem_of_nil. tauto.
    - rewrite IH, insertByScore_elem, elem_of_cons. tauto. }
  rewrite H, elem_of_nil. tauto.
Qed.

Lemma evaluateProvider_eligible weights getMetrics provider context :
  ProviderScore.eligible (evaluateProvider weights getMetrics provider context)
    = (checkEligibility provider context).1
  /\ ProviderScore.providerId (evaluateProvider weights getMetrics provider context)
    = RoutingProviderInfo.id provider.
Proof.
  unfold evaluateProvider. destruct (checkEligibility provider context) as [[] reason]; done.
Qed.

Lemma scoreBased_selects_eligible weights getMetrics providers context db decision db' :
  scoreBased weights getMetrics providers context db = (Ok decision, db') ->
  exists provider,
    provider ∈ providers /\
    RoutingProviderInfo.id provider = RoutingDecision.selectedProviderId decision /\
    (checkEligibility provider context).1 = true.
Proof.
  unfold scoreBased.
  destruct (filter _ _) as [|selected rest] eqn:Hfilter; [done|].
  unfold bind, get, ret. simpl. intros [= <- _].
  assert (selected ∈ filter (fun s => ProviderScore.eligible s = true)
            (evaluateProviders weights getMetrics providers context)) as Hin
    by (rewrite Hfilter; left).
  apply list_elem_of_filter in Hin as [Heligible Hin].
  unfold evaluateProviders in Hin. apply sortByScore_elem, list_elem_of_fmap in Hin
    as (provider & -> & Hprovider).
  destruct (evaluateProvider_eligible weights getMetrics provider context) as [He Hid].
  exists provider. simpl. rewrite Hid, <-He. done.
Qed.

Lemma availableProviders_set_rulesCache f merchantId db :
  availableProviders merchantId (set_rulesCache f db) = availableProviders merchantId db.
Proof. reflexivity. Qed.

(** On the scoring path the selected provider passes the eligibility
    check. *)
Lemma selectProvider_scoring_path_eligible rt weights getMetrics context db decision db' :
  selectProvider rt weights getMetrics context db = (Ok decision, db') ->
  RoutingDecision.matchedRuleId decision = None ->
  exists provider,
    provider ∈ availableProviders (RoutingContext.merchantId context) db /\
    RoutingProviderInfo.id provider = RoutingDecision.selectedProviderId decision /\
    (checkEligibility provider context).1 = true.
Proof.
  unfold selectProvider, bind at 1.
  destruct (getRulesForMerchant _ db) as [[rules|e] db1] eqn:Hrules; [|done].
  assert (availableProviders (RoutingContext.merchantId context) db1
          = availableProviders (RoutingContext.merchantId context) db) as Hsame.
  { revert Hrules. unfold getRulesForMerchant, bind, get, modify, ret. simpl.
    destruct (rulesCache db !! _); intros [= _ <-]; done. }
  unfold bind at 1, lift. destruct (firstMatch rt rules context) as [matchedRule|e]; [|done].
  unfold bind at 1, getAvailableProviders, bind at 1, get, ret. simpl. rewrite Hsame.
  case_bool_decide; [done|].
  assert (forall r, scoreBased weights getMetrics
                      (availableProviders (RoutingContext.merchantId context) db) context db1
                    = (Ok decision, r) ->
            exists provider,
              provider ∈ availableProviders (RoutingContext.merchantId context) db /\
              RoutingProviderInfo.id provider = RoutingDecision.selectedProviderId decision /\
              (checkEligibility provider context).1 = true) as Hscore
    by (intros r; apply scoreBased_selects_eligible).
  destruct matchedRule as [matchedRule|]; [|intros ? _; by eapply Hscore].
  destruct (list_find _ _) as [[i ruleProvider]|]; [|intros ? _; by eapply Hscore].
  unfold bind, get, ret. simpl. intros [= <- _]. done.
Qed.

(** C3 fails on the rule-matched path. The rule sends USD payments to
    Adyen, which the merchant has configured but which does not support
    USD: [selectProvider] returns Adyen, found among the merchant's
    providers by id only, although [checkEligibility] rejects it for this
    context. *)
Theorem selectProvider_rule_target_ineligible rt :
  fst (selectProvider rt DEFAULT_SCORING_WEIGHTS Sample.noMetrics Sample.usdCard
         (Sample.routed [Sample.rule "rule-usd-adyen" "USD to Adyen"
                           (Sample.currencyIs "USD") "prov-adyen"]))
    = Ok {| RoutingDecision.selectedProviderId := "prov-adyen";
            RoutingDecision.selectedProviderCode := "adyen";
            RoutingDecision.fallbackProviderIds := ["prov-stripe"];
            RoutingDecision.matchedRuleId := Some "rule-usd-adyen";
            RoutingDecision.score := 100%Q;
            RoutingDecision.reason := "Matched routing rule: USD to Adyen";
            RoutingDecision.evaluatedAt := 2000 |} /\
  Sample.adyenInfo ∈ availableProviders "merchant-1"
                       (Sample.routed [Sample.rule "rule-usd-adyen" "USD to Adyen"
                                         (Sample.currencyIs "USD") "prov-adyen"]) /\
  checkEligibility Sample.adyenInfo Sample.usdCard
    = (false, Some "Currency USD not supported").
Proof.
  split; [vm_compute; reflexivity|]. split; [|vm_compute; reflexivity].
  change (Sample.adyenInfo ∈
            availableProviders "merchant-1"
              (Sample.routed [Sample.rule "rule-usd-adyen" "USD to Adyen"
                                (Sample.currencyIs "USD") "prov-adyen"])).
  match goal with
  | |- _ ∈ ?l => let l' := eval vm_compute in l in change (Sample.adyenInfo ∈ l')
  end.
  apply list_elem_of_further, list_elem_of_here.
Qed.

End RoutingProperties.

Section PaymentProperties.

Import Payment.

(** ** Idempotency *)

(** C4, amended. When [createPayment] is given a non-empty idempotency key
    under which a transaction is stored, it returns that transaction and
    leaves the store and the record of the calls to the collaborators as
    they were: no conversion, no routing, no provider call, no new row and
    no status change; the id returned is that of the stored transaction. *)
Theorem createPayment_idempotent env request w key existing :
  CreatePaymentRequest.idempotencyKey request = Some key ->
  key <> "" ->
  findByIdempotencyKey key (db w) = Some existing ->
  createPayment env request w = (Ok (toPaymentResponse existing), w) /\
  PaymentResponse.id (toPaymentResponse existing) = Transaction.id existing.
Proof.
  intros Hkey Hne Hfind. split; [|done].
  unfold createPayment, nonEmpty. rewrite Hkey.
  rewrite bool_decide_eq_false_2 by done.
  unfold bind, get, ret. simpl. rewrite Hfind. done.
Qed.

Lemma createPayment_idempotent_witness :
  createPayment Sample.env (Sample.payment (Some "order-42"))
    (Sample.world (Sample.stored (Sample.keyed "order-42")))
    = (Ok (toPaymentResponse (Sample.keyed "order-42")),
       Sample.world (Sample.stored (Sample.keyed "order-42"))) /\
  PaymentResponse.id (toPaymentResponse (Sample.keyed "order-42")) = "txn-456".
Proof.
  apply (createPayment_idempotent Sample.env (Sample.payment (Some "order-42"))
           (Sample.world (Sample.stored (Sample.keyed "order-42")))
           "order-42" (Sample.keyed "order-42")).
  - reflexivity.
  - discriminate.
  - vm_compute. reflexivity.
Defined.

(** C4, as the specification states it, fails for the empty key, which
    [if (request.idempotencyKey)] takes for an absent one: with a
    transaction stored under it, the routing service is asked for a
    decision and the call fails on the unique constraint instead of
    returning the stored transaction. *)
Lemma createPayment_empty_key_not_deduplicated :
  CreatePaymentRequest.idempotencyKey (Sample.payment (Some "")) = Some "" /\
  findByIdempotencyKey "" (Sample.stored (Sample.keyed "")) = Some (Sample.keyed "") /\
  createPayment Sample.env (Sample.payment (Some ""))
    (Sample.world (Sample.stored (Sample.keyed "")))
    = (Throw uniqueConstraintFailed,
       {| db := Sample.stored (Sample.keyed "");
          calls := [SelectProvider Sample.usdCard] |}).
Proof.
  split; [reflexivity|]. split; vm_compute; reflexivity.
Qed.

(** ** One attempt *)

Lemma execute_spec env tid pid request amount currency w :
  is_Some (transaction (db w) !! tid) ->
  exists evs new,
    let r := fst (executePaymentWithProvider env tid pid request amount currency w) in
    let w' := snd (executePaymentWithProvider env tid pid request amount currency w) in
    calls w' = calls w ++ evs /\
    (authorizedProviders evs = [] \/ authorizedProviders evs = [pid]) /\
    history w' = history w ++ new /\
    paymentProvider (db w') = paymentProvider (db w) /\
    (forall id, is_Some (transaction (db w) !! id) -> is_Some (transaction (db w') !! id)) /\
    match r with
    | Ok response =>
        exists s, new = [change tid (Some PENDING) PROCESSING None;
                         change tid (Some PROCESSING) s None] /\
                  (s = COMPLETED \/ s = PENDING \/ s = FAILED) /\
                  status_of tid w' = Some s /\ PaymentResponse.status response = s
    | Throw e =>
        (new = [] /\ status_of tid w' = status_of tid w) \/
        (new = [change tid (Some PENDING) PROCESSING None] /\
         status_of tid w' = Some PROCESSING)
    end.
Proof.
  intros [row Hrow].
  unfold executePaymentWithProvider, updateTransaction, recordStatusChange, getAdapter,
    authorize, updateMetrics, elapse, record, liftDb, try_catch, bind, get, ret, throw, lift,
    modify, history, status_of.
  simpl. rewrite ?Hrow.
  destruct (paymentProvider (db w) !! pid) as [provider|] eqn:Hprov; simpl.
  2:{ exists [], []. rewrite !app_nil_r. repeat split; auto. left. by rewrite Hrow. }
  rewrite Hrow. simpl.
  destruct (providerService_getAdapter env _ _ _) as [[]|e] eqn:Hadapter; simpl.
  2:{ eexists [_], [_]. repeat split; auto.
      - intros id. rewrite lookup_insert. case_decide; eauto.
      - right. split; [done|]. by rewrite lookup_insert_eq. }
  destruct (adapter_authorize env _ _ _) as [ms [result|e]] eqn:Hauth; simpl.
  - rewrite lookup_insert_eq. simpl.
    eexists [_; _; _], [_; _]. rewrite <-!app_assoc. simpl. repeat split; auto.
    + intros id. rewrite !lookup_insert. repeat case_decide; eauto.
    + eexists. split; [done|]. rewrite lookup_insert_eq. simpl.
      destruct (AuthorizeResponse.status result); auto.
  - eexists [_; _; _], [_]. rewrite <-!app_assoc. simpl. repeat split; auto.
    + intros id. rewrite !lookup_insert. repeat case_decide; eauto.
    + right. split; [done|]. by rewrite lookup_insert_eq.
Qed.

(** ** The loop over the providers *)

Lemma attemptProviders_fallback env tid request amount currency candidates failed0 last0 w :
  exists failures outcome w',
    fallback (fun pid => executePaymentWithProvider env tid pid request amount currency)
             candidates w failures outcome w' /\
    attemptProviders env tid request amount currency candidates failed0 last0 w
      = (Ok (outcome_of failed0 last0 failures outcome), w').
Proof.
  revert failed0 last0 w. induction candidates as [|pid candidates IH]; intros failed0 last0 w.
  - exists [], None, w. split; [constructor|]. simpl. by rewrite app_nil_r.
  - simpl. unfold try_catch, bind at 1.
    destruct (executePaymentWithProvider env tid pid request amount currency w)
      as [[response|e] w1] eqn:Hexec.
    + exists [], (Some response), w1. split; [by constructor|]. done.
    + destruct (isRetryable e) eqn:Hretry; simpl.
      * destruct (IH (failed0 ++ [pid]) (Some e) w1) as (failures & outcome & w' & Hfb & Heq).
        exists ((pid, e) :: failures), outcome, w'. split; [by econstructor|].
        rewrite Heq. f_equal. f_equal. destruct outcome; simpl; [done|].
        rewrite <-app_assoc. simpl. f_equal.
        destruct failures as [|f failures]; [done|].
        rewrite (last_cons_cons (pid, e)). by destruct (last (f :: failures)) eqn:Hlast; [|by apply last_None in Hlast].
      * exists [(pid, e)], None, w1. split; [by constructor|]. done.
Qed.

Lemma fallback_facts env tid request amount currency candidates w failures outcome w' :
  fallback (fun pid => executePaymentWithProvider env tid pid request amount currency)
           candidates w failures outcome w' ->
  is_Some (transaction (db w) !! tid) ->
  is_Some (transaction (db w') !! tid) /\
  (exists evs, calls w' = calls w ++ evs /\
               sublist (authorizedProviders evs) (attempted failures outcome candidates)) /\
  fst <$> failures = take (length failures) candidates /\
  (forall i f, failures !! i = Some f -> (S i < length failures)%nat -> isRetryable f.2 = true) /\
  match outcome with
  | Some _ =>
      Forall (fun f => isRetryable f.2 = true) failures /\
      (length failures < length candidates)%nat
  | None =>
      match last failures with
      | Some f => isRetryable f.2 = false \/ length failures = length candidates
      | None => candidates = []
      end
  end.
Proof.
  unfold attempted.
  induction 1 as [w|pid candidates w response w' Hexec|pid candidates w e w' Hexec Hretry
                 |pid candidates w e w' failures outcome w'' Hexec Hretry Hfb IH];
    intros Hrow.
  - repeat split; auto.
    + exists []. by rewrite app_nil_r.
    + intros i f Hi. by rewrite lookup_nil in Hi.
  - destruct (execute_spec env tid pid request amount currency w Hrow)
      as (evs & new & Hcalls & Hauth & _ & _ & Hrows & _).
    rewrite Hexec in *. simpl in *. repeat split; auto.
    + exists evs. split; [done|]. destruct Hauth as [->| ->].
      * apply sublist_nil_l.
      * apply sublist_skip, sublist_nil_l.
    + intros i f Hi. by rewrite lookup_nil in Hi.
    + lia.
  - destruct (execute_spec env tid pid request amount currency w Hrow)
      as (evs & new & Hcalls & Hauth & _ & _ & Hrows & _).
    rewrite Hexec in *. simpl in *. repeat split; auto.
    + exists evs. split; [done|]. destruct Hauth as [->| ->].
      * apply sublist_nil_l.
      * apply sublist_skip, sublist_nil_l.
    + intros [|i] f Hi Hlt; simpl in *; lia.
  - destruct (execute_spec env tid pid request amount currency w Hrow)
      as (evs & new & Hcalls & Hauth & _ & _ & Hrows & _).
    rewrite Hexec in *. simpl in *.
    destruct (IH (Hrows _ Hrow)) as (Hrow' & (evs' & Hcalls' & Hsub) & Hprefix & Hretries & Hout).
    repeat split; auto.
    + exists (evs ++ evs'). rewrite Hcalls', Hcalls, <-app_assoc. split; [done|].
      unfold authorizedProviders. rewrite omap_app.
      destruct Hauth as [Hnil|Hone]; unfold authorizedProviders in *.
      * rewrite Hnil. simpl. by apply sublist_cons.
      * rewrite Hone. simpl. by apply sublist_skip.
    + f_equal. apply Hprefix.
    + intros [|i] f Hi Hlt; simpl in *.
      * by injection Hi as <-.
      * apply (Hretries i); [done | lia].
    + destruct outcome as [response|].
      * destruct Hout as [Hall Hlen]. split; [by constructor | lia].
      * destruct failures as [|f failures].
        -- simpl in *. subst. right. done.
        -- rewrite last_cons_cons.
           destruct (last (f :: failures)) eqn:Hlast; [|by apply last_None in Hlast].
           destruct Hout as [?|Hlen]; [by left | right]. simpl in *. lia.
Qed.

Lemma attemptWithFallback_eq env tid request amount currency decision w failures outcome w2 :
  attemptProviders env tid request amount currency (candidatesOf decision) [] None w
    = (Ok (outcome_of [] None failures outcome), w2) ->
  attemptWithFallback env tid request amount currency decision w =
  match outcome with
  | Some response => (Ok response, w2)
  | None =>
      (updateTransactionStatus tid FAILED
         (Some (match last failures with
                | Some f => error_message f.2
                | None => "All payment providers failed"
                end)) ;;
       throw (allProvidersFailed tid)) w2
  end.
Proof.
  intros Heq. unfold attemptWithFallback.
  set (all := _ :: _).
  assert (take (min (length all) MAX_PROVIDER_RETRIES) all = candidatesOf decision) as ->.
  { unfold candidatesOf. fold all. destruct (Nat.min_spec (length all) MAX_PROVIDER_RETRIES)
      as [[Hlt ->]|[Hle ->]]; [|done].
    rewrite !take_ge; [done| |done]. lia. }
  unfold bind at 1. rewrite Heq. destruct outcome as [response|]; simpl; [done|].
  by destruct (last failures).
Qed.

Lemma attemptWithFallback_spec env tid request amount currency decision w :
  is_Some (transaction (db w) !! tid) ->
  exists failures outcome w2 evs,
    fallback (fun pid => executePaymentWithProvider env tid pid request amount currency)
             (candidatesOf decision) w failures outcome w2 /\
    calls (attemptWithFallback env tid request amount currency decision w).2 = calls w ++ evs /\
    fallback_result tid evs (candidatesOf decision) failures outcome
      (attemptWithFallback env tid request amount currency decision w).1
      (attemptWithFallback env tid request amount currency decision w).2.
Proof.
  intros Hrow.
  destruct (attemptProviders_fallback env tid request amount currency (candidatesOf decision)
              [] None w) as (failures & outcome & w2 & Hfb & Heq).
  destruct (fallback_facts _ _ _ _ _ _ _ _ _ _ Hfb Hrow)
    as ([row Hrow2] & (evs & Hcalls & Hsub) & Hprefix & Hretries & Hout).
  exists failures, outcome, w2, evs. split; [done|].
  rewrite (attemptWithFallback_eq _ _ _ _ _ _ _ _ _ _ Heq). unfold fallback_result.
  destruct outcome as [response|].
  - destruct Hout as [Hall _]. repeat split; auto.
  - unfold updateTransactionStatus, updateTransaction, recordStatusChange, liftDb, bind, get,
      ret, throw, modify, status_of, failureReason_of. simpl. rewrite Hrow2. simpl.
    repeat split; auto.
    destruct (last failures) as [f|] eqn:Hlast.
    + exists f. rewrite lookup_insert_eq. simpl. repeat split; auto.
    + by unfold candidatesOf, MAX_PROVIDER_RETRIES in Hout.
Qed.

(** ** [createPayment] up to the loop *)

Lemma createTransaction_cases row w :
  let created := row (fresh (dom (transaction (db w)))) (now (db w)) in
  createTransaction row w = (Throw uniqueConstraintFailed, w) \/
  createTransaction row w =
    (Ok created,
     {| db := set_transaction (insert (Transaction.id created) created) (db w);
        calls := calls w |}).
Proof.
  intros created. unfold createTransaction, bind, get. simpl. fold created.
  destruct (Transaction.idempotencyKey created) as [key|]; [|by right].
  destruct (findByIdempotencyKey key (db w)); [by left | by right].
Qed.

Lemma createPayment_cases env request w r w' :
  createPayment env request w = (r, w') ->
  (exists evs, calls w' = calls w ++ evs /\ authorizedProviders evs = [] /\
               endedBeforeAttempts env request w r w' /\
               (db w' = db w \/
                exists context, db w' = (routingService_selectProvider env context (db w)).2)) \/
  (exists context db1 decision tid w1 pre,
     routingService_selectProvider env context (db w) = (Ok decision, db1) /\
     transaction db1 !! tid = None /\
     status_of tid w1 = Some PENDING /\
     calls w1 = calls w ++ pre /\ authorizedProviders pre = [] /\
     history w1 = transactionStatusHistory db1 ++ [change tid None PENDING None] /\
     (forall id, id <> tid -> transaction (db w1) !! id = transaction db1 !! id) /\
     (r, w') = attemptWithFallback env tid request (Routing.RoutingContext.amount context)
                 (Routing.RoutingContext.currency context) decision w1).
Proof.
  unfold createPayment.
  set (lookup := match nonEmpty _ with Some key => _ | None => _ end).
  assert (exists o, lookup w = (Ok o, w) /\
            forall existing, o = Some existing ->
              exists key, CreatePaymentRequest.idempotencyKey request = Some key /\
                          findByIdempotencyKey key (db w) = Some existing)
    as (o & Hlookup & Ho).
  { subst lookup. unfold nonEmpty.
    destruct (CreatePaymentRequest.idempotencyKey request) as [key|]; [case_bool_decide|].
    - exists None. done.
    - exists (findByIdempotencyKey key (db w)). split; [done|]. eauto.
    - exists None. done. }
  unfold bind at 1. rewrite Hlookup. clear Hlookup lookup.
  destruct o as [existing|].
  { intros [= <- <-]. left. exists []. rewrite app_nil_r. split; [done|]. split; [done|].
    split; [|by left].
    left. destruct (Ho existing eq_refl) as (key & ? & ?). by exists key, existing. }
  clear Ho.
  set (conversion := match CreatePaymentRequest.targetCurrency request with
                     | Some t => _ | None => _ end).
  assert (exists pre w0, calls w0 = calls w ++ pre /\ db w0 = db w /\
            authorizedProviders pre = [] /\
            ((exists c, conversion w = (Ok c, w0)) \/
             (exists e target, conversion w = (Throw e, w0) /\
                fxService_convert env (calls w) (CreatePaymentRequest.amount request)
                  (CreatePaymentRequest.currency request) target = Throw e)))
    as (pre & w0 & Hpre & Hdb0 & Hauth0 & Hconv).
  { subst conversion.
    destruct (CreatePaymentRequest.targetCurrency request) as [target|];
      [case_bool_decide|].
    - unfold convert, record, lift, bind, get, modify, ret. simpl.
      destruct (fxService_convert env (calls w) _ _ target) as [c|e] eqn:Hfx.
      + eexists [_], _. split; [|split; [|split]]; cycle 3; [left; eauto | done..].
      + eexists [_], _. split; [|split; [|split]]; cycle 3; [right; eauto | done..].
    - exists [], w. rewrite app_nil_r. split; [|split; [|split]]; [done..|]. left. eauto.
    - exists [], w. rewrite app_nil_r. split; [|split; [|split]]; [done..|]. left. eauto. }
  unfold bind at 1.
  destruct Hconv as [[c Hconv]|(e & target & Hconv & Hfx)]; rewrite Hconv; clear Hconv conversion.
  2:{ intros [= <- <-]. left. exists pre. split; [done|]. split; [done|].
      split; [|by left]. right.
      exists e. split; [done|]. left. eauto. }
  set (context := Routing.RoutingContext.Build_t _ _ _ _ _ _ _ _ _).
  unfold bind at 1. unfold selectProvider at 1. unfold record, liftDb, bind, modify.
  simpl. rewrite Hdb0.
  destruct (routingService_selectProvider env context (db w)) as [[decision|e] db1] eqn:Hroute.
  2:{ intros [= <- <-]. left. exists (pre ++ [SelectProvider context]). simpl. rewrite Hpre.
      split; [by rewrite <-app_assoc|]. split; [|split].
      - unfold authorizedProviders in *. rewrite omap_app, Hauth0. done.
      - right. exists e. split; [done|]. right. left. eauto.
      - right. exists context. by rewrite Hroute. }
  match goal with
  | |- context [createTransaction ?row ?w] =>
      destruct (createTransaction_cases row w) as [Hcreate|Hcreate]; rewrite Hcreate;
        clear Hcreate
  end.
  { intros [= <- <-]. left. exists (pre ++ [SelectProvider context]). simpl. rewrite Hpre.
    split; [by rewrite <-app_assoc|]. split; [|split].
    - unfold authorizedProviders in *. rewrite omap_app, Hauth0. done.
    - right. eexists. split; [done|]. by right; right.
    - right. exists context. by rewrite Hroute. }
  simpl. set (tid := fresh (dom (transaction db1))). intros Hrun.
  match type of Hrun with
  | attemptWithFallback _ _ _ ?a ?c _ ?w1 = _ =>
      set (world := w1) in *;
      change a with (Routing.RoutingContext.amount context) in Hrun;
      change c with (Routing.RoutingContext.currency context) in Hrun
  end.
  assert (transaction db1 !! tid = None) as Hfresh.
  { apply not_elem_of_dom, is_fresh. }
  right. exists context, db1, decision, tid, world, (pre ++ [SelectProvider context]).
  split; [done|]. split; [done|]. split.
  { unfold status_of. subst world. simpl. by rewrite lookup_insert_eq. }
  split. { subst world. simpl. by rewrite Hpre, <-app_assoc. }
  split. { unfold authorizedProviders in *. by rewrite omap_app, Hauth0. }
  split; [done|]. split; [|done].
  intros id Hid. subst world. simpl. by rewrite lookup_insert_ne.
Qed.

(** C5. In a run of [createPayment] that reaches the loop, the adapters
    are asked to authorize in the order of [selected provider, fallback
    providers], cut to three, at most three times; the failures are those
    of the first candidates and all but the last are retryable, so that
    nothing is attempted after a failure that is not; and when no attempt
    returns, the transaction is FAILED with the message of the last error
    and the call fails with ALL_PROVIDERS_FAILED. A run that ends before
    the loop asks no adapter to authorize. *)
Theorem createPayment_fallback env request w r w' :
  createPayment env request w = (r, w') ->
  exists evs, calls w' = calls w ++ evs /\
    (length (authorizedProviders evs) <= MAX_PROVIDER_RETRIES)%nat /\
    ((authorizedProviders evs = [] /\ endedBeforeAttempts env request w r w') \/
     (exists context db1 decision tid w1 failures outcome w2,
        routingService_selectProvider env context (db w) = (Ok decision, db1) /\
        fallback (fun pid => executePaymentWithProvider env tid pid request
                               (Routing.RoutingContext.amount context)
                               (Routing.RoutingContext.currency context))
                 (candidatesOf decision) w1 failures outcome w2 /\
        fallback_result tid evs (candidatesOf decision) failures outcome r w')).
Proof.
  intros Hrun.
  destruct (createPayment_cases _ _ _ _ _ Hrun)
    as [(evs & Hcalls & Hauth & Hended & _)
       |(context & db1 & decision & tid & w1 & pre & Hroute & _ & Hstatus & Hpre & Hauth & _ & _
         & Hloop)].
  - exists evs. rewrite Hauth. split; [done|]. split; [simpl; lia|]. by left.
  - assert (is_Some (transaction (db w1) !! tid)) as Hrow.
    { unfold status_of in Hstatus. by destruct (transaction (db w1) !! tid). }
    destruct (attemptWithFallback_spec env tid request (Routing.RoutingContext.amount context)
                (Routing.RoutingContext.currency context) decision w1 Hrow)
      as (failures & outcome & w2 & evs & Hfb & Hcalls & Hsub & Hrest).
    rewrite <-Hloop in *. simpl in *.
    assert (authorizedProviders (pre ++ evs) = authorizedProviders evs) as Heq.
    { unfold authorizedProviders in *. by rewrite omap_app, Hauth. }
    exists (pre ++ evs). split; [by rewrite Hcalls, Hpre, <-app_assoc|].
    rewrite Heq. split.
    + apply sublist_length in Hsub. etrans; [exact Hsub|].
      unfold attempted, candidatesOf. rewrite !length_take. lia.
    + right. exists context, db1, decision, tid, w1, failures, outcome, w2.
      split; [done|]. split; [done|]. unfold fallback_result. by rewrite Heq.
Qed.

Lemma createPayment_fallback_witness :
  exists r w',
    createPayment Sample.env (Sample.payment None) (Sample.world (Sample.routed [])) = (r, w') /\
    r = Throw (allProvidersFailed "0") /\
    authorizedProviders (calls w') = ["prov-stripe"; "prov-adyen"] /\
    exists evs, calls w' = [] ++ evs /\
      (length (authorizedProviders evs) <= MAX_PROVIDER_RETRIES)%nat /\
      ((authorizedProviders evs = [] /\
        endedBeforeAttempts Sample.env (Sample.payment None)
          (Sample.world (Sample.routed [])) r w') \/
       (exists context db1 decision tid w1 failures outcome w2,
          routingService_selectProvider Sample.env context (Sample.routed [])
            = (Ok decision, db1) /\
          fallback (fun pid => executePaymentWithProvider Sample.env tid pid
                                 (Sample.payment None)
                                 (Routing.RoutingContext.amount context)
                                 (Routing.RoutingContext.currency context))
                   (candidatesOf decision) w1 failures outcome w2 /\
          fallback_result tid evs (candidatesOf decision) failures outcome r w')).
Proof.
  eexists _, _. split; [vm_compute; reflexivity|].
  split; [reflexivity|]. split; [vm_compute; reflexivity|].
  apply (createPayment_fallback Sample.env (Sample.payment None)
           (Sample.world (Sample.routed []))).
  vm_compute. reflexivity.
Defined.

(** ** The status changes recorded *)















End PaymentProperties.

(** ** The ledger read and written *)

Section InsertionOrderProperties.

Import LedgerQueries.

Context {K V : Type} `{EqDecision K}.

Implicit Types (m : list (K * V)) (k : K) (v : V).

Lemma mapGet_nil k : mapGet k ([] : list (K * V)) = None.
Proof. done. Qed.

Lemma mapGet_cons k k' v m :
  mapGet k ((k', v) :: m) = if decide (k' = k) then Some v else mapGet k m.
Proof.
  unfold mapGet. simpl. case_decide; simpl; [done|].
  by destruct (list_find _ m) as [[i [k'' v']]|].
Qed.

Lemma mapGet_None k m : mapGet k m = None <-> k ∉ m.*1.
Proof.
  induction m as [|[k' v] m IH].
  - rewrite mapGet_nil. split; [intros _; apply not_elem_of_nil | done].
  - rewrite mapGet_cons, fmap_cons, not_elem_of_cons. simpl. case_decide as Hk.
    + split; [done|]. intros [Hne _]. by destruct Hne.
    + rewrite IH. split; [intros ?; split; [congruence | done] | by intros [_ ?]].
Qed.

Lemma mapHas_mapGet k m : mapHas k m = bool_decide (is_Some (mapGet k m)).
Proof.
  unfold mapHas. apply bool_decide_ext. rewrite <-not_eq_None_Some, mapGet_None.
  destruct (decide (k ∈ m.*1)); tauto.
Qed.

Lemma mapGet_app k m1 m2 :
  mapGet k (m1 ++ m2) = match mapGet k m1 with Some v => Some v | None => mapGet k m2 end.
Proof.
  induction m1 as [|[k' v] m1 IH]; [done|]. simpl. rewrite !mapGet_cons. by case_decide.
Qed.

Lemma mapGet_mapEnsure k k' init m :
  mapGet k (mapEnsure k' init m) =
  match mapGet k m with
  | Some v => Some v
  | None => if decide (k' = k) then Some init else None
  end.
Proof.
  unfold mapEnsure. rewrite mapHas_mapGet. case_bool_decide as Hk'.
  - destruct (mapGet k m) eqn:Hk; [done|]. case_decide; [|done]. subst.
    rewrite Hk in Hk'. by destruct Hk'.
  - rewrite mapGet_app, mapGet_cons, mapGet_nil. done.
Qed.

Lemma mapGet_mapAlter k k' f m :
  mapGet k (mapAlter f k' m) = if decide (k' = k) then f <$> mapGet k m else mapGet k m.
Proof.
  induction m as [|[k'' v] m IH]; simpl; [by case_decide|].
  destruct (decide (k'' = k')) as [->|Hne]; rewrite !mapGet_cons.
  - by case_decide.
  - rewrite IH. repeat case_decide; congruence.
Qed.

Lemma mapAlter_keys f k m : (mapAlter f k m).*1 = m.*1.
Proof.
  induction m as [|[k' v] m IH]; simpl; [done|].
  case_decide; rewrite !fmap_cons; simpl; [done|]. by rewrite IH.
Qed.

Lemma mapEnsure_NoDup k init m : NoDup m.*1 -> NoDup (mapEnsure k init m).*1.
Proof.
  intros Hm. unfold mapEnsure, mapHas. case_bool_decide; [done|].
  rewrite fmap_app. simpl. apply NoDup_app. split; [done|]. split.
  - intros k' Hk' ->%list_elem_of_singleton. done.
  - apply NoDup_singleton.
Qed.

Lemma elem_of_mapGet k v m : NoDup m.*1 -> (k, v) ∈ m <-> mapGet k m = Some v.
Proof.
  induction m as [|[k' v'] m IH]; intros Hm.
  - rewrite mapGet_nil, elem_of_nil. split; [done | discriminate].
  - rewrite fmap_cons in Hm. simpl in Hm. apply NoDup_cons in Hm as [Hk' Hm].
    rewrite elem_of_cons, mapGet_cons, IH by done. case_decide as Hk.
    + subst. split.
      * intros [Heq|Hl]; [by injection Heq as ->|]. apply mapGet_None in Hk'. congruence.
      * intros [= ->]. by left.
    + split; [intros [Heq|?]; [by injection Heq | done] | by right].
Qed.

(** A [Map] filled by one pass over a list: the value under a key is the
    fold, from the initial value, over the items of that key. *)
Section Pass.

Context {A : Type} (key : A -> K) (init : V) (f : A -> V -> V).

Lemma pass_NoDup m xs : NoDup m.*1 -> NoDup (foldl (pass key init f) m xs).*1.
Proof.
  revert m. induction xs as [|x xs IH]; intros m Hm; simpl; [done|].
  apply IH. unfold LedgerQueries.pass. rewrite mapAlter_keys. by apply mapEnsure_NoDup.
Qed.

Lemma filter_absent xs k : k ∉ key <$> xs -> filter (fun x => key x = k) xs = [].
Proof.
  induction xs as [|x xs IH]; [done|]. rewrite fmap_cons, not_elem_of_cons. intros [Hne Hin].
  rewrite filter_cons_False by congruence. by apply IH.
Qed.

Lemma mapGet_pass m xs k :
  mapGet k (foldl (pass key init f) m xs) =
  if decide (k ∈ key <$> xs)
  then Some (foldl (fun v x => f x v) (default init (mapGet k m))
                   (filter (fun x => key x = k) xs))
  else mapGet k m.
Proof.
  revert m. induction xs as [|x xs IH]; intros m.
  - case_decide as Hin; [by apply elem_of_nil in Hin | done].
  - cbn [foldl]. rewrite IH. clear IH.
    assert (mapGet k (pass key init f m x)
            = if decide (key x = k) then Some (f x (default init (mapGet k m)))
              else mapGet k m) as ->.
    { unfold LedgerQueries.pass. rewrite mapGet_mapAlter, mapGet_mapEnsure.
      destruct (mapGet k m); repeat case_decide; done. }
    rewrite fmap_cons.
    destruct (decide (key x = k)) as [Hx|Hx].
    + rewrite filter_cons_True by done. cbn [foldl default].
      rewrite (decide_True (P := k ∈ key x :: _)) by (rewrite Hx; apply list_elem_of_here).
      case_decide as Hin; [done|]. by rewrite filter_absent.
    + rewrite filter_cons_False by done.
      destruct (decide (k ∈ key <$> xs)) as [Hin|Hin].
      * rewrite decide_True; [done|]. by apply list_elem_of_further.
      * rewrite decide_False; [done|]. rewrite not_elem_of_cons. split; [congruence | done].
Qed.

Lemma mapEnsure_keys k k' init' m :
  k ∈ (mapEnsure k' init' m).*1 <-> k ∈ m.*1 \/ k = k'.
Proof.
  unfold mapEnsure, mapHas. case_bool_decide as Hk'.
  - split; [by left|]. by intros [?| ->].
  - rewrite fmap_app, elem_of_app. simpl. by rewrite list_elem_of_singleton.
Qed.

Lemma pass_keys m xs k :
  k ∈ (foldl (pass key init f) m xs).*1 <-> k ∈ m.*1 \/ k ∈ key <$> xs.
Proof.
  revert m. induction xs as [|x xs IH]; intros m; cbn [foldl].
  - rewrite fmap_nil, elem_of_nil. tauto.
  - rewrite IH. unfold pass. rewrite mapAlter_keys, mapEnsure_keys, fmap_cons, elem_of_cons.
    tauto.
Qed.

End Pass.

End InsertionOrderProperties.

Section LedgerQueryProperties.

Import LedgerQueries.

Lemma sumZ_cons x l : sumZ (x :: l) = x + sumZ l.
Proof. done. Qed.

Lemma sumZ_app l1 l2 : sumZ (l1 ++ l2) = sumZ l1 + sumZ l2.
Proof. induction l1 as [|x l1 IH]; simpl; [done|]. rewrite IH. lia. Qed.

Lemma total_app ty l1 l2 : total ty (l1 ++ l2) = total ty l1 + total ty l2.
Proof. unfold total. by rewrite filter_app, fmap_app, sumZ_app. Qed.

Lemma totalIn_app ty c l1 l2 : totalIn ty c (l1 ++ l2) = totalIn ty c l1 + totalIn ty c l2.
Proof. unfold totalIn. by rewrite filter_app, total_app. Qed.

(** The sums of the groups add up to the sums of the rows, whatever part
    of the keys is looked at. *)
Section Groups.

Context {K : Type} `{EqDecision K} (by_ : LedgerEntry.t -> K).
Context (p : K -> Prop) `{!forall k, Decision (p k)}.

Lemma summed_cons k s m :
  summed p ((k, s) :: m) = (if decide (p k) then s else 0) + summed p m.
Proof.
  unfold summed. case_decide.
  - rewrite filter_cons_True by done. by rewrite fmap_cons, sumZ_cons.
  - rewrite filter_cons_False by done. lia.
Qed.

Lemma summed_app m1 m2 : summed p (m1 ++ m2) = summed p m1 + summed p m2.
Proof. unfold summed. by rewrite filter_app, fmap_app, sumZ_app. Qed.

Lemma summed_mapEnsure k m : summed p (mapEnsure k 0 m) = summed p m.
Proof.
  unfold mapEnsure. destruct (mapHas k m); [done|].
  rewrite summed_app, summed_cons. change (summed p []) with 0. case_decide; lia.
Qed.

Lemma summed_mapAlter k a m :
  k ∈ m.*1 ->
  summed p (mapAlter (fun sum => sum + a) k m) = summed p m + if decide (p k) then a else 0.
Proof.
  induction m as [|[k' s] m IH]; [by intros ?%elem_of_nil|].
  rewrite fmap_cons, elem_of_cons. cbn [mapAlter fst]. intros Hk.
  destruct (decide (k' = k)) as [->|Hne].
  - rewrite !summed_cons. case_decide; lia.
  - destruct Hk as [->|Hk]; [done|]. rewrite !summed_cons, IH by done. lia.
Qed.

Lemma summed_pass m rows :
  summed p (foldl (pass by_ 0 (fun row sum => sum + LedgerEntry.amount row)) m rows) =
  summed p m + sumZ (LedgerEntry.amount <$> filter (fun row => p (by_ row)) rows).
Proof.
  revert m. induction rows as [|row rows IH]; intros m; cbn [foldl].
  - simpl. lia.
  - rewrite IH. unfold pass. rewrite summed_mapAlter, summed_mapEnsure.
    + destruct (decide (p (by_ row))).
      * rewrite filter_cons_True by done. rewrite fmap_cons, sumZ_cons. lia.
      * rewrite filter_cons_False by done. lia.
    + apply mapEnsure_keys. by right.
Qed.

End Groups.

Lemma fmap_bind {A B C} (f : B -> C) (g : A -> list B) (l : list A) :
  f <$> (l ≫= g) = l ≫= fun x => f <$> g x.
Proof.
  induction l as [|x l IH]; [done|]. cbn [mbind list_bind]. by rewrite fmap_app, IH.
Qed.

Lemma foldl_pointwise {A B} (f g : B -> A -> B) b l :
  (forall b a, f b a = g b a) -> foldl f b l = foldl g b l.
Proof. intros Hfg. revert b. induction l as [|a l IH]; intros b; simpl; [done|]. by rewrite Hfg, IH. Qed.

Lemma filter_both {A} (P Q : A -> Prop) `{!forall a, Decision (P a)} `{!forall a, Decision (Q a)}
    (l : list A) :
  filter P (filter Q l) = filter (fun a => Q a /\ P a) l.
Proof.
  induction l as [|a l IH]; [done|].
  destruct (decide (Q a)); destruct (decide (P a)).
  - rewrite (filter_cons_True Q), (filter_cons_True P), (filter_cons_True (fun a => Q a /\ P a))
      by done. by rewrite IH.
  - rewrite (filter_cons_True Q), (filter_cons_False P),
      (filter_cons_False (fun a => Q a /\ P a)) by tauto. done.
  - rewrite (filter_cons_False Q), (filter_cons_False (fun a => Q a /\ P a)) by tauto. done.
  - rewrite (filter_cons_False Q), (filter_cons_False (fun a => Q a /\ P a)) by tauto. done.
Qed.

Lemma totalIn_eq ty c rows :
  totalIn ty c rows =
  sumZ (LedgerEntry.amount
          <$> filter (fun row => LedgerEntry.currency row = c /\ LedgerEntry.entryType row = ty)
                     rows).
Proof. unfold totalIn, total. by rewrite filter_both. Qed.

Lemma addToBalance_pass balanceMap entry :
  addToBalance balanceMap entry =
  pass (fun entry => entry.1.1) {| debitTotal := 0; creditTotal := 0 |}
       (fun entry => sumInto entry.1.2 entry.2) balanceMap entry.
Proof. unfold addToBalance, pass, sumInto. by case_decide. Qed.

Lemma sumInto_fold {K} (ty : K -> LedgerEntryType) bal (entries : list (K * option Z)) :
  foldl (fun v e => sumInto (ty e.1) e.2 v) bal entries =
  {| debitTotal :=
       debitTotal bal + sumZ ((fun e => default 0 e.2)
                                <$> filter (fun e => ty e.1 = DEBIT) entries);
     creditTotal :=
       creditTotal bal + sumZ ((fun e => default 0 e.2)
                                 <$> filter (fun e => ty e.1 = CREDIT) entries) |}.
Proof.
  revert bal. induction entries as [|[k sum] entries IH]; intros [d cr]; cbn [foldl].
  - simpl. f_equal; lia.
  - rewrite IH. unfold sumInto.
    set (isDebit := fun e : K * option Z => ty e.1 = DEBIT).
    set (isCredit := fun e : K * option Z => ty e.1 = CREDIT).
    cbn [fst snd]. destruct (ty k) eqn:Hty.
    + rewrite (filter_cons_True isDebit), (filter_cons_False isCredit)
        by (unfold isDebit, isCredit; simpl; congruence).
      rewrite fmap_cons, sumZ_cons. simpl. f_equal. lia.
    + rewrite (filter_cons_False isDebit), (filter_cons_True isCredit)
        by (unfold isDebit, isCredit; simpl; congruence).
      rewrite fmap_cons, sumZ_cons. simpl. f_equal. lia.
Qed.

Lemma sum_entries {K} `{EqDecision K} (p : K -> Prop) `{!forall k, Decision (p k)}
    (groups : list (K * Z)) :
  sumZ ((fun e : K * option Z => default 0 e.2)
          <$> filter (fun e => p e.1) ((fun g => (g.1, Some g.2)) <$> groups))
  = summed p groups.
Proof.
  induction groups as [|[k s] groups IH]; [done|].
  rewrite fmap_cons, summed_cons. simpl. case_decide.
  - rewrite filter_cons_True by done. rewrite fmap_cons, sumZ_cons, IH. done.
  - rewrite filter_cons_False by done. rewrite IH. lia.
Qed.

Lemma groupBy_keys {K} `{EqDecision K} (by_ : LedgerEntry.t -> K) rows k :
  k ∈ (groupBy by_ rows).*1 <-> k ∈ by_ <$> rows.
Proof.
  unfold groupBy. rewrite <-list_fmap_compose.
  change (k ∈ (foldl (pass by_ 0 (fun row sum => sum + LedgerEntry.amount row)) [] rows).*1
          <-> k ∈ by_ <$> rows).
  rewrite pass_keys. rewrite fmap_nil, elem_of_nil. tauto.
Qed.

Lemma groupBy_total {K} `{EqDecision K} (by_ : LedgerEntry.t -> K)
    (p : K -> Prop) `{!forall k, Decision (p k)} rows :
  sumZ ((fun e : K * option Z => default 0 e.2)
          <$> filter (fun e => p e.1) (groupBy by_ rows))
  = sumZ (LedgerEntry.amount <$> filter (fun row => p (by_ row)) rows).
Proof. unfold groupBy. rewrite sum_entries, summed_pass. done. Qed.

Lemma groupBy_totalIn rows c ty :
  sumZ ((fun e : Currency * LedgerEntryType * option Z => default 0 e.2)
          <$> filter (fun e => e.1.2 = ty)
                (filter (fun e => e.1.1 = c)
                   (groupBy (fun row => (LedgerEntry.currency row, LedgerEntry.entryType row))
                            rows)))
  = totalIn ty c rows.
Proof.
  rewrite filter_both, totalIn_eq.
  etrans; [|etrans;
    [apply (groupBy_total (fun row => (LedgerEntry.currency row, LedgerEntry.entryType row))
                          (fun k => k.1 = c /\ k.2 = ty))|]].
  - by do 2 f_equal.
  - by do 2 f_equal.
Qed.

Lemma getAccountBalance_run accountCode currency asOf db :
  let rows := accountEntries accountCode currency asOf db in
  exists balances,
    getAccountBalance accountCode currency asOf db = (Ok balances, db) /\
    NoDup (AccountBalance.currency <$> balances) /\
    forall b, b ∈ balances <->
      AccountBalance.currency b ∈ (LedgerEntry.currency <$> rows) /\
      b = {| AccountBalance.accountCode := accountCode;
             AccountBalance.currency := AccountBalance.currency b;
             AccountBalance.debitTotal := totalIn DEBIT (AccountBalance.currency b) rows;
             AccountBalance.creditTotal := totalIn CREDIT (AccountBalance.currency b) rows;
             AccountBalance.balance :=
               totalIn DEBIT (AccountBalance.currency b) rows
               - totalIn CREDIT (AccountBalance.currency b) rows |}.
Proof.
  intros rows. eexists. split; [reflexivity|]. fold rows.
  set (groups := groupBy _ rows).
  rewrite (foldl_pointwise _ _ _ _ addToBalance_pass).
  set (balanceMap := foldl _ [] groups).
  assert (NoDup balanceMap.*1) as Hnodup by (apply pass_NoDup; constructor).
  assert (forall c, mapGet c balanceMap =
            if decide (c ∈ LedgerEntry.currency <$> rows)
            then Some {| debitTotal := totalIn DEBIT c rows;
                         creditTotal := totalIn CREDIT c rows |}
            else None) as Hget.
  { intros c. subst balanceMap. rewrite mapGet_pass.
    assert (c ∈ (fun entry : Currency * LedgerEntryType * option Z => entry.1.1) <$> groups
            <-> c ∈ LedgerEntry.currency <$> rows) as Hc.
    { rewrite !list_elem_of_fmap. split.
      - intros (e & -> & He).
        assert (e.1 ∈ groups.*1) as Hk by (apply list_elem_of_fmap; eauto).
        apply groupBy_keys, list_elem_of_fmap in Hk as (row & Hrow & ?).
        exists row. rewrite Hrow. done.
      - intros (row & -> & Hrow).
        assert ((LedgerEntry.currency row, LedgerEntry.entryType row) ∈ groups.*1) as Hk.
        { apply groupBy_keys, list_elem_of_fmap. eauto. }
        apply list_elem_of_fmap in Hk as (e & He & ?). exists e. by rewrite <-He. }
    destruct (decide (c ∈ LedgerEntry.currency <$> rows)) as [Hin|Hin].
    - rewrite decide_True by (by apply Hc). f_equal.
      rewrite (sumInto_fold (fun k : Currency * LedgerEntryType => k.2)). simpl.
      subst groups. by rewrite !groupBy_totalIn.
    - rewrite decide_False by (by rewrite Hc). done. }
  split.
  - rewrite <-list_fmap_compose. done.
  - intros b. rewrite list_elem_of_fmap. split.
    + intros ([c bal] & -> & Hin). apply elem_of_mapGet in Hin; [|done].
      rewrite Hget in Hin. simpl. case_decide; [|done]. injection Hin as <-. done.
    + intros [Hin Hb]. exists (AccountBalance.currency b,
                               {| debitTotal := totalIn DEBIT (AccountBalance.currency b) rows;
                                  creditTotal := totalIn CREDIT (AccountBalance.currency b) rows |}).
      split; [done|]. apply elem_of_mapGet; [done|]. rewrite Hget. by rewrite decide_True.
Qed.

(** X1. [getAccountBalance] answers one line for each currency found among
    the entries of the account it selects, and none for any other: the
    line carries the sum of the debits and the sum of the credits in that
    currency, and their difference as the balance. *)
Theorem getAccountBalance_totals accountCode currency asOf db :
  let rows := accountEntries accountCode currency asOf db in
  exists balances,
    getAccountBalance accountCode currency asOf db = (Ok balances, db) /\
    NoDup (AccountBalance.currency <$> balances) /\
    forall b, b ∈ balances <->
      AccountBalance.currency b ∈ (LedgerEntry.currency <$> rows) /\
      b = {| AccountBalance.accountCode := accountCode;
             AccountBalance.currency := AccountBalance.currency b;
             AccountBalance.debitTotal := totalIn DEBIT (AccountBalance.currency b) rows;
             AccountBalance.creditTotal := totalIn CREDIT (AccountBalance.currency b) rows;
             AccountBalance.balance :=
               totalIn DEBIT (AccountBalance.currency b) rows
               - totalIn CREDIT (AccountBalance.currency b) rows |}.
Proof. apply getAccountBalance_run. Qed.

Lemma addToSummary_fold st entries :
  let zero := {| debitTotal := 0; creditTotal := 0 |} in
  foldl addToSummary st entries =
  {| accountMap :=
       foldl (pass (fun e : string * Currency * LedgerEntryType * option Z => e.1.1.1) []
                   (fun e currencyMap =>
                      pass (fun e : string * Currency * LedgerEntryType * option Z => e.1.1.2)
                           zero (fun e => sumInto e.1.2 e.2) currencyMap e))
             (accountMap st) entries;
     totalDebits :=
       totalDebits st + sumZ ((fun e => default 0 e.2)
                                <$> filter (fun e => e.1.2 = DEBIT) entries);
     totalCredits :=
       totalCredits st + sumZ ((fun e => default 0 e.2)
                                 <$> filter (fun e => e.1.2 = CREDIT) entries) |}.
Proof.
  intros zero. revert st. induction entries as [|[[[code c] ty] sum] entries IH];
    intros [am d cr]; cbn [foldl].
  - simpl. f_equal; lia.
  - rewrite IH.
    set (isDebit := fun e : string * Currency * LedgerEntryType * option Z => e.1.2 = DEBIT).
    set (isCredit := fun e : string * Currency * LedgerEntryType * option Z => e.1.2 = CREDIT).
    unfold addToSummary. cbn [fst snd]. destruct ty.
    + rewrite (filter_cons_True isDebit), (filter_cons_False isCredit) by done.
      rewrite fmap_cons, sumZ_cons. simpl. f_equal. lia.
    + rewrite (filter_cons_False isDebit), (filter_cons_True isCredit) by done.
      rewrite fmap_cons, sumZ_cons. simpl. f_equal. lia.
Qed.

Lemma groupBy_total_type rows ty :
  sumZ ((fun e : string * Currency * LedgerEntryType * option Z => default 0 e.2)
          <$> filter (fun e => e.1.2 = ty)
                (groupBy (fun row => (LedgerEntry.accountCode row, LedgerEntry.currency row,
                                      LedgerEntry.entryType row)) rows))
  = total ty rows.
Proof.
  etrans; [|etrans;
    [apply (groupBy_total (fun row => (LedgerEntry.accountCode row, LedgerEntry.currency row,
                                       LedgerEntry.entryType row))
                          (fun k => k.2 = ty))|]].
  - by do 2 f_equal.
  - by do 2 f_equal.
Qed.

Lemma groupBy_total_account rows code c ty :
  sumZ ((fun e : string * Currency * LedgerEntryType * option Z => default 0 e.2)
          <$> filter (fun e => e.1.2 = ty)
                (filter (fun e => e.1.1.2 = c)
                   (filter (fun e => e.1.1.1 = code)
                      (groupBy (fun row => (LedgerEntry.accountCode row,
                                            LedgerEntry.currency row,
                                            LedgerEntry.entryType row)) rows))))
  = totalIn ty c (ofAccount code rows).
Proof.
  rewrite !filter_both. unfold totalIn, total, ofAccount. rewrite !filter_both.
  etrans; [|etrans;
    [apply (groupBy_total (fun row => (LedgerEntry.accountCode row, LedgerEntry.currency row,
                                       LedgerEntry.entryType row))
                          (fun k => k.1.1 = code /\ k.1.2 = c /\ k.2 = ty))|]].
  - by do 2 f_equal.
  - by do 2 f_equal.
Qed.

(** X2. The totals of [getLedgerSummary] are the sums of the debits and of
    the credits of the entries it selects, [isBalanced] says whether the
    two are equal, and there is one account line for each pair of an
    account and a currency found among the entries, with the sums of that
    account in that currency. *)
Theorem getLedgerSummary_totals currency fromDate toDate db :
  let rows := summaryEntries currency fromDate toDate db in
  exists summary,
    getLedgerSummary currency fromDate toDate db = (Ok summary, db) /\
    LedgerSummary.totalDebits summary = total DEBIT rows /\
    LedgerSummary.totalCredits summary = total CREDIT rows /\
    LedgerSummary.isBalanced summary = bool_decide (total DEBIT rows = total CREDIT rows) /\
    NoDup ((fun a => (AccountBalance.accountCode a, AccountBalance.currency a))
             <$> LedgerSummary.accounts summary) /\
    forall a, a ∈ LedgerSummary.accounts summary <->
      (AccountBalance.accountCode a, AccountBalance.currency a)
        ∈ ((fun row => (LedgerEntry.accountCode row, LedgerEntry.currency row)) <$> rows) /\
      let own := ofAccount (AccountBalance.accountCode a) rows in
      AccountBalance.debitTotal a = totalIn DEBIT (AccountBalance.currency a) own /\
      AccountBalance.creditTotal a = totalIn CREDIT (AccountBalance.currency a) own /\
      AccountBalance.balance a = AccountBalance.debitTotal a - AccountBalance.creditTotal a.
Proof.
  intros rows. eexists. split; [reflexivity|]. fold rows.
  set (groups := groupBy _ rows). rewrite addToSummary_fold. cbn [LedgerQueries.accountMap
    LedgerQueries.totalDebits LedgerQueries.totalCredits LedgerSummary.totalDebits
    LedgerSummary.totalCredits LedgerSummary.isBalanced LedgerSummary.accounts].
  subst groups. rewrite !groupBy_total_type, !Z.add_0_l.
  split; [done|]. split; [done|]. split.
  { destruct (Z.eqb_spec (total DEBIT rows) (total CREDIT rows)).
    - by rewrite bool_decide_eq_true_2.
    - by rewrite bool_decide_eq_false_2. }
  set (groups := groupBy _ rows).
  set (zero := {| debitTotal := 0; creditTotal := 0 |}).
  set (inner := pass (fun e : string * Currency * LedgerEntryType * option Z => e.1.1.2)
                     zero (fun e => sumInto e.1.2 e.2)).
  set (accountMap := foldl _ [] groups).
  set (own code := foldl inner [] (filter (fun e => e.1.1.1 = code) groups)).
  assert (NoDup accountMap.*1) as Hnodup by (apply pass_NoDup; constructor).
  assert (forall code currencyMap,
            (code, currencyMap) ∈ accountMap <->
            code ∈ LedgerEntry.accountCode <$> rows /\ currencyMap = own code) as Hown.
  { intros code currencyMap. rewrite elem_of_mapGet by done.
    subst accountMap. rewrite mapGet_pass, mapGet_nil. cbn [default].
    assert (code ∈ (fun e : string * Currency * LedgerEntryType * option Z => e.1.1.1)
                     <$> groups
            <-> code ∈ LedgerEntry.accountCode <$> rows) as Hcode.
    { rewrite !list_elem_of_fmap. split.
      - intros (e & -> & He).
        assert (e.1 ∈ groups.*1) as Hk by (apply list_elem_of_fmap; eauto).
        apply groupBy_keys, list_elem_of_fmap in Hk as (row & Hrow & ?).
        exists row. rewrite Hrow. done.
      - intros (row & -> & Hrow).
        assert ((LedgerEntry.accountCode row, LedgerEntry.currency row,
                 LedgerEntry.entryType row) ∈ groups.*1) as Hk.
        { apply groupBy_keys, list_elem_of_fmap. eauto. }
        apply list_elem_of_fmap in Hk as (e & He & ?). exists e. by rewrite <-He. }
    case_decide as Hin.
    - split; [intros [= <-]; split; [by apply Hcode | done] | by intros [_ ->]].
    - split; [done | intros [? _]; exfalso; by apply Hin, Hcode]. }
  assert (forall code, NoDup (own code).*1) as Hnodup' by (intros; apply pass_NoDup; constructor).
  assert (forall code c bal,
            (c, bal) ∈ own code <->
            (code, c) ∈ ((fun row => (LedgerEntry.accountCode row, LedgerEntry.currency row))
                           <$> rows) /\
            bal = {| debitTotal := totalIn DEBIT c (ofAccount code rows);
                     creditTotal := totalIn CREDIT c (ofAccount code rows) |}) as Hbal.
  { intros code c bal. rewrite elem_of_mapGet by done. unfold own, inner.
    rewrite mapGet_pass, mapGet_nil. cbn [default].
    set (mine := filter _ groups).
    assert (c ∈ (fun e : string * Currency * LedgerEntryType * option Z => e.1.1.2) <$> mine
            <-> (code, c) ∈ ((fun row => (LedgerEntry.accountCode row,
                                           LedgerEntry.currency row)) <$> rows)) as Hc.
    { rewrite !list_elem_of_fmap. split.
      - intros (e & -> & [Hcode He]%list_elem_of_filter).
        assert (e.1 ∈ groups.*1) as Hk by (apply list_elem_of_fmap; eauto).
        apply groupBy_keys, list_elem_of_fmap in Hk as (row & Hrow & ?).
        exists row. rewrite <-Hcode, Hrow. done.
      - intros (row & [= -> ->] & Hrow).
        assert ((LedgerEntry.accountCode row, LedgerEntry.currency row,
                 LedgerEntry.entryType row) ∈ groups.*1) as Hk.
        { apply groupBy_keys, list_elem_of_fmap. eauto. }
        apply list_elem_of_fmap in Hk as (e & He & ?). exists e.
        split; [by rewrite <-He|]. apply list_elem_of_filter. by rewrite <-He. }
    assert (foldl (fun v e => sumInto e.1.2 e.2 v) zero
                  (filter (fun e => e.1.1.2 = c) mine)
            = {| debitTotal := totalIn DEBIT c (ofAccount code rows);
                 creditTotal := totalIn CREDIT c (ofAccount code rows) |}) as ->.
    { rewrite (sumInto_fold (fun k : string * Currency * LedgerEntryType => k.2)).
      subst mine groups. rewrite !groupBy_total_account. simpl. f_equal. }
    case_decide as Hin.
    - split; [intros [= <-]; split; [by apply Hc | done] | by intros [_ ->]].
    - split; [done | intros [? _]; exfalso; by apply Hin, Hc]. }
  split.
  - rewrite fmap_bind. apply NoDup_bind.
    + intros [code1 cm1] [code2 cm2] pair H1 H2.
      rewrite !list_elem_of_fmap. intros (a1 & -> & Ha1) (a2 & Heq & Ha2).
      apply list_elem_of_fmap in Ha1 as (e1 & -> & _).
      apply list_elem_of_fmap in Ha2 as (e2 & -> & _).
      simpl in *. injection Heq as -> _.
      apply Hown in H1 as [_ ->]. apply Hown in H2 as [_ ->]. done.
    + intros [code cm] Hin. apply Hown in Hin as [_ ->]. simpl.
      rewrite <-list_fmap_compose.
      apply (NoDup_fmap_2_strong _); [|by eapply NoDup_fmap_1, Hnodup'].
      intros [c1 b1] [c2 b2] Hin1 Hin2 [= ->].
      apply Hbal in Hin1 as [_ ->]. apply Hbal in Hin2 as [_ ->]. done.
    + by eapply NoDup_fmap_1.
  - intros a. rewrite list_elem_of_bind. split.
    + intros ([code cm] & Ha & Hin). apply Hown in Hin as [_ ->].
      apply list_elem_of_fmap in Ha as ([c bal] & -> & Hin).
      apply Hbal in Hin as [Hpair ->]. simpl. done.
    + intros (Hpair & Hd & Hc & Hb).
      exists (AccountBalance.accountCode a, own (AccountBalance.accountCode a)). split.
      * apply list_elem_of_fmap.
        exists (AccountBalance.currency a,
                {| debitTotal := AccountBalance.debitTotal a;
                   creditTotal := AccountBalance.creditTotal a |}).
        split; [destruct a; simpl in *; by subst|].
        apply Hbal. split; [done|]. by rewrite Hd, Hc.
      * apply Hown. split; [|done].
        apply list_elem_of_fmap in Hpair as (row & [= -> _] & Hrow).
        apply list_elem_of_fmap. eauto.
Qed.

End LedgerQueryProperties.

Section OrderProperties.

Import Routing.

Lemma insertByPriority_perm {A} (priority : A -> Z) x sorted :
  insertByPriority priority x sorted ≡ₚ x :: sorted.
Proof.
  induction sorted as [|y rest IH]; simpl; [done|].
  destruct (priority y <=? priority x); [|done].
  rewrite IH. apply Permutation_swap.
Qed.

Lemma orderByPriority_perm {A} (priority : A -> Z) rows :
  orderByPriority priority rows ≡ₚ rows.
Proof.
  unfold orderByPriority.
  assert (forall acc, foldl (fun sorted x => insertByPriority priority x sorted) acc rows
                      ≡ₚ acc ++ rows) as Hacc.
  { induction rows as [|x rows IH]; intros acc; simpl; [by rewrite app_nil_r|].
    rewrite IH, insertByPriority_perm. simpl. apply Permutation_middle. }
  apply Hacc.
Qed.

Lemma insertByPriority_sorted {A} (priority : A -> Z) x sorted :
  StronglySorted (ascending priority) sorted ->
  StronglySorted (ascending priority) (insertByPriority priority x sorted).
Proof.
  induction 1 as [|y rest Hrest IH Hy]; simpl; [repeat constructor|].
  destruct (Z.leb_spec (priority y) (priority x)).
  - constructor; [done|]. rewrite insertByPriority_perm. constructor; [done|done].
  - constructor; [by constructor|]. constructor; [unfold ascending; lia|].
    eapply Forall_impl; [exact Hy|]. unfold ascending. intros z ?; simpl in *. lia.
Qed.

Lemma orderByPriority_sorted {A} (priority : A -> Z) rows :
  StronglySorted (ascending priority) (orderByPriority priority rows).
Proof.
  unfold orderByPriority.
  assert (forall acc, StronglySorted (ascending priority) acc ->
            StronglySorted (ascending priority)
              (foldl (fun sorted x => insertByPriority priority x sorted) acc rows)) as Hacc.
  { induction rows as [|x rows IH]; intros acc Hacc; simpl; [done|].
    by apply IH, insertByPriority_sorted. }
  apply Hacc. constructor.
Qed.

End OrderProperties.

Section LedgerWriteProperties.

Import Ledger LedgerQueries LedgerWrites.

Lemma toLedgerEntryResponse_id (row : LedgerEntry.t) : toLedgerEntryResponse row = row.
Proof. by destruct row. Qed.

Lemma toLedgerEntryResponse_fmap (rows : list LedgerEntry.t) :
  toLedgerEntryResponse <$> rows = rows.
Proof.
  induction rows as [|row rows IH]; [done|].
  by rewrite fmap_cons, toLedgerEntryResponse_id, IH.
Qed.

Lemma createAll_madeFrom entries rows createdAt :
  Forall2 (madeFrom createdAt) entries (createAll entries rows createdAt).
Proof.
  revert rows. induction entries as [|entry entries IH]; intros rows; simpl; constructor.
  - by repeat split.
  - apply IH.
Qed.

(** X3. A call of [recordEntries] that returns has written one row for each
    entry, in the order of the entries and after the rows that were there,
    each with the fields of its entry (the transaction id is the entry's
    own), an empty object for absent metadata, no balance and the time of
    the call; it returns these rows and touches nothing else. *)
Theorem recordEntries_writes_entries_in_order tid entries db created db' :
  recordEntries tid entries db = (Ok created, db') ->
  db' = set_ledgerEntry (fun rows => rows ++ created) db /\
  Forall2 (madeFrom (now db)) entries created.
Proof.
  unfold recordEntries, bind, get. simpl.
  destruct (transaction db !! tid); [|done]. unfold lift.
  destruct (validateBalance tid entries); [|done].
  unfold createBatch, bind, get, modify, ret. simpl. intros [= <- <-].
  rewrite toLedgerEntryResponse_fmap. split; [done|]. apply createAll_madeFrom.
Qed.

(** A debit and a credit of one amount in one currency pass the balance
    check, whatever the amount. *)
Lemma recordEntries_pair tid debited credited amount currency d1 d2 db :
  is_Some (transaction db !! tid) ->
  exists id1 id2,
    let rows := [posted db id1 tid debited DEBIT amount currency d1;
                 posted db id2 tid credited CREDIT amount currency d2] in
    recordEntries tid [posting tid debited DEBIT amount currency d1;
                       posting tid credited CREDIT amount currency d2] db
    = (Ok rows, set_ledgerEntry (fun old => old ++ rows) db).
Proof.
  intros Htid. rewrite recordEntries_known by done.
  assert (validateBalance tid [posting tid debited DEBIT amount currency d1;
                               posting tid credited CREDIT amount currency d2] = Ok tt) as ->.
  { apply validateBalance_ok. intros c _. unfold sumOf, posting. simpl.
    repeat case_decide; intuition (try congruence); lia. }
  eexists _, _. simpl. reflexivity.
Qed.

(** X4. For a transaction that exists, [recordPayment], [recordRefund] and
    [recordFxSpread] always go through: each writes the debit and the
    credit of its pair of accounts, for the amount and in the currency
    given, and is never refused as unbalanced, whatever the amount. *)
Theorem posting_builders_balanced tid amount currency merchantId db :
  is_Some (transaction db !! tid) ->
  (exists id1 id2,
     let rows := [posted db id1 tid CASH DEBIT amount currency
                    "Payment received from customer";
                  posted db id2 tid MERCHANT_PAYABLE CREDIT amount currency
                    "Payable to merchant"] in
     recordPayment tid amount currency merchantId db
     = (Ok rows, set_ledgerEntry (fun old => old ++ rows) db)) /\
  (exists id1 id2,
     let rows := [posted db id1 tid REFUND_PAYABLE DEBIT amount currency
                    "Refund issued to customer";
                  posted db id2 tid CASH CREDIT amount currency
                    "Cash outflow for refund"] in
     recordRefund tid amount currency merchantId db
     = (Ok rows, set_ledgerEntry (fun old => old ++ rows) db)) /\
  (exists id1 id2,
     let rows := [posted db id1 tid FX_RECEIVABLE DEBIT amount currency
                    "FX spread receivable";
                  posted db id2 tid FX_REVENUE CREDIT amount currency
                    "FX spread revenue"] in
     recordFxSpread tid amount currency db
     = (Ok rows, set_ledgerEntry (fun old => old ++ rows) db)).
Proof.
  intros Htid. repeat split; by apply recordEntries_pair.
Qed.

End LedgerWriteProperties.

Section LedgerBalanceProperties.

Import Ledger LedgerQueries LedgerWrites.

Lemma getLedgerSummary_sums currency fromDate toDate db :
  exists summary,
    getLedgerSummary currency fromDate toDate db = (Ok summary, db) /\
    LedgerSummary.totalDebits summary
      = total DEBIT (summaryEntries currency fromDate toDate db) /\
    LedgerSummary.totalCredits summary
      = total CREDIT (summaryEntries currency fromDate toDate db) /\
    LedgerSummary.isBalanced summary
      = (LedgerSummary.totalDebits summary =? LedgerSummary.totalCredits summary).
Proof.
  eexists. split; [reflexivity|].
  fold (summaryEntries currency fromDate toDate db).
  set (groups := groupBy _ _). rewrite addToSummary_fold.
  cbn [LedgerQueries.totalDebits LedgerQueries.totalCredits LedgerSummary.totalDebits
       LedgerSummary.totalCredits LedgerSummary.isBalanced].
  subst groups. by rewrite !groupBy_total_type, !Z.add_0_l.
Qed.

Lemma filter_all {A} (P : A -> Prop) `{!forall a, Decision (P a)} (l : list A) :
  Forall P l -> filter P l = l.
Proof.
  induction 1 as [|a l Ha _ IH]; [done|]. by rewrite filter_cons_True, IH.
Qed.

Lemma filter_none {A} (P : A -> Prop) `{!forall a, Decision (P a)} (l : list A) :
  Forall (fun a => ~ P a) l -> filter P l = [].
Proof.
  induction 1 as [|a l Ha _ IH]; [done|]. by rewrite filter_cons_False.
Qed.

Lemma total_nil ty : total ty [] = 0.
Proof. done. Qed.

Lemma total_cons ty row rows :
  total ty (row :: rows)
  = (if decide (LedgerEntry.entryType row = ty) then LedgerEntry.amount row else 0)
    + total ty rows.
Proof.
  unfold total. rewrite filter_cons. case_decide; [|lia].
  by rewrite fmap_cons, sumZ_cons.
Qed.

(** The rows of the currencies [cs], summed currency by currency. *)
Lemma total_by_currency ty cs rows :
  NoDup cs ->
  sumZ ((fun c => totalIn ty c rows) <$> cs)
  = total ty (filter (fun row => LedgerEntry.currency row ∈ cs) rows).
Proof.
  induction 1 as [|c cs Hc Hcs IH].
  - simpl. induction rows as [|row rows IHrows]; [done|].
    rewrite filter_cons_False; [done|]. apply not_elem_of_nil.
  - rewrite fmap_cons, sumZ_cons, IH. clear IH. unfold totalIn.
    induction rows as [|row rows IHrows]; [done|].
    rewrite !filter_cons.
    destruct (decide (LedgerEntry.currency row = c)) as [Heq|Hne],
             (decide (LedgerEntry.currency row ∈ cs)) as [Hin|Hnin],
             (decide (LedgerEntry.currency row ∈ c :: cs)) as [Hin'|Hnin'];
      rewrite ?total_cons; try lia.
    all: exfalso.
    all: try (rewrite Heq in *).
    all: rewrite ?elem_of_cons in *; tauto.
Qed.

Lemma total_currencies ty rows :
  total ty rows
  = sumZ ((fun c => totalIn ty c rows) <$> remove_dups (LedgerEntry.currency <$> rows)).
Proof.
  rewrite total_by_currency by apply NoDup_remove_dups. f_equal.
  symmetry. apply filter_all, Forall_forall. intros row Hrow.
  apply elem_of_remove_dups, list_elem_of_fmap. eauto.
Qed.

Lemma madeFrom_totalIn createdAt ty c entries created :
  Forall2 (madeFrom createdAt) entries created ->
  totalIn ty c created = sumOf ty c entries.
Proof.
  unfold totalIn. induction 1 as [|entry row entries created Hrow _ IH]; [done|].
  destruct Hrow as (_ & _ & Hty & Ham & Hcur & _).
  simpl. fold (sumOf ty c entries). rewrite filter_cons, Hcur. rewrite <-IH.
  destruct (decide (CreateLedgerEntryRequest.currency entry = c)) as [Hc|Hc].
  - rewrite total_cons, Hty, Ham. repeat case_decide; intuition lia.
  - case_decide; intuition lia.
Qed.

Lemma madeFrom_currencies createdAt entries created :
  Forall2 (madeFrom createdAt) entries created ->
  LedgerEntry.currency <$> created = CreateLedgerEntryRequest.currency <$> entries.
Proof.
  induction 1 as [|entry row entries created Hrow _ IH]; [done|].
  destruct Hrow as (_ & _ & _ & _ & Hcur & _). by rewrite !fmap_cons, Hcur, IH.
Qed.

Lemma balanced_totalIn createdAt entries created c :
  balanced entries ->
  Forall2 (madeFrom createdAt) entries created ->
  totalIn DEBIT c created = totalIn CREDIT c created.
Proof.
  intros Hbal Hmade. rewrite !(madeFrom_totalIn _ _ _ _ _ Hmade).
  destruct (decide (c ∈ CreateLedgerEntryRequest.currency <$> entries)) as [Hin|Hnin].
  - by apply Hbal.
  - by rewrite !sumOf_absent.
Qed.

Lemma balanced_total createdAt entries created :
  balanced entries ->
  Forall2 (madeFrom createdAt) entries created ->
  total DEBIT created = total CREDIT created.
Proof.
  intros Hbal Hmade. rewrite !total_currencies. f_equal.
  apply Forall_fmap_ext_1, Forall_forall. intros c _. by eapply balanced_totalIn.
Qed.

Lemma filter_constant {A} (P : A -> Prop) `{!forall a, Decision (P a)} (l : list A) :
  (forall a b, a ∈ l -> b ∈ l -> P a -> P b) ->
  filter P l = l \/ filter P l = [].
Proof.
  intros Hsame. destruct (decide (Exists P l)) as [Hex|Hnone].
  - left. apply filter_all, Forall_forall. intros b Hb.
    apply Exists_exists in Hex as (a & Ha & HPa). eauto.
  - right. apply filter_none. by apply not_Exists_Forall.
Qed.

Lemma recordEntries_Ok tid entries db created db' :
  recordEntries tid entries db = (Ok created, db') ->
  is_Some (transaction db !! tid) /\ balanced entries /\
  db' = set_ledgerEntry (fun rows => rows ++ created) db /\
  Forall2 (madeFrom (now db)) entries created.
Proof.
  unfold recordEntries, bind, get. simpl.
  destruct (transaction db !! tid) eqn:Htid; [|done]. unfold lift.
  destruct (validateBalance tid entries) as [[]|] eqn:Hbal; [|done].
  unfold createBatch, bind, get, modify, ret. simpl. intros [= <- <-].
  rewrite toLedgerEntryResponse_fmap. split; [done|].
  split; [by apply validateBalance_ok in Hbal|]. split; [done|]. apply createAll_madeFrom.
Qed.

Lemma selected_balanced createdAt entries created currency fromDate toDate :
  balanced entries ->
  Forall2 (madeFrom createdAt) entries created ->
  let selected :=
    filter (fun row => inCurrency currency row /\ after fromDate row /\ before toDate row)
           created in
  total DEBIT selected = total CREDIT selected.
Proof.
  intros Hbal Hmade selected. subst selected. rewrite <-filter_both.
  assert (Forall (fun row => LedgerEntry.createdAt row = createdAt) created) as Hat.
  { clear Hbal. induction Hmade as [|entry row entries created Hrow _ IH]; constructor; [|done].
    by destruct Hrow as (_ & _ & _ & _ & _ & _ & _ & _ & ?). }
  rewrite Forall_forall in Hat.
  destruct (filter_constant (fun row => after fromDate row /\ before toDate row)
              (filter (inCurrency currency) created)) as [-> | ->]; [| |done].
  { intros a b [_ Ha]%list_elem_of_filter [_ Hb]%list_elem_of_filter.
    unfold after, before. by rewrite (Hat a Ha), (Hat b Hb). }
  destruct currency as [c|].
  - apply (balanced_totalIn _ _ _ c Hbal Hmade).
  - rewrite filter_all by (by apply Forall_forall). by eapply balanced_total.
Qed.

(** X5. Recording entries never changes by how much the debits and the
    credits of a ledger summary differ, for any currency filter and any
    date window: a summary that was balanced stays balanced, and one that
    was not stays unbalanced by the same amount. *)
Theorem recordEntries_keeps_summary_difference
    tid entries db created db' currency fromDate toDate :
  recordEntries tid entries db = (Ok created, db') ->
  exists old new,
    getLedgerSummary currency fromDate toDate db = (Ok old, db) /\
    getLedgerSummary currency fromDate toDate db' = (Ok new, db') /\
    LedgerSummary.totalDebits new - LedgerSummary.totalCredits new
      = LedgerSummary.totalDebits old - LedgerSummary.totalCredits old /\
    LedgerSummary.isBalanced new = LedgerSummary.isBalanced old.
Proof.
  intros (_ & Hbal & -> & Hmade)%recordEntries_Ok.
  destruct (getLedgerSummary_sums currency fromDate toDate db)
    as (old & Hold & Hd & Hc & Hb).
  destruct (getLedgerSummary_sums currency fromDate toDate
              (set_ledgerEntry (fun rows => rows ++ created) db))
    as (new & Hnew & Hd' & Hc' & Hb').
  exists old, new. split; [done|]. split; [done|].
  assert (LedgerSummary.totalDebits new - LedgerSummary.totalCredits new
          = LedgerSummary.totalDebits old - LedgerSummary.totalCredits old) as Hdiff.
  { rewrite Hd, Hc, Hd', Hc'. unfold summaryEntries. cbn [ledgerEntry set_ledgerEntry].
    rewrite filter_app, !total_app.
    pose proof (selected_balanced (now db) entries created currency fromDate toDate
                  Hbal Hmade) as Hsel. simpl in Hsel. lia. }
  split; [done|]. rewrite Hb, Hb'.
  destruct (Z.eqb_spec (LedgerSummary.totalDebits new) (LedgerSummary.totalCredits new)),
           (Z.eqb_spec (LedgerSummary.totalDebits old) (LedgerSummary.totalCredits old));
    first [done | lia].
Qed.

End LedgerBalanceProperties.

Section LedgerReadProperties.

Import Ledger LedgerQueries LedgerWrites.

Lemma getEntriesByTransaction_run tid db :
  exists entries,
    getEntriesByTransaction tid db = (Ok entries, db) /\
    entries ≡ₚ filter (fun row => LedgerEntry.transactionId row = tid) (ledgerEntry db) /\
    StronglySorted (ascending LedgerEntry.createdAt) entries.
Proof.
  eexists. split; [reflexivity|]. rewrite toLedgerEntryResponse_fmap.
  split; [apply orderByPriority_perm | apply orderByPriority_sorted].
Qed.

(** X6. [LedgerController.getEntriesByTransaction] answers 404 exactly
    when no ledger entry carries the transaction id (whether or not the
    transaction exists); otherwise it returns all the entries of the
    transaction and no other, by ascending creation time.  It never changes
    the store. *)
Theorem controller_getEntriesByTransaction_cases tid db :
  let own := filter (fun row => LedgerEntry.transactionId row = tid) (ledgerEntry db) in
  (own = [] /\
   controller_getEntriesByTransaction tid db
   = (Throw (AppError ("No ledger entries found for transaction " +:+ tid) 404), db)) \/
  (own <> [] /\
   exists entries,
     controller_getEntriesByTransaction tid db = (Ok entries, db) /\
     entries ≡ₚ own /\
     StronglySorted (ascending LedgerEntry.createdAt) entries).
Proof.
  intros own. destruct (getEntriesByTransaction_run tid db) as (entries & Hrun & Hperm & Hsort).
  fold own in Hperm. unfold controller_getEntriesByTransaction, bind. rewrite Hrun.
  destruct entries as [|entry entries].
  - left. split; [|done]. by apply Permutation_nil_l in Hperm.
  - right. split.
    + intros Hown. rewrite Hown in Hperm. by apply Permutation_nil_r in Hperm.
    + by exists (entry :: entries).
Qed.

(** X7. After an accepted [POST /ledger/entries], reading the transaction
    back does not answer 404: it returns the entries the transaction had
    before together with the rows just created, by ascending creation
    time. *)
Theorem postEntries_then_read invalid body db created db' :
  postEntries invalid body db = (Ok created, db') ->
  let tid := CreateLedgerEntriesBody.transactionId body in
  exists entries,
    controller_getEntriesByTransaction tid db' = (Ok entries, db') /\
    entries ≡ₚ filter (fun row => LedgerEntry.transactionId row = tid) (ledgerEntry db)
               ++ created /\
    (2 <= length created)%nat /\
    StronglySorted (ascending LedgerEntry.createdAt) entries.
Proof.
  unfold postEntries. destruct (createLedgerEntriesBodySchema body) eqn:Hschema; [|done].
  apply createLedgerEntriesBodySchema_min in Hschema.
  unfold createEntries. cbv zeta. intros Hrec.
  apply recordEntries_Ok in Hrec as (_ & _ & -> & Hmade).
  set (tid := CreateLedgerEntriesBody.transactionId body) in *.
  assert (length created = length (CreateLedgerEntriesBody.entries body)) as Hlen.
  { apply Forall2_length in Hmade. by rewrite length_fmap in Hmade. }
  assert (Forall (fun row => LedgerEntry.transactionId row = tid) created) as Hown.
  { rewrite Forall2_fmap_l in Hmade. eapply Forall2_Forall_r; [exact Hmade|].
    apply Forall_forall. intros e _ row Hrow. by destruct Hrow as (? & _). }
  set (db' := set_ledgerEntry _ db).
  destruct (getEntriesByTransaction_run tid db') as (entries & Hrun & Hperm & Hsort).
  unfold db' in Hperm. cbn [ledgerEntry set_ledgerEntry] in Hperm.
  rewrite filter_app, (filter_all _ created Hown) in Hperm.
  exists entries. unfold controller_getEntriesByTransaction, bind. rewrite Hrun.
  rewrite bool_decide_eq_false_2.
  - repeat split; [done|lia|done].
  - apply Permutation_length in Hperm. rewrite Hperm, length_app. lia.
Qed.

End LedgerReadProperties.

Section LedgerCompositionProperties.

Import Ledger LedgerQueries LedgerWrites.

Lemma balanceIn_totals accountCode c db :
  let rows := accountEntries accountCode (Some c) None db in
  balanceIn accountCode c db =
  {| AccountBalance.accountCode := accountCode;
     AccountBalance.currency := c;
     AccountBalance.debitTotal := totalIn DEBIT c rows;
     AccountBalance.creditTotal := totalIn CREDIT c rows;
     AccountBalance.balance := totalIn DEBIT c rows - totalIn CREDIT c rows |}.
Proof.
  intros rows. unfold balanceIn.
  destruct (getAccountBalance_run accountCode (Some c) None db)
    as (balances & -> & _ & Hlines).
  fold rows in Hlines. cbn [fst].
  assert (Forall (fun row => LedgerEntry.currency row = c) rows) as Hc.
  { apply Forall_forall. intros row [(_ & Hcur & _) _]%list_elem_of_filter. exact Hcur. }
  destruct balances as [|line balances].
  - assert (rows = []) as ->.
    { destruct rows as [|row rows']; [done|]. exfalso.
      apply Forall_cons in Hc as [Hrow _].
      eapply elem_of_nil,
        (Hlines (AccountBalance.Build_t accountCode c
                   (totalIn DEBIT c (row :: rows')) (totalIn CREDIT c (row :: rows'))
                   (totalIn DEBIT c (row :: rows') - totalIn CREDIT c (row :: rows')))).
      split; [|reflexivity]. simpl. rewrite <-Hrow. left. }
    done.
  - destruct (proj1 (Hlines line)) as [Hcur ->]; [left|].
    apply list_elem_of_fmap in Hcur as (row & Hcur & Hrow).
    rewrite Forall_forall in Hc. rewrite Hcur, (Hc row Hrow). done.
Qed.

Lemma madeFrom_postedTo createdAt ty accountCode c entries created :
  Forall2 (madeFrom createdAt) entries created ->
  totalIn ty c (filter (fun row => LedgerEntry.accountCode row = accountCode /\
                                   inCurrency (Some c) row /\ before None row) created)
  = postedTo ty accountCode c entries.
Proof.
  unfold postedTo. rewrite totalIn_eq, filter_both.
  induction 1 as [|entry row entries created Hrow _ IH]; [done|].
  destruct Hrow as (_ & Hcode & Hty & Ham & Hcur & _).
  rewrite !filter_cons.
  match goal with |- context [decide ?P] => destruct (decide P) as [Hp|Hp] end;
    match goal with |- context [decide ?Q] => destruct (decide Q) as [Hq|Hq] end.
  - by rewrite !fmap_cons, !sumZ_cons, Ham, IH.
  - exfalso. apply Hq. simpl in Hp. rewrite <-Hcode, <-Hcur, <-Hty. tauto.
  - exfalso. apply Hp. simpl. rewrite Hcode, Hcur, Hty. tauto.
  - exact IH.
Qed.

(** X8. Recording entries moves each account line by exactly what the
    entries post to it: the debit total and the credit total that
    [getAccountBalance] reports for an account in a currency grow by the
    debits and the credits the entries post to that account in that
    currency, and nothing else about the line changes. *)
Theorem recordEntries_moves_balances tid entries db created db' accountCode c :
  recordEntries tid entries db = (Ok created, db') ->
  let old := balanceIn accountCode c db in
  let new := balanceIn accountCode c db' in
  AccountBalance.debitTotal new
    = AccountBalance.debitTotal old + postedTo DEBIT accountCode c entries /\
  AccountBalance.creditTotal new
    = AccountBalance.creditTotal old + postedTo CREDIT accountCode c entries /\
  AccountBalance.balance new
    = AccountBalance.balance old + postedTo DEBIT accountCode c entries
      - postedTo CREDIT accountCode c entries.
Proof.
  intros (_ & _ & -> & Hmade)%recordEntries_Ok.
  cbv zeta. rewrite !balanceIn_totals.
  cbn [AccountBalance.debitTotal AccountBalance.creditTotal AccountBalance.balance].
  unfold accountEntries. cbn [ledgerEntry set_ledgerEntry].
  rewrite filter_app, !totalIn_app.
  rewrite !(madeFrom_postedTo _ _ _ _ _ _ Hmade). lia.
Qed.

End LedgerCompositionProperties.

Section LedgerWitnesses.

Import Ledger LedgerQueries LedgerWrites.

Lemma recordEntries_writes_entries_in_order_witness :
  exists created db',
    recordEntries "txn-123" [Sample.debit 100 USD; Sample.credit 100 USD] Sample.db
      = (Ok created, db') /\
    db' = set_ledgerEntry (fun rows => rows ++ created) Sample.db /\
    Forall2 (madeFrom (now Sample.db)) [Sample.debit 100 USD; Sample.credit 100 USD] created.
Proof.
  eexists _, _. split; [vm_compute; reflexivity|].
  apply (recordEntries_writes_entries_in_order "txn-123"
           [Sample.debit 100 USD; Sample.credit 100 USD] Sample.db).
  vm_compute. reflexivity.
Defined.

Lemma posting_builders_balanced_witness :
  is_Some (transaction Sample.db !! "txn-123") /\
  (exists id1 id2,
     let rows := [posted Sample.db id1 "txn-123" CASH DEBIT (-5) JPY
                    "Payment received from customer";
                  posted Sample.db id2 "txn-123" MERCHANT_PAYABLE CREDIT (-5) JPY
                    "Payable to merchant"] in
     recordPayment "txn-123" (-5) JPY "merchant-1" Sample.db
     = (Ok rows, set_ledgerEntry (fun old => old ++ rows) Sample.db)).
Proof.
  assert (is_Some (transaction Sample.db !! "txn-123")) as Hknown by (by eexists).
  split; [exact Hknown|].
  apply (posting_builders_balanced "txn-123" (-5) JPY "merchant-1" Sample.db Hknown).
Defined.

Lemma recordEntries_keeps_summary_difference_witness :
  exists created db' old new,
    recordEntries Sample.order
      [posting Sample.order CASH DEBIT 300 EUR "in";
       posting Sample.order MERCHANT_PAYABLE CREDIT 300 EUR "out"] Sample.books
      = (Ok created, db') /\
    getLedgerSummary None None (Some 5000) Sample.books = (Ok old, Sample.books) /\
    getLedgerSummary None None (Some 5000) db' = (Ok new, db') /\
    LedgerSummary.totalDebits old = 700 /\
    LedgerSummary.totalDebits new = 1000 /\
    LedgerSummary.totalDebits new - LedgerSummary.totalCredits new
      = LedgerSummary.totalDebits old - LedgerSummary.totalCredits old /\
    LedgerSummary.isBalanced new = LedgerSummary.isBalanced old.
Proof.
  destruct (recordEntries_keeps_summary_difference Sample.order
              [posting Sample.order CASH DEBIT 300 EUR "in";
               posting Sample.order MERCHANT_PAYABLE CREDIT 300 EUR "out"] Sample.books
              _ _ None None (Some 5000) eq_refl)
    as (old & new & Hold & Hnew & Hdiff & Hbal).
  eexists _, _, old, new. split; [reflexivity|]. split; [exact Hold|]. split; [exact Hnew|].
  split; [vm_compute in Hold; by injection Hold as <-|].
  split; [vm_compute in Hnew; by injection Hnew as <-|].
  split; [exact Hdiff | exact Hbal].
Defined.

Lemma postEntries_then_read_witness :
  exists created db' entries,
    postEntries (AppError "Validation failed" 400) Sample.body Sample.books
      = (Ok created, db') /\
    controller_getEntriesByTransaction Sample.order db' = (Ok entries, db') /\
    entries ≡ₚ filter (fun row => LedgerEntry.transactionId row = Sample.order)
                 (ledgerEntry Sample.books) ++ created /\
    (2 <= length created)%nat /\
    StronglySorted (ascending LedgerEntry.createdAt) entries.
Proof.
  destruct (postEntries_then_read (AppError "Validation failed" 400) Sample.body
              Sample.books _ _ eq_refl) as (entries & Hread).
  eexists _, _, entries. split; [reflexivity|]. exact Hread.
Defined.

End LedgerWitnesses.

Section LedgerCompositionWitnesses.

Import Ledger LedgerQueries LedgerWrites.

Lemma recordEntries_moves_balances_witness :
  exists created db',
    recordPayment Sample.order 300 USD "merchant-1" Sample.books = (Ok created, db') /\
    AccountBalance.debitTotal (balanceIn CASH USD Sample.books) = 700 /\
    AccountBalance.debitTotal (balanceIn CASH USD db') = 1000 /\
    AccountBalance.balance (balanceIn CASH USD db')
      = AccountBalance.balance (balanceIn CASH USD Sample.books) + 300.
Proof.
  eexists _, _. split; [vm_compute; reflexivity|]. split; [vm_compute; reflexivity|].
  edestruct (recordEntries_moves_balances Sample.order
               [posting Sample.order CASH DEBIT 300 USD "Payment received from customer";
                posting Sample.order MERCHANT_PAYABLE CREDIT 300 USD "Payable to merchant"]
               Sample.books) with (accountCode := CASH) (c := USD)
    as (Hdebit & _ & Hbalance); [vm_compute; reflexivity|].
  split; [rewrite Hdebit; vm_compute; reflexivity|].
  rewrite Hbalance. vm_compute. reflexivity.
Defined.

End LedgerCompositionWitnesses.

(** ** Scores, rules and fallbacks *)

Section ScoreProperties.

Import Routing.

#[local] Open Scope Q_scope.

Lemma Qle_bool_spec (a b : Q) : reflect (a <= b) (Qle_bool a b).
Proof. apply iff_reflect. symmetry. apply Qle_bool_iff. Qed.

Lemma Qlt_bool_spec (a b : Q) : reflect (a < b) (Qlt_bool a b).
Proof.
  unfold Qlt_bool. destruct (Qle_bool_spec b a); constructor; lra.
Qed.

Lemma Qmax_spec (a b : Q) : (a <= b /\ Qmax a b = b) \/ (b < a /\ Qmax a b = a).
Proof. unfold Qmax. destruct (Qle_bool_spec a b); [left | right]; split; auto; lra. Qed.

Lemma Qmin_spec (a b : Q) : (a <= b /\ Qmin a b = a) \/ (b < a /\ Qmin a b = b).
Proof. unfold Qmin. destruct (Qle_bool_spec a b); [left | right]; split; auto; lra. Qed.

Lemma Qinv_200 : / 200 == 1 # 200.
Proof. reflexivity. Qed.

Lemma Qinv_500 : / 500 == 1 # 500.
Proof. reflexivity. Qed.

Ltac linear := unfold Qdiv; rewrite ?Qinv_200, ?Qinv_500; lra.

Lemma calculateSuccessRateScore_bounds successRate :
  0 <= calculateSuccessRateScore successRate <= 100.
Proof.
  unfold calculateSuccessRateScore.
  destruct (Qmax_spec 0 (successRate * 100)) as [[? ->] | [? ->]];
    match goal with |- context [Qmin ?a ?b] =>
      destruct (Qmin_spec a b) as [[? ->] | [? ->]] end; lra.
Qed.

Lemma calculateAvailabilityScore_bounds status :
  0 <= calculateAvailabilityScore status <= 100.
Proof. destruct status; simpl; lra. Qed.

Lemma calculateLatencyScore_bounds latencyMs :
  0 <= calculateLatencyScore latencyMs <= 100.
Proof.
  unfold calculateLatencyScore.
  destruct (Qlt_bool_spec latencyMs 100); [lra|].
  destruct (Qlt_bool_spec latencyMs 300); [linear|].
  destruct (Qlt_bool_spec latencyMs 500); [linear|].
  destruct (Qlt_bool_spec latencyMs 1000); linear.
Qed.

Lemma calculateCostScore_bounds cost :
  0 <= calculateCostScore cost <= 100.
Proof.
  unfold calculateCostScore.
  destruct (Qle_bool_spec cost 0); [lra|].
  destruct (Qle_bool_spec cost (1 # 100)); [lra|].
  destruct (Qle_bool_spec cost (3 # 100)); [lra|].
  destruct (Qle_bool_spec cost (5 # 100)); [lra|].
  destruct (Qmax_spec 0 (30 - (cost - (5 # 100)) * 500)) as [[? ->] | [? ->]]; lra.
Qed.

Lemma calculatePriorityScore_bounds priority :
  0 <= calculatePriorityScore priority /\
  (calculatePriorityScore priority <= 100 <-> (1 <= priority)%Z).
Proof.
  unfold calculatePriorityScore.
  assert ((1 <= priority)%Z <-> 1 <= inject_Z priority) as ->.
  { rewrite (Zle_Qle 1 priority). done. }
  destruct (Qmax_spec 0 (100 - (inject_Z priority - 1) * 10)) as [[? ->] | [? ->]];
    split; try split; intros; lra.
Qed.

Lemma coalesce_cases (a b : option Q) (c : Q) :
  coalesce a b c = default (default c b) a.
Proof. by destruct a. Qed.

(** X9. Every component of a provider's score lies between 0 and 100,
    except that the priority component exceeds 100 exactly when an
    eligible provider has a priority below 1.  An ineligible provider
    scores 0 everywhere. *)
Theorem evaluateProvider_components_in_range weights getMetrics provider context :
  let score := evaluateProvider weights getMetrics provider context in
  let parts := ProviderScore.components_ score in
  0 <= ProviderScore.successRate parts <= 100 /\
  0 <= ProviderScore.availability parts <= 100 /\
  0 <= ProviderScore.latency parts <= 100 /\
  0 <= ProviderScore.cost parts <= 100 /\
  0 <= ProviderScore.priority parts /\
  (ProviderScore.priority parts <= 100 <->
   ProviderScore.eligible score = false \/ (1 <= RoutingProviderInfo.priority provider)%Z) /\
  (ProviderScore.eligible score = false -> ProviderScore.totalScore score = 0).
Proof.
  intros score parts. subst parts score. unfold evaluateProvider.
  destruct (checkEligibility provider context) as [[] reason]; cbn [fst negb].
  - cbn [ProviderScore.components_ ProviderScore.successRate ProviderScore.availability
         ProviderScore.latency ProviderScore.cost ProviderScore.priority
         ProviderScore.eligible ProviderScore.totalScore].
    split; [apply calculateSuccessRateScore_bounds|].
    split; [apply calculateAvailabilityScore_bounds|].
    split; [apply calculateLatencyScore_bounds|].
    split; [apply calculateCostScore_bounds|].
    destruct (calculatePriorityScore_bounds (RoutingProviderInfo.priority provider))
      as [Hlow Hhigh].
    split; [done|]. split; [|done]. rewrite Hhigh. split; [by right | by intros [?|?]].
  - cbn. repeat split; try lra; try done.
Qed.

(** X10. With the default weights, the total score of a provider whose
    priority is at least 1 lies between 0 and 100. *)
Theorem evaluateProvider_total_in_range getMetrics provider context :
  (1 <= RoutingProviderInfo.priority provider)%Z ->
  0 <= ProviderScore.totalScore
         (evaluateProvider DEFAULT_SCORING_WEIGHTS getMetrics provider context) <= 100.
Proof.
  intros Hpriority. unfold evaluateProvider.
  destruct (checkEligibility provider context) as [[] reason]; cbn [fst negb];
    [|cbn; lra].
  cbn [ProviderScore.totalScore DEFAULT_SCORING_WEIGHTS ScoringWeights.successRate
       ScoringWeights.availability ScoringWeights.latency ScoringWeights.cost
       ScoringWeights.priority].
  pose proof (calculateSuccessRateScore_bounds
                (coalesce (ProviderMetrics.successRate
                             (getProviderMetrics getMetrics (RoutingProviderInfo.id provider)))
                          (RoutingProviderInfo.successRate provider) (95 # 100))).
  pose proof (calculateAvailabilityScore_bounds (RoutingProviderInfo.status provider)).
  pose proof (calculateLatencyScore_bounds
                (coalesce (ProviderMetrics.averageLatency
                             (getProviderMetrics getMetrics (RoutingProviderInfo.id provider)))
                          (RoutingProviderInfo.averageLatency provider) 200)).
  pose proof (calculateCostScore_bounds
                (default 0 (RoutingProviderInfo.costPerTransaction provider))).
  destruct (calculatePriorityScore_bounds (RoutingProviderInfo.priority provider))
    as [? Hhigh]. apply Hhigh in Hpriority.
  lra.
Qed.

(** X11. A higher latency never earns a higher latency score, and a higher
    cost never earns a higher cost score. *)
Theorem latency_and_cost_scores_antitone (a b : Q) :
  a <= b ->
  calculateLatencyScore b <= calculateLatencyScore a /\
  calculateCostScore b <= calculateCostScore a.
Proof.
  intros Hab. split.
  - unfold calculateLatencyScore.
    destruct (Qlt_bool_spec a 100), (Qlt_bool_spec a 300), (Qlt_bool_spec a 500),
             (Qlt_bool_spec a 1000),
             (Qlt_bool_spec b 100), (Qlt_bool_spec b 300), (Qlt_bool_spec b 500),
             (Qlt_bool_spec b 1000); linear.
  - unfold calculateCostScore.
    destruct (Qmax_spec 0 (30 - (a - (5 # 100)) * 500)) as [[? ->] | [? ->]];
      destruct (Qmax_spec 0 (30 - (b - (5 # 100)) * 500)) as [[? ->] | [? ->]];
      destruct (Qle_bool_spec a 0), (Qle_bool_spec a (1 # 100)), (Qle_bool_spec a (3 # 100)),
               (Qle_bool_spec a (5 # 100)),
               (Qle_bool_spec b 0), (Qle_bool_spec b (1 # 100)), (Qle_bool_spec b (3 # 100)),
               (Qle_bool_spec b (5 # 100)); lra.
Qed.

End ScoreProperties.

Section ScoreOrderProperties.

Import Routing RoutingRules.

Context (weights : ScoringWeights.t).
Context (getMetrics : string -> result (option ProviderMetrics.t)).

Lemma insertByScore_perm s sorted : insertByScore s sorted ≡ₚ s :: sorted.
Proof.
  induction sorted as [|t rest IH]; simpl; [done|].
  destruct (Qle_bool _ _); [|done]. rewrite IH. apply Permutation_swap.
Qed.

Lemma sortByScore_perm scores : sortByScore scores ≡ₚ scores.
Proof.
  unfold sortByScore.
  assert (forall acc, foldl (fun sorted s => insertByScore s sorted) acc scores
                      ≡ₚ acc ++ scores) as Hacc.
  { induction scores as [|s scores IH]; intros acc; simpl; [by rewrite app_nil_r|].
    rewrite IH, insertByScore_perm. simpl. apply Permutation_middle. }
  apply Hacc.
Qed.

Lemma insertByScore_sorted s sorted :
  StronglySorted (descending ProviderScore.totalScore) sorted ->
  StronglySorted (descending ProviderScore.totalScore) (insertByScore s sorted).
Proof.
  induction 1 as [|t rest Hrest IH Ht]; simpl; [repeat constructor|].
  destruct (Qle_bool_spec (ProviderScore.totalScore s) (ProviderScore.totalScore t)).
  - constructor; [done|]. rewrite insertByScore_perm. by constructor.
  - constructor; [by constructor|]. constructor; [unfold descending; lra|].
    eapply Forall_impl; [exact Ht|]. unfold descending. intros u ?; simpl in *. lra.
Qed.

Lemma sortByScore_sorted scores :
  StronglySorted (descending ProviderScore.totalScore) (sortByScore scores).
Proof.
  unfold sortByScore.
  assert (forall acc, StronglySorted (descending ProviderScore.totalScore) acc ->
            StronglySorted (descending ProviderScore.totalScore)
              (foldl (fun sorted s => insertByScore s sorted) acc scores)) as Hacc.
  { induction scores as [|s scores IH]; intros acc Hacc; simpl; [done|].
    by apply IH, insertByScore_sorted. }
  apply Hacc. constructor.
Qed.


(** X12. [evaluateProviders] returns one score for each provider it is
    given, in descending order of total score. *)
Theorem evaluateProviders_sorted providers context :
  let scores := evaluateProviders weights getMetrics providers context in
  scores ≡ₚ scoresOf weights getMetrics providers context /\
  StronglySorted (descending ProviderScore.totalScore) scores /\
  ProviderScore.providerId <$> scores ≡ₚ RoutingProviderInfo.id <$> providers.
Proof.
  intros scores. subst scores. unfold evaluateProviders. fold (scoresOf weights getMetrics providers context).
  split; [apply sortByScore_perm|]. split; [apply sortByScore_sorted|].
  rewrite sortByScore_perm. unfold scoresOf. rewrite <-list_fmap_compose.
  assert (forall A (l k : list A), l = k -> l ≡ₚ k) as Heq by (by intros A l k ->).
  apply Heq, Forall_fmap_ext_1, Forall_forall. intros provider _.
  apply evaluateProvider_eligible.
Qed.

End ScoreOrderProperties.

Section RoutingServiceProperties.

Import Routing RoutingRules.

Context (rt : Js.Runtime).
Context (weights : ScoringWeights.t).
Context (getMetrics : string -> result (option ProviderMetrics.t)).

Lemma set_rulesCache_id db : set_rulesCache (fun cache => cache) db = db.
Proof. by destruct db. Qed.

Lemma getRulesForMerchant_run merchantId db :
  let cacheKey := RULES_CACHE_PREFIX +:+ merchantId in
  exists rules,
    getRulesForMerchant merchantId db
      = (Ok rules, set_rulesCache (insert cacheKey rules) db) /\
    match rulesCache db !! cacheKey with
    | Some cached => rules = cached /\ set_rulesCache (insert cacheKey rules) db = db
    | None => rules = orderByPriority RoutingRule.priority (activeRules merchantId db)
    end.
Proof.
  intros cacheKey. unfold getRulesForMerchant, bind, get, modify, ret. simpl.
  fold cacheKey. destruct (rulesCache db !! cacheKey) as [cached|] eqn:Hcache.
  - assert (set_rulesCache (insert cacheKey cached) db = db) as Hsame.
    { destruct db. unfold set_rulesCache. simpl in *. f_equal. by apply insert_id. }
    exists cached. by rewrite Hsame.
  - eexists. split; reflexivity.
Qed.

Lemma firstMatch_Some rules context rule :
  firstMatch rt rules context = Ok (Some rule) ->
  exists earlier later,
    rules = earlier ++ rule :: later /\
    Forall (fun r => evaluate rt (RoutingRule.conditions r) context = Ok false) earlier /\
    evaluate rt (RoutingRule.conditions rule) context = Ok true.
Proof.
  induction rules as [|r rules IH]; simpl; [done|].
  destruct (evaluate rt (RoutingRule.conditions r) context) as [[]|] eqn:Hr; simpl; [| |done].
  - intros [= ->]. by exists [], rules.
  - intros (earlier & later & -> & Hearlier & Hrule)%IH.
    exists (r :: earlier), later. split; [done|]. split; [by constructor | done].
Qed.

Lemma firstMatch_None rules context :
  firstMatch rt rules context = Ok None ->
  Forall (fun r => evaluate rt (RoutingRule.conditions r) context = Ok false) rules.
Proof.
  induction rules as [|r rules IH]; simpl; [constructor|].
  destruct (evaluate rt (RoutingRule.conditions r) context) as [[]|] eqn:Hr; simpl; [done| |done].
  intros ?%IH. by constructor.
Qed.

Lemma scoreBased_inv providers context db decision db' :
  scoreBased weights getMetrics providers context db = (Ok decision, db') ->
  db' = db /\
  exists selected rest,
    ranked weights getMetrics providers context = selected :: rest /\
    decision = {| RoutingDecision.selectedProviderId := ProviderScore.providerId selected;
                  RoutingDecision.selectedProviderCode := ProviderScore.providerCode selected;
                  RoutingDecision.fallbackProviderIds :=
                    ProviderScore.providerId <$> take 2 rest;
                  RoutingDecision.matchedRuleId := None;
                  RoutingDecision.score := ProviderScore.totalScore selected;
                  RoutingDecision.reason := "Selected by scoring algorithm";
                  RoutingDecision.evaluatedAt := now db |}.
Proof.
  unfold scoreBased. fold (ranked weights getMetrics providers context).
  destruct (ranked weights getMetrics providers context) as [|selected rest]; [done|].
  unfold bind, get, ret. simpl. intros [= <- <-]. split; [done|]. by exists selected, rest.
Qed.

Lemma selectProvider_inv context db decision db' :
  selectProvider rt weights getMetrics context db = (Ok decision, db') ->
  let merchantId := RoutingContext.merchantId context in
  let providers := availableProviders merchantId db in
  exists rules matchedRule,
    getRulesForMerchant merchantId db = (Ok rules, db') /\
    firstMatch rt rules context = Ok matchedRule /\
    ((exists rule i ruleProvider,
        matchedRule = Some rule /\
        list_find (fun p => RoutingProviderInfo.id p = RoutingRule.providerId rule) providers
          = Some (i, ruleProvider) /\
        decision =
          {| RoutingDecision.selectedProviderId := RoutingProviderInfo.id ruleProvider;
             RoutingDecision.selectedProviderCode := RoutingProviderInfo.code ruleProvider;
             RoutingDecision.fallbackProviderIds :=
               ProviderScore.providerId
                 <$> take 2 (filter (fun s => ProviderScore.eligible s = true /\
                                              ProviderScore.providerId s
                                                <> RoutingRule.providerId rule)
                                    (evaluateProviders weights getMetrics providers context));
             RoutingDecision.matchedRuleId := Some (RoutingRule.id rule);
             RoutingDecision.score := 100%Q;
             RoutingDecision.reason := "Matched routing rule: " +:+ RoutingRule.name rule;
             RoutingDecision.evaluatedAt := now db' |}) \/
     scoreBased weights getMetrics providers context db' = (Ok decision, db')).
Proof.
  intros Hrun merchantId providers. revert Hrun. unfold selectProvider, bind at 1.
  fold merchantId.
  destruct (getRulesForMerchant_run merchantId db) as (rules & Hrules & Hcache).
  rewrite Hrules. set (db1 := set_rulesCache _ db).
  unfold bind at 1, lift. destruct (firstMatch rt rules context) as [matchedRule|e] eqn:Hmatch;
    [|done].
  unfold bind at 1, getAvailableProviders, bind at 1, get, ret. simpl.
  assert (availableProviders merchantId db1 = providers) as -> by done.
  case_bool_decide; [done|].
  assert (forall r, scoreBased weights getMetrics providers context db1 = (Ok decision, r) ->
                    r = db1) as Hsame by (by intros r [-> _]%scoreBased_inv).
  destruct matchedRule as [rule|].
  - destruct (list_find _ providers) as [[i ruleProvider]|] eqn:Hfind.
    + unfold bind, get, ret. simpl. intros [= <- <-].
      exists rules, (Some rule). split; [done|]. split; [done|]. left.
      by exists rule, i, ruleProvider.
    + intros Hscore. pose proof (Hsame _ Hscore) as ->.
      exists rules, (Some rule). split; [done|]. split; [done|]. by right.
  - intros Hscore. pose proof (Hsame _ Hscore) as ->.
    exists rules, None. split; [done|]. split; [done|]. by right.
Qed.

Lemma scoresOf_elem providers context s :
  s ∈ evaluateProviders weights getMetrics providers context <->
  s ∈ scoresOf weights getMetrics providers context.
Proof. unfold evaluateProviders. apply sortByScore_elem. Qed.

Lemma eligible_score providers context s :
  s ∈ evaluateProviders weights getMetrics providers context ->
  ProviderScore.eligible s = true ->
  exists provider,
    provider ∈ providers /\ RoutingProviderInfo.id provider = ProviderScore.providerId s /\
    eligibleFor context provider.
Proof.
  intros (provider & -> & Hin)%scoresOf_elem%list_elem_of_fmap Heligible.
  destruct (evaluateProvider_eligible weights getMetrics provider context) as [He Hid].
  exists provider. unfold eligibleFor. by rewrite Hid, <-He.
Qed.


Lemma ranked_elem providers context s :
  s ∈ ranked weights getMetrics providers context <->
  s ∈ scoresOf weights getMetrics providers context /\ ProviderScore.eligible s = true.
Proof. unfold ranked. rewrite list_elem_of_filter, scoresOf_elem. tauto. Qed.


End RoutingServiceProperties.

Section RoutingDecisionProperties.

Import Routing RoutingRules.

Context (rt : Js.Runtime).
Context (weights : ScoringWeights.t).
Context (getMetrics : string -> result (option ProviderMetrics.t)).


Lemma ranked_ids providers context :
  NoDup (RoutingProviderInfo.id <$> providers) ->
  NoDup (ProviderScore.providerId <$> evaluateProviders weights getMetrics providers context).
Proof.
  intros Hdistinct.
  destruct (evaluateProviders_sorted weights getMetrics providers context) as (_ & _ & Hids).
  by rewrite Hids.
Qed.

(** X15. When the merchant's available providers have distinct ids, the
    selected provider and the fallbacks of a decision are pairwise
    distinct; there are at most two fallbacks, each an available provider
    that is eligible for the context. *)
Theorem selectProvider_candidates_distinct context db decision db' :
  selectProvider rt weights getMetrics context db = (Ok decision, db') ->
  let providers := availableProviders (RoutingContext.merchantId context) db in
  NoDup (RoutingProviderInfo.id <$> providers) ->
  NoDup (RoutingDecision.selectedProviderId decision
           :: RoutingDecision.fallbackProviderIds decision) /\
  (length (RoutingDecision.fallbackProviderIds decision) <= 2)%nat /\
  forall id, id ∈ RoutingDecision.fallbackProviderIds decision ->
    exists provider,
      provider ∈ providers /\ RoutingProviderInfo.id provider = id /\
      eligibleFor context provider.
Proof.
  intros Hrun providers Hdistinct.
  apply selectProvider_inv in Hrun as (rules & matchedRule & _ & _ & Hcases).
  fold providers in Hcases.
  pose proof (ranked_ids providers context Hdistinct) as Hids.
  set (scores := evaluateProviders weights getMetrics providers context) in *.
  destruct Hcases as [(rule & i & ruleProvider & _ & Hfind & ->) | Hscore].
  - cbn [RoutingDecision.selectedProviderId RoutingDecision.fallbackProviderIds].
    apply list_find_Some in Hfind as (_ & Hid & _).
    set (others := filter _ scores).
    assert (take 2 others `sublist_of` scores) as Hsub.
    { etrans; [apply sublist_take | apply sublist_filter]. }
    split; [|split].
    + constructor.
      * intros (s & Hs & Hin)%list_elem_of_fmap.
        assert (s ∈ others) as Ho by (eapply elem_of_sublist; [exact Hin | apply sublist_take]).
        apply list_elem_of_filter in Ho as [[_ Hne] _]. congruence.
      * eapply sublist_NoDup; [exact Hids|]. by apply fmap_sublist.
    + rewrite length_fmap, length_take. lia.
    + intros id (s & -> & Hin)%list_elem_of_fmap.
      assert (s ∈ others) as Ho by (eapply elem_of_sublist; [exact Hin | apply sublist_take]).
      apply list_elem_of_filter in Ho as [[He _] Hs]. by eapply eligible_score.
  - apply scoreBased_inv in Hscore as (_ & selected & rest & Hranked & ->).
    cbn [RoutingDecision.selectedProviderId RoutingDecision.fallbackProviderIds].
    assert (selected :: take 2 rest `sublist_of` scores) as Hsub.
    { trans (selected :: rest); [apply sublist_skip, sublist_take|].
      rewrite <-Hranked. apply sublist_filter. }
    split; [|split].
    + rewrite <-fmap_cons. eapply sublist_NoDup; [exact Hids|]. by apply fmap_sublist.
    + rewrite length_fmap, length_take. lia.
    + intros id (s & -> & Hin)%list_elem_of_fmap.
      assert (s ∈ ranked weights getMetrics providers context) as Hs.
      { rewrite Hranked. right. eapply elem_of_sublist; [exact Hin | apply sublist_take]. }
      apply list_elem_of_filter in Hs as [He Hs]. by eapply eligible_score.
Qed.

(** X16. [getNextFallback] never proposes a provider that has failed: the
    provider it selects and its fallbacks are available providers outside
    the failed ones and eligible for the context.  It answers [null]
    exactly when no available provider outside the failed ones is
    eligible, never throws and leaves the store as it is. *)
Theorem getNextFallback_avoids_failed context failedProviderIds db :
  let providers := availableProviders (RoutingContext.merchantId context) db in
  let usable provider :=
    provider ∈ providers /\ (RoutingProviderInfo.id provider ∉ failedProviderIds) /\
    eligibleFor context provider in
  exists next,
    getNextFallback weights getMetrics context failedProviderIds db = (Ok next, db) /\
    match next with
    | None => forall provider, ~ usable provider
    | Some decision =>
        forall id,
          id ∈ RoutingDecision.selectedProviderId decision
                 :: RoutingDecision.fallbackProviderIds decision ->
          exists provider, usable provider /\ RoutingProviderInfo.id provider = id
    end.
Proof.
  intros providers usable. unfold getNextFallback, bind at 1, getAvailableProviders, bind at 1,
    get, ret. simpl. fold providers.
  set (remaining := filter _ providers).
  assert (forall s, s ∈ ranked weights getMetrics remaining context ->
            exists provider, usable provider /\
                             RoutingProviderInfo.id provider = ProviderScore.providerId s)
    as Husable.
  { intros s [He Hs]%list_elem_of_filter.
    destruct (eligible_score weights getMetrics remaining context s Hs He)
      as (provider & [Hnot Hin]%list_elem_of_filter & Hid & Hel).
    by exists provider. }
  assert (forall provider, usable provider ->
            exists s, s ∈ ranked weights getMetrics remaining context) as Hranked.
  { intros provider (Hin & Hnot & Hel).
    exists (evaluateProvider weights getMetrics provider context).
    apply ranked_elem. split.
    - apply list_elem_of_fmap. exists provider. split; [done|]. by apply list_elem_of_filter.
    - destruct (evaluateProvider_eligible weights getMetrics provider context) as [-> _].
      exact Hel. }
  case_bool_decide as Hempty.
  - exists None. split; [done|]. intros provider Hp.
    destruct (Hranked provider Hp) as [s Hs]. apply ranked_elem in Hs as [Hs _].
    apply list_elem_of_fmap in Hs as (p & _ & Hp').
    apply length_zero_iff_nil in Hempty. rewrite Hempty in Hp'. by apply elem_of_nil in Hp'.
  - fold (ranked weights getMetrics remaining context) in *.
    destruct (ranked weights getMetrics remaining context) as [|selected rest] eqn:Heq.
    + exists None. split; [done|]. intros provider Hp.
      destruct (Hranked provider Hp) as [s Hs]. by apply elem_of_nil in Hs.
    + eexists (Some _). split; [reflexivity|].
      cbn [RoutingDecision.selectedProviderId RoutingDecision.fallbackProviderIds].
      intros id [->|(s & -> & Hin)%list_elem_of_fmap]%elem_of_cons.
      * destruct (Husable selected) as (provider & ? & ?); [left|]. by exists provider.
      * destruct (Husable s) as (provider & ? & ?); [|by exists provider].
        right. eapply elem_of_sublist; [exact Hin|]. simpl. apply sublist_take.
Qed.

End RoutingDecisionProperties.

Section RulesCacheProperties.

Import Routing RoutingRules.

Context (rt : Js.Runtime).
Context (weights : ScoringWeights.t).
Context (getMetrics : string -> result (option ProviderMetrics.t)).

(** X17. [getRulesForMerchant] answers from the cache when the merchant has
    an entry there, without reading the table; otherwise it reads the
    merchant's active rules, by ascending priority, and caches them.  A
    second call right after returns the same rules and changes nothing. *)
Theorem getRulesForMerchant_caches merchantId db :
  let cacheKey := RULES_CACHE_PREFIX +:+ merchantId in
  exists rules db',
    getRulesForMerchant merchantId db = (Ok rules, db') /\
    match rulesCache db !! cacheKey with
    | Some cached => rules = cached /\ db' = db
    | None =>
        rules ≡ₚ activeRules merchantId db /\
        StronglySorted (ascending RoutingRule.priority) rules /\
        db' = set_rulesCache (insert cacheKey rules) db
    end /\
    getRulesForMerchant merchantId db' = (Ok rules, db').
Proof.
  intros cacheKey.
  destruct (getRulesForMerchant_run merchantId db) as (rules & Hrun & Hcache).
  fold cacheKey in Hrun, Hcache.
  exists rules, (set_rulesCache (insert cacheKey rules) db). split; [done|].
  assert (getRulesForMerchant merchantId (set_rulesCache (insert cacheKey rules) db)
          = (Ok rules, set_rulesCache (insert cacheKey rules) db)) as Hagain.
  { unfold getRulesForMerchant, bind, get, ret. simpl. fold cacheKey.
    by rewrite lookup_insert_eq. }
  split; [|done].
  destruct (rulesCache db !! cacheKey) as [cached|].
  - by destruct Hcache as [-> ->].
  - subst rules. split; [apply orderByPriority_perm|].
    split; [apply orderByPriority_sorted | done].
Qed.

(** X18. [deleteRule] answers [false] and changes nothing when no rule has
    the id.  Otherwise it removes the rule, leaves the other rules as they
    are and answers [true]; from then on [selectProvider], for the
    merchant of the rule, never decides by the deleted rule, whatever the
    cache held before. *)
Theorem deleteRule_forgets_rule id db :
  exists deleted db',
    deleteRule id db = (Ok deleted, db') /\
    if deleted then
      exists existing,
        existing ∈ routingRule db /\ RoutingRule.id existing = id /\
        routingRule db' = filter (fun rule => RoutingRule.id rule <> id) (routingRule db) /\
        forall context decision db'',
          RoutingContext.merchantId context = RoutingRule.merchantId existing ->
          selectProvider rt weights getMetrics context db' = (Ok decision, db'') ->
          RoutingDecision.matchedRuleId decision <> Some id
    else
      db' = db /\ Forall (fun rule => RoutingRule.id rule <> id) (routingRule db).
Proof.
  unfold deleteRule, bind at 1, get. simpl.
  destruct (list_find _ (routingRule db)) as [[i existing]|] eqn:Hfind.
  - eexists true, _. split; [reflexivity|].
    apply list_find_Some in Hfind as (Hat & Hid & _).
    exists existing. split; [by eapply list_elem_of_lookup_2|]. split; [done|].
    split; [done|]. intros context decision db'' Hmerchant Hrun Hrule.
    apply selectProvider_inv in Hrun as (rules & matchedRule & Hrules & Hmatch & Hcases).
    destruct Hcases as [(rule & j & ruleProvider & -> & _ & ->) | Hscore].
    + injection Hrule as Hrule.
      apply firstMatch_Some in Hmatch as (earlier & later & -> & _ & _).
      match type of Hrules with getRulesForMerchant ?m ?d = _ =>
        destruct (getRulesForMerchant_run m d) as (rules' & Hrun' & Hcache) end.
      rewrite Hrun' in Hrules. injection Hrules as Hsame _.
      rewrite Hmerchant in Hcache. simpl in Hcache. rewrite lookup_delete_eq in Hcache.
      assert (rule ∈ rules') as Hin.
      { rewrite Hsame. apply elem_of_app. right. left. }
      rewrite Hcache, orderByPriority_perm in Hin.
      apply list_elem_of_filter in Hin as [_ Hin]. simpl in Hin.
      by apply list_elem_of_filter in Hin as [Hne _].
    + by apply scoreBased_inv in Hscore as (_ & selected & rest & _ & ->).
  - exists false, db. split; [done|]. split; [done|].
    apply list_find_None in Hfind. exact Hfind.
Qed.

End RulesCacheProperties.

Section ConditionProperties.

Import Routing RoutingRules.

Context (rt : Js.Runtime).




End ConditionProperties.

Section RoutingWitnesses.

Import Routing RoutingRules.

Lemma evaluateProvider_total_in_range_witness :
  (1 <= RoutingProviderInfo.priority Sample.adyenInfo)%Z /\
  (0 <= ProviderScore.totalScore
          (evaluateProvider DEFAULT_SCORING_WEIGHTS Sample.noMetrics Sample.adyenInfo
             Sample.eurCard) <= 100)%Q.
Proof.
  assert (1 <= RoutingProviderInfo.priority Sample.adyenInfo)%Z as Hpriority by (simpl; lia).
  split; [exact Hpriority|].
  exact (evaluateProvider_total_in_range Sample.noMetrics Sample.adyenInfo Sample.eurCard
           Hpriority).
Defined.

Lemma latency_and_cost_scores_antitone_witness :
  (calculateLatencyScore 400 <= calculateLatencyScore 150)%Q /\
  (calculateCostScore 400 <= calculateCostScore 150)%Q.
Proof.
  apply (latency_and_cost_scores_antitone 150 400). unfold Qle. simpl. lia.
Defined.



Lemma selectProvider_candidates_distinct_witness :
  exists decision db',
    selectProvider Sample.runtime DEFAULT_SCORING_WEIGHTS Sample.noMetrics Sample.eurCard
      (Sample.routed []) = (Ok decision, db') /\
    NoDup (RoutingProviderInfo.id <$> availableProviders "merchant-1" (Sample.routed [])) /\
    RoutingDecision.fallbackProviderIds decision <> [] /\
    NoDup (RoutingDecision.selectedProviderId decision
             :: RoutingDecision.fallbackProviderIds decision).
Proof.
  assert (NoDup (RoutingProviderInfo.id
                   <$> availableProviders "merchant-1" (Sample.routed []))) as Hdistinct
    by (apply (bool_decide_unpack _); vm_compute; reflexivity).
  eexists _, _. split; [vm_compute; reflexivity|]. split; [exact Hdistinct|].
  split; [discriminate|].
  edestruct (selectProvider_candidates_distinct Sample.runtime DEFAULT_SCORING_WEIGHTS
               Sample.noMetrics Sample.eurCard (Sample.routed [])) as (Hcandidates & _);
    [vm_compute; reflexivity | exact Hdistinct | exact Hcandidates].
Defined.

End RoutingWitnesses.

(** ** Reports and settlement files *)

Section ReportProperties.

Import Reconciliation Reports.

(** X20. The report [reconcile] returns is stored under an id that was not
    in use, and [getReport] with that id returns the same report; the
    reports stored before read as they did. *)
Theorem reconcile_then_getReport request db :
  exists report db',
    reconcile request db = (Ok report, db') /\
    reconciliationReport db !! ReconciliationReportDetail.id report = None /\
    getReport (ReconciliationReportDetail.id report) db' = (Ok report, db') /\
    forall other,
      other <> ReconciliationReportDetail.id report ->
      (getReport other db').1 = (getReport other db).1.
Proof.
  eexists _, _. split; [apply reconcile_eq|].
  set (report := newReport request db).
  assert (reconciliationReport db !! ReconciliationReport.id report = None) as Hfresh.
  { apply not_elem_of_dom. apply is_fresh. }
  split; [exact Hfresh|]. split.
  - unfold getReport, bind, get, ret. simpl. by rewrite lookup_insert_eq.
  - intros other Hother. unfold getReport, bind, get, ret, throw. simpl.
    simpl in Hother. rewrite lookup_insert_ne by done.
    by destruct (reconciliationReport db !! other).
Qed.

Lemma push_numbered st mk :
  (forall id, Discrepancy.id (mk id) = id) -> numbered st -> numbered (push st mk).
Proof.
  unfold numbered, push. intros Hmk Hst. cbn [discrepancies discrepancyIdx].
  rewrite fmap_app, Hst, seq_S, fmap_app. simpl. by rewrite Hmk.
Qed.

Lemma checkProviderRecord_numbered lm st p :
  numbered st -> numbered (checkProviderRecord lm st p).
Proof.
  intros Hst. unfold checkProviderRecord.
  destruct (lm !! SettlementRecord.transactionId p) as [localTxn|];
    [|by apply push_numbered].
  destruct (amountDiffers localTxn p), (statusDiffers localTxn p); simpl;
    repeat first [done | apply push_numbered].
Qed.

Lemma checkLocalTransaction_numbered pm st l :
  numbered st -> numbered (checkLocalTransaction pm st l).
Proof.
  intros Hst. unfold checkLocalTransaction.
  destruct (pm !! Transaction.id l); [done | by apply push_numbered].
Qed.

Lemma runLoops_numbered request L : numbered (runLoops request L).
Proof.
  unfold runLoops.
  assert (forall lm P st, numbered st -> numbered (foldl (checkProviderRecord lm) st P)) as Hp.
  { intros lm P. induction P as [|p P IH]; intros st Hst; simpl; [done|].
    by apply IH, checkProviderRecord_numbered. }
  assert (forall pm L' st, numbered st -> numbered (foldl (checkLocalTransaction pm) st L'))
    as Hl.
  { intros pm L'. induction L' as [|l L' IH]; intros st Hst; simpl; [done|].
    by apply IH, checkLocalTransaction_numbered. }
  apply Hl, Hp. done.
Qed.

Lemma label_inj : Inj (=) (=) label.
Proof.
  intros i j Heq. unfold label in Heq. simpl in Heq. injection Heq as Heq.
  by apply pretty_nat_inj in Heq.
Qed.

(** X21. The discrepancies of a report are numbered [disc_0], [disc_1], ...
    in the order they were found, so their ids are pairwise distinct and
    [resolveDiscrepancy] can address each of them. *)
Theorem reconcile_discrepancy_ids request db :
  exists report db',
    reconcile request db = (Ok report, db') /\
    Discrepancy.id <$> ReconciliationReportDetail.discrepancies report
      = label <$> seq 0 (ReconciliationReportDetail.discrepancyCount report) /\
    NoDup (Discrepancy.id <$> ReconciliationReportDetail.discrepancies report).
Proof.
  eexists _, _. split; [apply reconcile_eq|].
  cbn [toDetail ReconciliationReportDetail.discrepancies
       ReconciliationReportDetail.discrepancyCount newReport
       ReconciliationReport.discrepancies].
  pose proof (runLoops_numbered request (findLocalTransactions request db)) as Hnum.
  unfold numbered in Hnum.
  assert (discrepancyIdx (runLoops request (findLocalTransactions request db))
          = length (discrepancies (runLoops request (findLocalTransactions request db))))
    as Hlen.
  { apply (f_equal length) in Hnum. rewrite !length_fmap, length_seq in Hnum. done. }
  rewrite <-Hlen. split; [done|]. rewrite Hnum.
  apply (NoDup_fmap_2 _), NoDup_seq.
Qed.

End ReportProperties.

Section CountProperties.

Import Reconciliation Reports.

Lemma countByType_snoc discrepancies d :
  countByType (discrepancies ++ [d]) =
  match list_find (fun kv => kv.1 = Discrepancy.type d) (countByType discrepancies) with
  | Some (i, (ty, n)) => <[i := (ty, S n)]> (countByType discrepancies)
  | None => countByType discrepancies ++ [(Discrepancy.type d, 1%nat)]
  end.
Proof. unfold countByType. by rewrite foldl_snoc. Qed.

Lemma tally_snoc ty discrepancies d :
  tally ty (discrepancies ++ [d]) =
  (tally ty discrepancies + if decide (Discrepancy.type d = ty) then 1 else 0)%nat.
Proof.
  unfold tally. rewrite filter_app, length_app. f_equal.
  rewrite filter_cons, filter_nil. by case_decide.
Qed.

Lemma countByType_spec discrepancies :
  NoDup (countByType discrepancies).*1 /\
  forall ty n, (ty, n) ∈ countByType discrepancies <->
               n = tally ty discrepancies /\ (0 < n)%nat.
Proof.
  induction discrepancies as [|d discrepancies [Hkeys Hcounts]] using rev_ind.
  - split; [constructor|]. intros ty n. split; [by intros ?%elem_of_nil|].
    intros [-> Hpos]. unfold tally in Hpos. simpl in Hpos. lia.
  - rewrite countByType_snoc.
    destruct (list_find _ (countByType discrepancies)) as [[i [ty0 n0]]|] eqn:Hfind.
    + apply list_find_Some in Hfind as (Hat & Hty & _). simpl in Hty. subst ty0.
      assert ((Discrepancy.type d, n0) ∈ countByType discrepancies) as Hin
        by (by eapply list_elem_of_lookup_2).
      apply Hcounts in Hin as [Hn0 Hpos].
      assert ((<[i := (Discrepancy.type d, S n0)]> (countByType discrepancies)).*1
              = (countByType discrepancies).*1) as Hsame.
      { rewrite list_fmap_insert. apply list_insert_id.
        by rewrite list_lookup_fmap, Hat. }
      split; [by rewrite Hsame|]. intros ty n. rewrite tally_snoc.
      rewrite list_elem_of_lookup. split.
      * intros [j Hj]. destruct (decide (j = i)) as [->|Hne].
        -- rewrite list_lookup_insert_eq in Hj by (by eapply lookup_lt_Some).
           injection Hj as <- <-. rewrite decide_True by done. lia.
        -- rewrite list_lookup_insert_ne in Hj by done.
           assert (ty <> Discrepancy.type d) as Hother.
           { intros ->. apply Hne. eapply NoDup_lookup; [exact Hkeys| |].
             - by rewrite list_lookup_fmap, Hj.
             - by rewrite list_lookup_fmap, Hat. }
           rewrite decide_False by done.
           assert ((ty, n) ∈ countByType discrepancies) as Hin'
             by (by eapply list_elem_of_lookup_2).
           apply Hcounts in Hin'. lia.
      * intros [-> Hpos']. destruct (decide (Discrepancy.type d = ty)) as [<-|Hother].
        -- exists i. rewrite list_lookup_insert_eq by (by eapply lookup_lt_Some).
           f_equal. f_equal. lia.
        -- assert ((ty, tally ty discrepancies) ∈ countByType discrepancies) as Hin'
             by (apply Hcounts; lia).
           apply list_elem_of_lookup in Hin' as [j Hj]. exists j.
           rewrite list_lookup_insert_ne; [by rewrite Nat.add_0_r|].
           intros ->. rewrite Hat in Hj. by injection Hj as <-.
    + apply list_find_None in Hfind. rewrite Forall_forall in Hfind.
      assert (Discrepancy.type d ∉ (countByType discrepancies).*1) as Hnew.
      { intros ([ty n] & Hty & Hin)%list_elem_of_fmap. by apply (Hfind _ Hin). }
      assert (tally (Discrepancy.type d) discrepancies = 0%nat) as Hzero.
      { destruct (tally (Discrepancy.type d) discrepancies) as [|n] eqn:Hn; [done|].
        exfalso. apply Hnew, list_elem_of_fmap. exists (Discrepancy.type d, S n).
        split; [done|]. apply Hcounts. rewrite Hn. split; [done | lia]. }
      split.
      * rewrite fmap_app. apply NoDup_app. split; [done|]. split.
        -- intros ty Hin [->|[]%elem_of_nil]%elem_of_cons. done.
        -- apply NoDup_singleton.
      * intros ty n. rewrite tally_snoc, elem_of_app, list_elem_of_singleton, Hcounts.
        split.
        -- intros [[-> Hpos]|[= -> ->]].
           ++ case_decide as Hty; [|lia]. subst ty. lia.
           ++ rewrite decide_True by done. lia.
        -- intros [-> Hpos]. case_decide as Hty.
           ++ subst ty. right. f_equal. lia.
           ++ left. lia.
Qed.

(** X22. The [byType] summary of a report lists each discrepancy type that
    occurs once, with the number of discrepancies of that type; a type
    that does not occur has no entry, and the counts add up to the number
    of discrepancies. *)
Theorem reconcile_byType_counts request db :
  exists report db',
    reconcile request db = (Ok report, db') /\
    let discrepancies := ReconciliationReportDetail.discrepancies report in
    let byType := ReconciliationReportDetail.byType report in
    NoDup byType.*1 /\
    (forall ty n, (ty, n) ∈ byType <-> n = tally ty discrepancies /\ (0 < n)%nat) /\
    sum_list byType.*2 = ReconciliationReportDetail.discrepancyCount report.
Proof.
  eexists _, _. split; [apply reconcile_eq|].
  cbn [toDetail ReconciliationReportDetail.discrepancies ReconciliationReportDetail.byType
       ReconciliationReportDetail.discrepancyCount newReport
       ReconciliationReport.discrepancies ReconciliationReport.byType].
  set (found := discrepancies _).
  destruct (countByType_spec found) as [Hkeys Hcounts].
  split; [done|]. split; [done|].
  clear Hkeys Hcounts. induction found as [|d found IH] using rev_ind; [done|].
  rewrite countByType_snoc, length_app, <-IH. simpl.
  destruct (list_find _ (countByType found)) as [[i [ty n]]|] eqn:Hfind.
  - apply list_find_Some in Hfind as (Hat & _ & _).
    rewrite list_fmap_insert. simpl.
    assert ((countByType found).*2 !! i = Some n) as Hn by (by rewrite list_lookup_fmap, Hat).
    revert Hn. generalize ((countByType found).*2). clear. intros l. revert i.
    induction l as [|x l IH]; intros [|i] Hn; simpl in *; try done.
    + injection Hn as ->. lia.
    + rewrite (IH i Hn). lia.
  - rewrite fmap_app, sum_list_with_app. simpl. lia.
Qed.

End CountProperties.

Section ResolveProperties.

Import Reconciliation Reports.

(** X23. [resolveDiscrepancy] fails only with a 404, when the report or
    the discrepancy is not found, and then changes nothing.  When it
    succeeds it rewrites the one report and nothing else in the store, and
    [getReport] returns what it returned.  The counters of the report
    (total, matched, unmatched, by type, rate) stay as [reconcile] computed
    them, no discrepancy is added, dropped or renamed, and a discrepancy
    that was resolved stays resolved. *)
Theorem resolveDiscrepancy_frame reportId discrepancyId resolution resolvedBy db r db' :
  resolveDiscrepancy reportId discrepancyId resolution resolvedBy db = (r, db') ->
  match r with
  | Throw e =>
      db' = db /\
      (exists message, e = AppError message 404) /\
      (reconciliationReport db !! reportId = None \/
       exists report,
         reconciliationReport db !! reportId = Some report /\
         Forall (fun d => Discrepancy.id d <> discrepancyId)
                (ReconciliationReport.discrepancies report))
  | Ok detail =>
      exists report row,
        reconciliationReport db !! reportId = Some report /\
        db' = set_reconciliationReport (insert reportId row) db /\
        getReport reportId db' = (Ok detail, db') /\
        ReconciliationReportDetail.totalTransactions detail
          = ReconciliationReport.totalTransactions report /\
        ReconciliationReportDetail.matchedTransactions detail
          = ReconciliationReport.matchedTransactions report /\
        ReconciliationReportDetail.unmatchedTransactions detail
          = ReconciliationReport.unmatchedTransactions report /\
        ReconciliationReportDetail.byType detail = ReconciliationReport.byType report /\
        ReconciliationReportDetail.reconciliationRate detail
          = ReconciliationReport.reconciliationRate report /\
        Forall2 (fun d d' =>
                   Discrepancy.id d' = Discrepancy.id d /\
                   Discrepancy.transactionId d' = Discrepancy.transactionId d /\
                   Discrepancy.type d' = Discrepancy.type d /\
                   (resolved d -> resolved d') /\
                   (Discrepancy.id d <> discrepancyId -> d' = d))
                (ReconciliationReport.discrepancies report)
                (ReconciliationReportDetail.discrepancies detail)
  end.
Proof.
  unfold resolveDiscrepancy, bind at 1, get. simpl.
  destruct (reconciliationReport db !! reportId) as [report|] eqn:Hreport.
  - destruct (list_find _ (ReconciliationReport.discrepancies report))
      as [[discIdx existing]|] eqn:Hfind.
    + unfold bind, modify, ret. simpl. intros [= <- <-].
      eexists report, _. split; [done|]. split; [reflexivity|]. split.
      { unfold getReport, bind, get, ret. simpl. by rewrite lookup_insert_eq. }
      do 5 (split; [done|]).
      cbn [toDetail ReconciliationReportDetail.discrepancies].
      apply list_find_Some in Hfind as (Hat & Hid & _).
      apply Forall2_same_length_lookup. split; [by rewrite length_insert|].
      intros j d d' Hd Hd'. destruct (decide (j = discIdx)) as [->|Hne].
      * rewrite list_lookup_insert_eq in Hd' by (by eapply lookup_lt_Some).
        injection Hd' as <-. rewrite Hat in Hd. injection Hd as <-.
        repeat split; try done. intros _. by eexists.
      * rewrite list_lookup_insert_ne in Hd' by done.
        assert (d' = d) as -> by congruence. done.
    + unfold throw. intros [= <- <-]. split; [done|]. split; [by eexists|].
      right. exists report. split; [done|]. by apply list_find_None in Hfind.
  - unfold throw. intros [= <- <-]. split; [done|]. split; [by eexists|]. by left.
Qed.

Lemma reconciliationRate_bounds matched totalTransactions :
  (matched <= totalTransactions)%nat ->
  (0 <= reconciliationRate matched totalTransactions <= 100)%Q.
Proof.
  intros Hle. unfold reconciliationRate.
  destruct (Nat.ltb_spec 0 totalTransactions) as [Hpos|_]; [|lra].
  set (m := inject_Z (Z.of_nat matched)). set (t := inject_Z (Z.of_nat totalTransactions)).
  assert (0 < t)%Q as Ht.
  { unfold t. rewrite <-(Zlt_Qlt 0). lia. }
  assert (0 <= m)%Q as Hm.
  { unfold m. rewrite <-(Zle_Qle 0). lia. }
  assert (m <= t)%Q as Hmt.
  { unfold m, t. rewrite <-Zle_Qle. lia. }
  assert (0 <= m / t <= 1)%Q as [Hlow Hhigh].
  { split.
    - apply Qle_shift_div_l; [done|]. lra.
    - apply Qle_shift_div_r; [done|]. lra. }
  set (x := (m / t)%Q) in *. clearbody x. clear Ht Hm Hmt. clear m t.
  assert (0 <= Qfloor (x * 10000 + (1 # 2)) <= 10000)%Z as [Hfl Hfh].
  { split.
    - change 0%Z with (Qfloor (1 # 2)). apply Qfloor_resp_le. lra.
    - apply Z.le_trans with (Qfloor (10000 + (1 # 2))); [apply Qfloor_resp_le; lra | done]. }
  rewrite Zle_Qle in Hfl, Hfh.
  set (k := inject_Z (Qfloor _)) in *. clearbody k.
  change (0 <= k)%Q in Hfl. change (k <= 10000)%Q in Hfh.
  split.
  - apply Qle_shift_div_l; [reflexivity|]. lra.
  - apply Qle_shift_div_r; [reflexivity|]. lra.
Qed.

(** X24. When the settlement lines carry pairwise distinct transaction
    ids, a report never counts more matched transactions than
    transactions, and its reconciliation rate lies between 0 and 100. *)
Theorem reconcile_rate_in_range request db :
  NoDup (SettlementRecord.transactionId <$> ReconcileRequest.settlementData request) ->
  exists report db',
    reconcile request db = (Ok report, db') /\
    (ReconciliationReportDetail.matchedTransactions report
       <= ReconciliationReportDetail.totalTransactions report)%nat /\
    (0 <= ReconciliationReportDetail.reconciliationRate report <= 100)%Q.
Proof.
  intros Hnd. eexists _, _. split; [apply reconcile_eq|].
  cbn [toDetail newReport ReconciliationReportDetail.matchedTransactions
       ReconciliationReportDetail.totalTransactions
       ReconciliationReportDetail.reconciliationRate
       ReconciliationReport.matchedTransactions ReconciliationReport.totalTransactions
       ReconciliationReport.reconciliationRate].
  set (L := findLocalTransactions request db).
  assert (matched (runLoops request L) <= unionSize request L)%nat as Hle.
  { pose proof (matched_set request L Hnd) as Hset.
    destruct (runLoops_spec request L) as (_ & Hmatched & _).
    assert (matched (runLoops request L) =
            size ((providerIds request ∪ localIds L)
                    ∖ named (discrepancies (runLoops request L)))) as ->.
    { rewrite Hset, Hmatched, size_list_to_set, length_fmap; [done|].
      apply (NoDup_fmap_2_strong _); [|by eapply NoDup_filter, NoDup_fmap_1].
      intros p q [_ Hp]%list_elem_of_filter [_ Hq]%list_elem_of_filter.
      by apply (NoDup_fmap_eq _ (ReconcileRequest.settlementData request)). }
    rewrite unionSize_eq. apply subseteq_size. apply subseteq_difference_l. done. }
  split; [done|]. by apply reconciliationRate_bounds.
Qed.

End ResolveProperties.

Section MockSettlementProperties.

Import Reconciliation Reports MockSettlement.

Context (rt : Js.Runtime).
Context (toISOString : Z -> string).
Context (addDiscrepancies : list SettlementRecord.t -> list SettlementRecord.t).

Lemma keyedById_NoDup db :
  keyedById db -> NoDup (Transaction.id <$> (map_to_list (transaction db)).*2).
Proof.
  intros Hkeys.
  assert (Transaction.id <$> (map_to_list (transaction db)).*2
          = (map_to_list (transaction db)).*1) as ->.
  { rewrite <-list_fmap_compose. apply Forall_fmap_ext_1, Forall_forall.
    intros [id t] Hin%elem_of_map_to_list. simpl. by apply Hkeys. }
  apply NoDup_fst_map_to_list.
Qed.

Lemma matching_line lm t :
  lm !! Transaction.id t = Some t ->
  isMatched lm (toRecord toISOString t) = true.
Proof.
  intros Hlookup. unfold isMatched, toRecord. simpl. rewrite Hlookup.
  unfold amountDiffers, statusDiffers. simpl.
  rewrite bool_decide_eq_true_2 by done.
  unfold Js.Number_of_bigint. simpl. by rewrite Qeq_bool_refl.
Qed.

(** X25. A mock settlement generated without introduced discrepancies
    reconciles cleanly against the store it was generated from: it has one
    line for each transaction of the merchant, provider and period, and
    [reconcile] on these lines finds no discrepancy, counts every
    transaction as matched and reports [COMPLETED] with a rate of 100. *)
Theorem mock_settlement_reconciles request db :
  keyedById db ->
  default false (MockSettlementRequest.introduceDiscrepancies request) = false ->
  exists records csv,
    generateMockSettlement rt toISOString addDiscrepancies request db
      = (Ok (records, csv), db) /\
    SettlementRecord.transactionId <$> records
      ≡ₚ Transaction.id <$> selected request db /\
    returns (reconcile (submitted request records)) db (fun report _ =>
      ReconciliationReportDetail.discrepancies report = [] /\
      ReconciliationReportDetail.status report = ReconciliationStatus.COMPLETED /\
      ReconciliationReportDetail.totalTransactions report = length records /\
      ReconciliationReportDetail.matchedTransactions report = length records /\
      ReconciliationReportDetail.unmatchedTransactions report = 0%nat /\
      (ReconciliationReportDetail.reconciliationRate report == 100)%Q).
Proof.
  intros Hkeys Hplain.
  set (L := selected request db).
  set (records := toRecord toISOString <$> LedgerQueries.orderByAsc Transaction.createdAt L).
  assert (exists csv, generateMockSettlement rt toISOString addDiscrepancies request db
                      = (Ok (records, csv), db)) as [csv Hrun].
  { unfold generateMockSettlement, bind, get, ret. simpl. rewrite Hplain. simpl.
    fold L. fold records. destruct (MockSettlementRequest.format request) as [[]|]; eauto. }
  exists records, csv. split; [done|].
  assert (SettlementRecord.transactionId <$> records ≡ₚ Transaction.id <$> L) as Hids.
  { unfold records, LedgerQueries.orderByAsc. rewrite <-list_fmap_compose.
    by rewrite orderByPriority_perm. }
  split; [done|].
  assert (NoDup (Transaction.id <$> L)) as HndL.
  { eapply sublist_NoDup; [apply keyedById_NoDup, Hkeys|].
    apply fmap_sublist, sublist_filter. }
  assert (NoDup (SettlementRecord.transactionId <$> records)) as HndP by (by rewrite Hids).
  assert (findLocalTransactions (submitted request records) db = L) as HL by done.
  unfold returns. rewrite reconcile_eq.
  cbn [toDetail newReport ReconciliationReportDetail.discrepancies
       ReconciliationReportDetail.status ReconciliationReportDetail.totalTransactions
       ReconciliationReportDetail.matchedTransactions
       ReconciliationReportDetail.unmatchedTransactions
       ReconciliationReportDetail.reconciliationRate
       ReconciliationReport.discrepancies ReconciliationReport.status
       ReconciliationReport.totalTransactions ReconciliationReport.matchedTransactions
       ReconciliationReport.unmatchedTransactions ReconciliationReport.reconciliationRate].
  rewrite HL.
  destruct (runLoops_spec (submitted request records) L) as (Hnamed & Hmatched & _).
  cbn [submitted ReconcileRequest.settlementData] in Hnamed, Hmatched.
  set (lm := newMap Transaction.id L) in *.
  set (pm := newMap SettlementRecord.transactionId records) in *.
  assert (Forall (fun p => isMatched lm p = true) records) as Hall.
  { apply Forall_forall. intros p (t & -> & Ht)%list_elem_of_fmap.
    apply matching_line. apply newMap_lookup_NoDup; [done|].
    unfold LedgerQueries.orderByAsc in Ht. by rewrite orderByPriority_perm in Ht. }
  assert (discrepancies (runLoops (submitted request records) L) = []) as Hnone.
  { apply (fmap_nil_inv Discrepancy.transactionId). rewrite Hnamed.
    assert (filter (fun l => pm !! Transaction.id l = None) L = []) as ->.
    { apply filter_none, Forall_forall. intros l Hl Hmissing.
      apply newMap_lookup_None in Hmissing. apply Hmissing. rewrite Hids.
      by apply list_elem_of_fmap_2. }
    rewrite app_nil_r. clear -Hall. induction Hall as [|p P Hp _ IH]; [done|].
    rewrite bind_cons, IH, app_nil_r.
    apply isMatched_raisedFor in Hp. by rewrite Hp. }
  assert (matched (runLoops (submitted request records) L) = length records) as Hcount.
  { rewrite Hmatched. by rewrite filter_all. }
  assert (unionSize (submitted request records) L = length records) as Htotal.
  { rewrite unionSize_eq. unfold providerIds, localIds.
    cbn [submitted ReconcileRequest.settlementData].
    assert ((list_to_set (Transaction.id <$> L) : gset string)
            = list_to_set (SettlementRecord.transactionId <$> records)) as ->.
    { apply set_eq. intros id. rewrite !elem_of_list_to_set. by rewrite Hids. }
    rewrite union_idemp_L, size_list_to_set by done. by rewrite length_fmap. }
  rewrite Hnone, Hcount, Htotal. cbn [length Nat.ltb Nat.leb].
  do 5 (split; [done|]).
  unfold reconciliationRate. destruct (Nat.ltb_spec 0 (length records)) as [Hpos|_]; [|done].
  set (n := inject_Z (Z.of_nat (length records))).
  assert (0 < n)%Q as Hn by (unfold n; rewrite <-(Zlt_Qlt 0); lia).
  assert (n / n == 1)%Q as -> by (apply Qmult_inv_r; lra).
  by vm_compute.
Qed.

End MockSettlementProperties.

Section ReconciliationWitnesses.

Import Reconciliation Reports MockSettlement.

Lemma resolveDiscrepancy_frame_witness :
  exists detail db',
    resolveDiscrepancy "0" "disc_2" ignore (Some "ops") Sample.reconciled = (Ok detail, db') /\
    getReport "0" db' = (Ok detail, db') /\
    ReconciliationReportDetail.unmatchedTransactions detail = 3%nat.
Proof.
  destruct (resolveDiscrepancy "0" "disc_2" ignore (Some "ops") Sample.reconciled)
    as [r db'] eqn:Hrun.
  pose proof (resolveDiscrepancy_frame "0" "disc_2" ignore (Some "ops") Sample.reconciled
                r db' Hrun) as Hframe.
  destruct r as [detail|e].
  - exists detail, db'. split; [reflexivity|].
    destruct Hframe as (report & row & Hreport & _ & Hget & _ & _ & Hunmatched & _).
    split; [exact Hget|]. rewrite Hunmatched.
    vm_compute in Hreport. injection Hreport as <-. reflexivity.
  - exfalso. vm_compute in Hrun. discriminate Hrun.
Defined.

Lemma reconcile_rate_in_range_witness :
  NoDup (SettlementRecord.transactionId <$> ReconcileRequest.settlementData Sample.mismatches) /\
  exists report db',
    reconcile Sample.mismatches Sample.db = (Ok report, db') /\
    (ReconciliationReportDetail.matchedTransactions report
       <= ReconciliationReportDetail.totalTransactions report)%nat /\
    (0 <= ReconciliationReportDetail.reconciliationRate report <= 100)%Q.
Proof.
  assert (NoDup (SettlementRecord.transactionId
                   <$> ReconcileRequest.settlementData Sample.mismatches)) as Hdistinct
    by (apply (bool_decide_unpack _); vm_compute; reflexivity).
  split; [exact Hdistinct|].
  exact (reconcile_rate_in_range Sample.mismatches Sample.db Hdistinct).
Defined.

Lemma mock_settlement_reconciles_witness :
  keyedById Sample.db /\
  exists records csv,
    generateMockSettlement Sample.runtime Sample.timestamp Sample.unchanged
      Sample.mock Sample.db = (Ok (records, csv), Sample.db) /\
    length records = 1%nat /\
    returns (reconcile (submitted Sample.mock records)) Sample.db (fun report _ =>
      ReconciliationReportDetail.discrepancies report = [] /\
      ReconciliationReportDetail.status report = ReconciliationStatus.COMPLETED).
Proof.
  assert (keyedById Sample.db) as Hkeys.
  { intros id t Hrow. change (transaction Sample.db)
      with ({[ "txn-123" := Sample.txn "txn-123" COMPLETED 1000 ]} : gmap string Transaction.t)
      in Hrow.
    apply lookup_singleton_Some in Hrow as [<- <-]. reflexivity. }
  split; [exact Hkeys|].
  destruct (mock_settlement_reconciles Sample.runtime Sample.timestamp Sample.unchanged
              Sample.mock Sample.db Hkeys eq_refl)
    as (records & csv & Hrun & _ & Hreport).
  exists records, csv. split; [exact Hrun|]. split.
  - vm_compute in Hrun. by injection Hrun as <- _.
  - revert Hreport. unfold returns.
    destruct (reconcile (submitted Sample.mock records) Sample.db) as [[report|e] db'];
      [|done].
    intros (Hnone & Hstatus & _). by split.
Defined.

End ReconciliationWitnesses.

(** ** Payments read back and replayed *)

Section PaymentStoreProperties.

Import Payment PaymentQueries.

Ltac run_payment :=
  unfold getAdapter, capture, cancel, refund, updateMetrics, updateTransaction,
    recordStatusChange, createTransaction, wrapProviderError, record, liftDb, try_catch, bind,
    get, ret, throw, lift, modify; simpl.



(** X27. After a capture or a cancellation went through, [getPayment]
    returns the response the operation returned, with status [COMPLETED]
    after a capture and [CANCELLED] after a cancellation; the transaction
    was [PENDING] before, and no other transaction is touched. *)
Theorem update_then_getPayment env operation id w response w' :
  requiredStatus operation = Some (id, PENDING) ->
  perform env operation w = (Ok response, w') ->
  getPayment id w' = (Ok (Some response), w') /\
  status_of id w = Some PENDING /\
  PaymentResponse.status response
    = match operation with CapturePayment _ _ => COMPLETED | _ => CANCELLED end /\
  forall other, other <> id -> transaction (db w') !! other = transaction (db w) !! other.
Proof.
  intros Hop. unfold getPayment, status_of, bind, get, ret.
  destruct operation as [request|id' request|id' reason|id' request];
    try discriminate Hop; injection Hop as ->; cbn [perform].
  - unfold capturePayment. unfold bind at 1, get. simpl.
    destruct (transaction (db w) !! id) as [row|] eqn:Hrow; [|done].
    case_bool_decide as Hstatus; simpl; [|done].
    destruct (nonEmpty (Transaction.providerId row)) as [providerId|]; [|done].
    destruct (nonEmpty (Transaction.providerTransactionId row)) as [providerTransactionId|];
      [|done].
    destruct (paymentProvider (db w) !! providerId) as [provider|]; [|done].
    run_payment.
    destruct (providerService_getAdapter env _ _ _) as [[]|e']; simpl; [|done].
    destruct (adapter_capture env _ _ _) as [captured|e']; simpl; [|by destruct e'].
    rewrite Hrow. simpl. intros [= <- <-]. simpl. rewrite lookup_insert_eq, Hstatus.
    repeat split; try done. intros other Hother. by rewrite lookup_insert_ne.
  - unfold cancelPayment. unfold bind at 1, get. simpl.
    destruct (transaction (db w) !! id) as [row|] eqn:Hrow; [|done].
    case_bool_decide as Hstatus; simpl; [|done].
    assert (forall updated,
              (Ok (toPaymentResponse updated),
               {| db := set_transactionStatusHistory
                          (fun rows => rows ++ [change id (Some PENDING) CANCELLED reason])
                          (set_transaction (insert id updated) (db w));
                  calls := calls w |}) = (Ok response, w') ->
              Transaction.status updated = CANCELLED ->
              (Ok (toPaymentResponse <$> transaction (db w') !! id), w')
                = (Ok (Some response), w') /\
              Transaction.status <$> Some row = Some PENDING /\
              PaymentResponse.status response = CANCELLED /\
              forall other, other <> id ->
                transaction (db w') !! other = transaction (db w) !! other) as Hlocal.
    { intros updated [= <- <-] Hcancelled. simpl. rewrite lookup_insert_eq, Hstatus.
      repeat split; try done. intros other Hother. by rewrite lookup_insert_ne. }
    destruct (nonEmpty (Transaction.providerId row)) as [providerId|];
      [|run_payment; rewrite Hrow; simpl; intros Hrun; by eapply Hlocal].
    destruct (nonEmpty (Transaction.providerTransactionId row)) as [providerTransactionId|];
      [|run_payment; rewrite Hrow; simpl; intros Hrun; by eapply Hlocal].
    destruct (paymentProvider (db w) !! providerId) as [provider|]; [|done].
    run_payment.
    destruct (providerService_getAdapter env _ _ _) as [[]|e']; simpl; [|done].
    destruct (adapter_cancel env _ _ _) as [cancelled|e']; simpl; [|by destruct e'].
    rewrite Hrow. simpl. intros [= <- <-]. simpl. rewrite lookup_insert_eq, Hstatus.
    repeat split; try done. intros other Hother. by rewrite lookup_insert_ne.
Qed.

(** X28. A refund that goes through creates a new [REFUND] transaction,
    under an id not used before, whose parent is the payment, and returns
    it; [getPayment] with its id returns the same response.  The payment
    itself, [COMPLETED] before, becomes [REFUNDED] when the amount asked
    for (the whole amount when none is given) is at least the amount of
    the payment, and stays [COMPLETED] otherwise, whatever status the
    provider reported for the refund. *)
Theorem refundPayment_outcome env id request w response w' :
  refundPayment env id request w = (Ok response, w') ->
  exists original,
    transaction (db w) !! id = Some original /\
    Transaction.status original = COMPLETED /\
    transaction (db w) !! PaymentResponse.id response = None /\
    getPayment (PaymentResponse.id response) w' = (Ok (Some response), w') /\
    PaymentResponse.type response = REFUND /\
    (Transaction.parentTransactionId
       <$> transaction (db w') !! PaymentResponse.id response)
      = Some (Some (Transaction.id original)) /\
    status_of id w' = Some (afterRefund original request) /\
    forall other, other <> id -> other <> PaymentResponse.id response ->
      transaction (db w') !! other = transaction (db w) !! other.
Proof.
  unfold getPayment, status_of, refundPayment. unfold bind at 1, get. simpl.
  destruct (transaction (db w) !! id) as [row|] eqn:Hrow; [|done].
  case_bool_decide as Hstatus; simpl; [|done].
  destruct (nonEmpty (Transaction.providerId row)) as [providerId|]; [|done].
  destruct (nonEmpty (Transaction.providerTransactionId row)) as [providerTransactionId|];
    [|done].
  destruct (paymentProvider (db w) !! providerId) as [provider|]; [|done].
  run_payment.
  destruct (providerService_getAdapter env _ _ _) as [[]|e']; simpl; [|done].
  destruct (adapter_refund env _ _ _) as [refunded|e']; simpl; [|by destruct e'].
  assert (transaction (db w) !! fresh (dom (transaction (db w))) = None) as Hnew.
  { apply not_elem_of_dom, is_fresh. }
  assert (fresh (dom (transaction (db w))) <> id) as Hfresh.
  { intros Heq. rewrite Heq, Hrow in Hnew. done. }
  destruct (Transaction.amount row
              <=? default (Transaction.amount row) (RefundPaymentRequest.amount request))
    eqn:Hfull; simpl.
  - rewrite lookup_insert_ne, Hrow by done. simpl. intros [= <- <-]. simpl.
    exists row. rewrite lookup_insert_eq, lookup_insert_ne, lookup_insert_eq by done.
    simpl. unfold afterRefund. rewrite Hfull. repeat split; try done.
    intros other Hother Hother'. by rewrite !lookup_insert_ne.
  - intros [= <- <-]. simpl.
    exists row. rewrite lookup_insert_eq, lookup_insert_ne, Hrow by done.
    simpl. unfold afterRefund. rewrite Hfull, Hstatus. repeat split; try done.
    intros other Hother Hother'. by rewrite !lookup_insert_ne.
Qed.

End PaymentStoreProperties.

Section PaymentReplayProperties.

Import Payment PaymentQueries.

Context (env : Collaborators).

(** Routing reads the transaction table and does not write it. *)
Hypothesis routing_keeps_transactions :
  forall context db,
    transaction (routingService_selectProvider env context db).2 = transaction db.

Lemma findByIdempotencyKey_table key db db' :
  transaction db' = transaction db ->
  findByIdempotencyKey key db' = findByIdempotencyKey key db.
Proof. unfold findByIdempotencyKey. by intros ->. Qed.

Lemma findByIdempotencyKey_insert key db db' tid row :
  findByIdempotencyKey key db = None ->
  transaction db' = <[tid := row]> (transaction db) ->
  Transaction.idempotencyKey row = Some key ->
  findByIdempotencyKey key db' = Some row.
Proof.
  unfold findByIdempotencyKey. intros Hnone -> Hkey.
  set (P := fun t => Transaction.idempotencyKey t = Some key).
  apply head_None in Hnone.
  assert (forall x, x ∈ filter P (map_to_list (<[tid := row]> (transaction db))).*2 -> x = row)
    as Hall.
  { intros x [HP Hx]%list_elem_of_filter.
    apply list_elem_of_fmap in Hx as ([k x'] & -> & Hx). simpl in *.
    apply elem_of_map_to_list in Hx. destruct (decide (k = tid)) as [->|Hne].
    - rewrite lookup_insert_eq in Hx. by injection Hx.
    - rewrite lookup_insert_ne in Hx by done. exfalso.
      assert (x' ∈ filter P (map_to_list (transaction db)).*2) as Hin.
      { apply list_elem_of_filter. split; [done|]. apply list_elem_of_fmap.
        exists (k, x'). split; [done|]. by apply elem_of_map_to_list. }
      fold P in Hnone. rewrite Hnone in Hin. by apply elem_of_nil in Hin. }
  assert (row ∈ filter P (map_to_list (<[tid := row]> (transaction db))).*2) as Hin.
  { apply list_elem_of_filter. split; [done|]. apply list_elem_of_fmap.
    exists (tid, row). split; [done|]. apply elem_of_map_to_list. by rewrite lookup_insert_eq. }
  destruct (filter P _) as [|x l]; [by apply elem_of_nil in Hin|].
  simpl. f_equal. apply Hall. left.
Qed.

Lemma rewritten_refl tid row w :
  transaction (db w) !! tid = Some row -> rewritten tid row w w row.
Proof. intros Hrow. split; [by rewrite insert_id | done]. Qed.

Lemma rewritten_trans tid row w w1 row1 w2 row2 :
  rewritten tid row w w1 row1 -> rewritten tid row1 w1 w2 row2 -> rewritten tid row w w2 row2.
Proof.
  intros (Ht1 & Hid1 & Hkey1) (Ht2 & Hid2 & Hkey2). split; [|split; congruence].
  by rewrite Ht2, Ht1, insert_insert_eq.
Qed.

Lemma rewritten_lookup tid row w w' row' :
  rewritten tid row w w' row' -> transaction (db w') !! tid = Some row'.
Proof. intros (-> & _). by rewrite lookup_insert_eq. Qed.

Lemma execute_row tid pid request amount currency w row r w' :
  transaction (db w) !! tid = Some row ->
  executePaymentWithProvider env tid pid request amount currency w = (r, w') ->
  exists row',
    rewritten tid row w w' row' /\
    forall response, r = Ok response -> response = toPaymentResponse row'.
Proof.
  intros Hrow.
  unfold executePaymentWithProvider, updateTransaction, recordStatusChange, getAdapter,
    authorize, updateMetrics, elapse, record, liftDb, try_catch, bind, get, ret, throw, lift,
    modify, rewritten.
  simpl. rewrite ?Hrow.
  destruct (paymentProvider (db w) !! pid) as [provider|] eqn:Hprov; simpl.
  2:{ intros [= <- <-]. exists row. by rewrite insert_id. }
  rewrite Hrow. simpl.
  destruct (providerService_getAdapter env _ _ _) as [[]|e] eqn:Hadapter; simpl.
  2:{ intros [= <- <-]. simpl. eexists. split; [split; [reflexivity|done]|done]. }
  destruct (adapter_authorize env _ _ _) as [ms [result|e]] eqn:Hauth; simpl.
  - rewrite lookup_insert_eq. simpl. intros [= <- <-]. simpl. eexists. split.
    + split; [by rewrite insert_insert_eq | done].
    + by intros response [= <-].
  - intros [= <- <-]. simpl. eexists. split; [split; [reflexivity|done]|done].
Qed.

Lemma attemptProviders_row tid request amount currency candidates failed0 last0 w row r w' :
  transaction (db w) !! tid = Some row ->
  attemptProviders env tid request amount currency candidates failed0 last0 w = (r, w') ->
  exists row' attempts,
    r = Ok attempts /\ rewritten tid row w w' row' /\
    forall response, attempts = Returned response -> response = toPaymentResponse row'.
Proof.
  revert failed0 last0 w row.
  induction candidates as [|pid candidates IH]; intros failed0 last0 w row Hrow; simpl.
  - unfold ret. intros [= <- <-]. exists row, (Failed failed0 last0).
    split; [done|]. split; [by apply rewritten_refl | done].
  - unfold try_catch, bind at 1.
    destruct (executePaymentWithProvider env tid pid request amount currency w)
      as [[response|e] w1] eqn:Hexec;
      destruct (execute_row _ _ _ _ _ _ _ _ _ Hrow Hexec) as (row1 & Hrow1 & Hresponse).
    + unfold ret. intros [= <- <-]. exists row1, (Returned response).
      split; [done|]. split; [done|]. intros ? [= <-]. by apply Hresponse.
    + destruct (isRetryable e); simpl.
      * intros Hrest.
        destruct (IH _ _ _ _ (rewritten_lookup _ _ _ _ _ Hrow1) Hrest)
          as (row' & attempts & -> & Hrow' & Hreturned).
        exists row', attempts. split; [done|]. split; [|done]. by eapply rewritten_trans.
      * unfold ret. intros [= <- <-]. eexists row1, _. split; [done|]. by split.
Qed.

Lemma attemptWithFallback_row tid request amount currency decision w row r w' :
  transaction (db w) !! tid = Some row ->
  attemptWithFallback env tid request amount currency decision w = (r, w') ->
  exists row',
    rewritten tid row w w' row' /\
    match r with
    | Ok response => response = toPaymentResponse row'
    | Throw e => e = allProvidersFailed tid /\ Transaction.status row' = FAILED
    end.
Proof.
  intros Hrow. unfold attemptWithFallback. unfold bind at 1.
  destruct (attemptProviders _ _ _ _ _ _ _ _ w) as [r1 w1] eqn:Hattempts.
  destruct (attemptProviders_row _ _ _ _ _ _ _ _ _ _ _ Hrow Hattempts)
    as (row1 & attempts & -> & Hrow1 & Hreturned).
  destruct attempts as [response|failed lastError].
  - unfold ret. intros [= <- <-]. exists row1. split; [done|]. by apply Hreturned.
  - pose proof (rewritten_lookup _ _ _ _ _ Hrow1) as Hat.
    unfold updateTransactionStatus, updateTransaction, recordStatusChange, liftDb, bind, get,
      ret, throw, modify. simpl. rewrite Hat. simpl. intros [= <- <-].
    eexists. split.
    + eapply rewritten_trans; [exact Hrow1|]. split; [reflexivity | done].
    + done.
Qed.

Lemma createPayment_begin request w r w' :
  match nonEmpty (CreatePaymentRequest.idempotencyKey request) with
  | Some key => findByIdempotencyKey key (db w) = None
  | None => True
  end ->
  createPayment env request w = (r, w') ->
  (is_ok r = false /\ transaction (db w') = transaction (db w)) \/
  (exists w1 amount currency decision row,
     let tid := fresh (dom (transaction (db w))) in
     transaction (db w1) = <[tid := row]> (transaction (db w)) /\
     Transaction.id row = tid /\
     Transaction.idempotencyKey row = CreatePaymentRequest.idempotencyKey request /\
     attemptWithFallback env tid request amount currency decision w1 = (r, w')).
Proof.
  intros Hfresh. unfold createPayment.
  set (lookup := match nonEmpty _ with Some key => _ | None => _ end).
  assert (lookup w = (Ok None, w)) as Hlookup.
  { subst lookup. destruct (nonEmpty _) as [key|]; [|done].
    unfold bind, get, ret. simpl. by rewrite Hfresh. }
  unfold bind at 1. rewrite Hlookup. clear Hlookup lookup.
  set (conversion := match CreatePaymentRequest.targetCurrency request with
                     | Some t => _ | None => _ end).
  assert (exists w0, db w0 = db w /\
            ((exists c, conversion w = (Ok c, w0)) \/ (exists e, conversion w = (Throw e, w0))))
    as (w0 & Hdb0 & Hconv).
  { subst conversion.
    destruct (CreatePaymentRequest.targetCurrency request) as [target|];
      [case_bool_decide|].
    - unfold convert, record, lift, bind, get, modify, ret. simpl.
      destruct (fxService_convert env (calls w) _ _ target) as [c|e] eqn:Hfx;
        eexists; (split; [|eauto]); done.
    - exists w. eauto.
    - exists w. eauto. }
  unfold bind at 1.
  destruct Hconv as [[c Hconv]|[e Hconv]]; rewrite Hconv; clear Hconv conversion.
  2:{ intros [= <- <-]. left. by rewrite Hdb0. }
  set (context := Routing.RoutingContext.Build_t _ _ _ _ _ _ _ _ _).
  unfold bind at 1. unfold selectProvider at 1. unfold record, liftDb, bind, modify.
  simpl. rewrite Hdb0.
  pose proof (routing_keeps_transactions context (db w)) as Hkeeps.
  destruct (routingService_selectProvider env context (db w)) as [[decision|e] db1] eqn:Hroute;
    simpl in Hkeeps.
  2:{ intros [= <- <-]. by left. }
  match goal with
  | |- context [createTransaction ?row ?w] =>
      destruct (createTransaction_cases row w) as [Hcreate|Hcreate]; rewrite Hcreate;
        clear Hcreate
  end.
  { intros [= <- <-]. by left. }
  simpl. rewrite Hkeeps. intros Hrun. right.
  eexists _, _, _, _, _. cbv zeta. split; [|split; [|split]]; cycle 3.
  - exact Hrun.
  - simpl. by rewrite Hkeeps.
  - done.
  - done.
Qed.

(** X29. A payment request with an idempotency key that is not stored yet
    either fails before a transaction is created, and the transaction
    table is as before, or leaves one transaction stored under the key.
    In the second case the response, when there is one, is that stored
    transaction, which [getPayment] also returns; a failure is
    [ALL_PROVIDERS_FAILED] with the transaction stored as [FAILED]; and
    sending the same request again returns the stored transaction without
    a new attempt, also after a failure. *)
Theorem createPayment_replay request key w r w' :
  CreatePaymentRequest.idempotencyKey request = Some key ->
  key <> "" ->
  findByIdempotencyKey key (db w) = None ->
  createPayment env request w = (r, w') ->
  (is_ok r = false /\ transaction (db w') = transaction (db w)) \/
  exists stored,
    findByIdempotencyKey key (db w') = Some stored /\
    getPayment (Transaction.id stored) w' = (Ok (Some (toPaymentResponse stored)), w') /\
    createPayment env request w' = (Ok (toPaymentResponse stored), w') /\
    match r with
    | Ok response => response = toPaymentResponse stored
    | Throw e => e = allProvidersFailed (Transaction.id stored) /\
                 Transaction.status stored = FAILED
    end.
Proof.
  intros Hkey Hnonempty Hnone Hrun.
  assert (nonEmpty (CreatePaymentRequest.idempotencyKey request) = Some key) as Hsome.
  { rewrite Hkey. simpl. by rewrite bool_decide_eq_false_2. }
  destruct (createPayment_begin request w r w') as
    [Hfail | (w1 & amount & currency & decision & row & Hbegin)]; [by rewrite Hsome | done | |].
  { by left. }
  cbv zeta in Hbegin. destruct Hbegin as (Htable & Hid & Hrowkey & Heq).
  set (tid := fresh (dom (transaction (db w)))) in *.
  assert (transaction (db w1) !! tid = Some row) as Hrow
    by (by rewrite Htable, lookup_insert_eq).
  destruct (attemptWithFallback_row _ _ _ _ _ _ _ _ _ Hrow Heq)
    as (stored & (Htable' & Hid' & Hkey') & Hresult).
  right. exists stored.
  assert (transaction (db w') = <[tid := stored]> (transaction (db w))) as Hfinal.
  { by rewrite Htable', Htable, insert_insert_eq. }
  assert (findByIdempotencyKey key (db w') = Some stored) as Hfound.
  { eapply findByIdempotencyKey_insert; [exact Hnone | exact Hfinal |]. congruence. }
  assert (Transaction.id stored = tid) as Htid by congruence.
  split; [done|]. split.
  { unfold getPayment, bind, get, ret. simpl. by rewrite Htid, Hfinal, lookup_insert_eq. }
  split.
  { unfold createPayment. rewrite Hsome. unfold bind at 1. unfold bind at 1, get, ret. simpl.
    by rewrite Hfound. }
  destruct r as [response|e]; [done|]. by rewrite Htid.
Qed.

End PaymentReplayProperties.

Section PaymentWitnesses.

Import Payment PaymentQueries.


Lemma update_then_getPayment_witness :
  exists response w',
    capturePayment Sample.env "txn-456" Sample.captureAll
      (Sample.world (Sample.stored (Sample.keyed "k"))) = (Ok response, w') /\
    getPayment "txn-456" w' = (Ok (Some response), w') /\
    PaymentResponse.status response = COMPLETED.
Proof.
  eexists _, _. split; [vm_compute; reflexivity|].
  edestruct (update_then_getPayment Sample.env (CapturePayment "txn-456" Sample.captureAll)
               "txn-456" (Sample.world (Sample.stored (Sample.keyed "k"))))
    as (Hget & _ & Hstatus & _); [reflexivity | vm_compute; reflexivity |].
  split; [exact Hget | exact Hstatus].
Defined.

Lemma refundPayment_outcome_witness :
  exists response w',
    refundPayment Sample.refunding "txn-123" (Sample.refundOf (Some 400))
      (Sample.world Sample.db) = (Ok response, w') /\
    PaymentResponse.type response = REFUND /\
    PaymentResponse.status response = PENDING /\
    status_of "txn-123" w' = Some COMPLETED.
Proof.
  eexists _, _. split; [vm_compute; reflexivity|].
  edestruct (refundPayment_outcome Sample.refunding "txn-123" (Sample.refundOf (Some 400))
               (Sample.world Sample.db))
    as (original & Horiginal & _ & _ & _ & Htype & _ & Hstatus & _);
    [vm_compute; reflexivity|].
  split; [exact Htype|]. split; [reflexivity|].
  vm_compute in Horiginal. injection Horiginal as <-. exact Hstatus.
Defined.

Lemma createPayment_replay_witness :
  exists w' stored,
    createPayment Sample.env (Sample.payment (Some "order-42"))
      (Sample.world (Sample.routed [])) = (Throw (allProvidersFailed "0"), w') /\
    Transaction.status stored = FAILED /\
    createPayment Sample.env (Sample.payment (Some "order-42")) w'
      = (Ok (toPaymentResponse stored), w').
Proof.
  destruct (createPayment Sample.env (Sample.payment (Some "order-42"))
              (Sample.world (Sample.routed []))) as [r w'] eqn:Hrun.
  destruct (createPayment_replay Sample.env (fun _ _ => eq_refl)
              (Sample.payment (Some "order-42")) "order-42"
              (Sample.world (Sample.routed [])) r w')
    as [[_ Hsame] | (stored & _ & _ & Hagain & Hresult)];
    [reflexivity | discriminate | vm_compute; reflexivity | exact Hrun | |].
  - exfalso. vm_compute in Hrun. injection Hrun as _ <-.
    apply (f_equal (fun table => table !! "0")) in Hsame. vm_compute in Hsame.
    discriminate Hsame.
  - exists w', stored. vm_compute in Hrun. injection Hrun as <- Hw'.
    destruct Hresult as [_ Hfailed]. split; [by rewrite <-Hw'|].
    split; [exact Hfailed | exact Hagain].
Defined.

End PaymentWitnesses.
